(** * Verification of the authentication core of ai_poc_001

    Shallow embedding of
    - [JWTTokenService] and [DefaultAuthService]
      (src/src/services/token-service.ts),
    - [BcryptPasswordService] (src/unnamed/part_002),
    - [InMemoryUserRepository] (src/src/repositories/user-repository.ts),
    - the error classes of src/unnamed/part_001 and
      [DefaultAuthMiddleware.authenticate].

    JavaScript strings are modelled as [string] (sequences of UTF-16 code
    units in the Latin-1 range).  Cryptographic and encoding primitives
    (HMAC, SHA-256, base64url, JSON) are the fields of the class
    [Primitives]; the properties the proofs rely on are stated as explicit
    hypotheses.  Clock reads ([Date.now()], [new Date()]) and random bytes
    are streams in the [World] consumed in program order. *)

From Stdlib Require Import String Ascii List ZArith Bool Lia DecimalNat.
Import ListNotations.

Local Open Scope string_scope.

(* ------------------------------------------------------------------ *)
(** ** JavaScript strings *)

Module JsString.

(** [s.split(c)] for a one-character separator: ["a..b".split('.')] is
    [["a"; ""; "b"]] and [("").split('.')] is [[""]]. *)
Fixpoint split (c : ascii) (s : string) : list string :=
  match s with
  | EmptyString => [EmptyString]
  | String a rest =>
      if Ascii.eqb a c then EmptyString :: split c rest
      else match split c rest with
           | x :: xs => String a x :: xs
           | [] => [String a EmptyString]
           end
  end.

(** [a] does not occur in [s]. *)
Fixpoint free_of (c : ascii) (s : string) : bool :=
  match s with
  | EmptyString => true
  | String a rest => negb (Ascii.eqb a c) && free_of c rest
  end.

Fixpoint starts_with (needle hay : string) : bool :=
  match needle, hay with
  | EmptyString, _ => true
  | String a n, String b h => Ascii.eqb a b && starts_with n h
  | String _ _, EmptyString => false
  end.

(** [hay.includes(needle)] *)
Fixpoint includes (hay needle : string) : bool :=
  starts_with needle hay ||
  match hay with
  | EmptyString => false
  | String _ rest => includes rest needle
  end.

(** [xs.join(sep)] *)
Fixpoint join (sep : string) (xs : list string) : string :=
  match xs with
  | [] => EmptyString
  | [x] => x
  | x :: rest => x ++ sep ++ join sep rest
  end.

(** [s.toLowerCase()] on Latin-1 code units. *)
Definition to_lower_char (a : ascii) : ascii :=
  let n := nat_of_ascii a in
  if (Nat.leb 65 n && Nat.leb n 90) || (Nat.leb 192 n && Nat.leb n 222 && negb (Nat.eqb n 215))
  then ascii_of_nat (n + 32) else a.

Fixpoint toLowerCase (s : string) : string :=
  match s with
  | EmptyString => EmptyString
  | String a rest => String (to_lower_char a) (toLowerCase rest)
  end.

(** [n.toString()] for a natural number. *)
Fixpoint uint_to_string (d : Decimal.uint) : string :=
  match d with
  | Decimal.Nil => EmptyString
  | Decimal.D0 d => String "0" (uint_to_string d)
  | Decimal.D1 d => String "1" (uint_to_string d)
  | Decimal.D2 d => String "2" (uint_to_string d)
  | Decimal.D3 d => String "3" (uint_to_string d)
  | Decimal.D4 d => String "4" (uint_to_string d)
  | Decimal.D5 d => String "5" (uint_to_string d)
  | Decimal.D6 d => String "6" (uint_to_string d)
  | Decimal.D7 d => String "7" (uint_to_string d)
  | Decimal.D8 d => String "8" (uint_to_string d)
  | Decimal.D9 d => String "9" (uint_to_string d)
  end.

Definition nat_to_string (n : nat) : string := uint_to_string (Nat.to_uint n).

(** The double quote character, written without a quote in a literal. *)
Definition dq : string := String (ascii_of_nat 34%nat) EmptyString.

End JsString.

(* ------------------------------------------------------------------ *)
(** ** Errors *)

(** A thrown JavaScript [Error]: its [name] and [message]. *)
Record JsError := mkError { name : string; message : string }.

Definition Error (msg : string) : JsError := mkError "Error" msg.

(** [class InvalidCredentialsError] (src/unnamed/part_001, l. 90-95) *)
Definition InvalidCredentialsError : JsError :=
  mkError "InvalidCredentialsError" "Invalid email or password".

(** [class UserNotFoundError] *)
Definition UserNotFoundError (identifier : string) : JsError :=
  mkError "UserNotFoundError" ("User not found: " ++ identifier).

(** [class UserAlreadyExistsError] *)
Definition UserAlreadyExistsError (field value : string) : JsError :=
  mkError "UserAlreadyExistsError"
    ("User with " ++ field ++ " '" ++ value ++ "' already exists").

Inductive result (A : Type) : Type :=
| Ok (a : A)
| Err (e : JsError).
Arguments Ok {A} a.
Arguments Err {A} e.

(* ------------------------------------------------------------------ *)
(** ** Data model (src/unnamed/part_001) *)

Record Permission := mkPermission {
  perm_id : string; resource : string; action : string; perm_description : string }.

Record Role := mkRole {
  role_id : string; role_name : string; role_description : string;
  permissions : list Permission }.

Record User := mkUser {
  id : string;
  email : string;
  username : string;
  hashedPassword : string;
  roles : list Role;
  firstName : string;
  lastName : string;
  phone : option string;
  lastLoginAt : option Z;
  createdAt : Z;
  updatedAt : Z;
  isActive : bool }.

(** [UserResponse]: a [User] without [hashedPassword] and [updatedAt]. *)
Record UserResponse := mkUserResponse {
  r_id : string; r_email : string; r_username : string; r_roles : list Role;
  r_firstName : string; r_lastName : string; r_phone : option string;
  r_lastLoginAt : option Z; r_createdAt : Z; r_isActive : bool }.

Record UserRegistrationData := mkRegistration {
  reg_email : string; reg_username : string; reg_password : string;
  reg_firstName : string; reg_lastName : string; reg_phone : option string }.

Record UserLoginData := mkLogin { login_email : string; login_password : string }.

(** [AuthenticationResult]; [expiresAt] is the millisecond value of the
    returned [Date]. *)
Record AuthenticationResult := mkAuthResult {
  user : UserResponse; token : string; res_expiresAt : Z }.

(** [interface TokenPayload] *)
Record TokenPayload := mkPayload { userId : string; issuedAt : Z; expiresAt : Z }.

(* ------------------------------------------------------------------ *)
(** ** Primitives of [node:crypto], [Buffer] and [JSON] *)

Class Primitives := {
  (** [createHmac('sha256', secret).update(data).digest('base64url')] *)
  hmac_sha256_b64url : string -> string -> string;
  (** [createHash('sha256').update(data).digest('hex')] *)
  sha256_hex : string -> string;
  (** [Buffer.from(data).toString('base64url')] *)
  base64url_encode : string -> string;
  (** [Buffer.from(data, 'base64url').toString('utf-8')] (never throws) *)
  base64url_decode : string -> string;
  (** [JSON.stringify(payload)] on a [TokenPayload] *)
  json_stringify_payload : TokenPayload -> string;
  (** [JSON.parse(text)] read as a [TokenPayload]; [None] when it throws *)
  json_parse_payload : string -> option TokenPayload }.

(* ------------------------------------------------------------------ *)
(** ** The world: shared mutable state, clock and randomness *)

Record World := mkWorld {
  secret : string;                  (* JWTTokenService.secret (readonly) *)
  revokedTokens : list string;      (* JWTTokenService.revokedTokens *)
  users : list (string * User);     (* InMemoryUserRepository.users *)
  nextId : nat;                     (* InMemoryUserRepository.nextId *)
  clock : nat -> Z;                 (* successive Date.now() readings *)
  tick : nat;                       (* readings consumed so far *)
  random : nat -> string;           (* successive randomBytes(16).toString('hex') *)
  rtick : nat }.

Definition set_revoked (r : list string) (w : World) : World :=
  mkWorld (secret w) r (users w) (nextId w) (clock w) (tick w) (random w) (rtick w).
Definition set_users (u : list (string * User)) (w : World) : World :=
  mkWorld (secret w) (revokedTokens w) u (nextId w) (clock w) (tick w) (random w) (rtick w).
Definition set_nextId (n : nat) (w : World) : World :=
  mkWorld (secret w) (revokedTokens w) (users w) n (clock w) (tick w) (random w) (rtick w).
Definition set_tick (n : nat) (w : World) : World :=
  mkWorld (secret w) (revokedTokens w) (users w) (nextId w) (clock w) n (random w) (rtick w).
Definition set_rtick (n : nat) (w : World) : World :=
  mkWorld (secret w) (revokedTokens w) (users w) (nextId w) (clock w) (tick w) (random w) n.

(** An async computation: it either returns or throws, and the state
    changes made before a throw persist. *)
Definition M (A : Type) : Type := World -> result A * World.

Definition ret {A} (a : A) : M A := fun w => (Ok a, w).
Definition throw {A} (e : JsError) : M A := fun w => (Err e, w).
Definition bind {A B} (m : M A) (k : A -> M B) : M B :=
  fun w => match m w with
           | (Ok a, w') => k a w'
           | (Err e, w') => (Err e, w')
           end.
(** [try { m } catch (e) { h(e) }] *)
Definition catch {A} (m : M A) (h : JsError -> M A) : M A :=
  fun w => match m w with
           | (Err e, w') => h e w'
           | r => r
           end.
Definition gets {A} (f : World -> A) : M A := fun w => (Ok (f w), w).
Definition modify (f : World -> World) : M unit := fun w => (Ok tt, f w).

Notation "x <- m ;; k" := (bind m (fun x => k)) (at level 61, m at next level, right associativity).
Notation "m ;;; k" := (bind m (fun _ => k)) (at level 61, right associativity).

(** [Date.now()] and [new Date()] *)
Definition now_ms : M Z := fun w => (Ok (clock w (tick w)), set_tick (S (tick w)) w).

(** [randomBytes(16).toString('hex')] *)
Definition random_hex16 : M string :=
  fun w => (Ok (random w (rtick w)), set_rtick (S (rtick w)) w).

(* ------------------------------------------------------------------ *)
(** ** [JWTTokenService] (src/src/services/token-service.ts, l. 19-119) *)

Module TokenService.
Section WithPrimitives.
Context {P : Primitives}.

(** [expirationHours * 60 * 60 * 1000] with [expirationHours = 24] *)
Definition expirationHours : Z := 24.
Definition ttl_ms : Z := (expirationHours * 60 * 60 * 1000)%Z.

(** [JSON.stringify({ alg: 'HS256', typ: 'JWT' })] *)
Definition header_json : string :=
  "{" ++ JsString.dq ++ "alg" ++ JsString.dq ++ ":" ++ JsString.dq ++ "HS256"
  ++ JsString.dq ++ "," ++ JsString.dq ++ "typ" ++ JsString.dq ++ ":"
  ++ JsString.dq ++ "JWT" ++ JsString.dq ++ "}".

(** [createSignature(data)] *)
Definition createSignature (sec data : string) : string := hmac_sha256_b64url sec data.

(** [createToken(payload)] *)
Definition createToken (sec : string) (payload : TokenPayload) : string :=
  let encodedHeader := base64url_encode header_json in
  let encodedPayload := base64url_encode (json_stringify_payload payload) in
  let signature := createSignature sec (encodedHeader ++ "." ++ encodedPayload) in
  encodedHeader ++ "." ++ encodedPayload ++ "." ++ signature.

Definition revoked_error : JsError := Error "Token has been revoked".
Definition expired_error : JsError := Error "Token has expired".
Definition format_error : JsError := Error "Invalid token format".
Definition signature_error : JsError := Error "Invalid token signature".
Definition payload_error : JsError := Error "Invalid token payload".

(** [decodeToken(token)] (l. 78-98) *)
Definition decodeToken (sec token : string) : result TokenPayload :=
  match JsString.split "." token with
  | [encodedHeader; encodedPayload; signature] =>
      let expectedSignature := createSignature sec (encodedHeader ++ "." ++ encodedPayload) in
      if negb (String.eqb signature expectedSignature) then Err signature_error
      else match json_parse_payload (base64url_decode encodedPayload) with
           | Some payload => Ok payload
           | None => Err payload_error
           end
  | _ => Err format_error
  end.

Definition lift {A} (r : result A) : M A := fun w => (r, w).

(** [generateToken(userId)] (l. 28-39) *)
Definition generateToken (uid : string) : M string :=
  now <- now_ms ;;
  let expiresAt := (now + ttl_ms)%Z in
  sec <- gets secret ;;
  ret (createToken sec (mkPayload uid now expiresAt)).

(** [validateToken(token)] (l. 41-53) *)
Definition validateToken (tok : string) : M string :=
  revoked <- gets revokedTokens ;;
  if existsb (String.eqb tok) revoked then throw revoked_error
  else
    sec <- gets secret ;;
    payload <- lift (decodeToken sec tok) ;;
    now <- now_ms ;;
    if Z.gtb now (expiresAt payload) then throw expired_error
    else ret (userId payload).

(** [Set.prototype.add] *)
Definition set_add (x : string) (s : list string) : list string :=
  if existsb (String.eqb x) s then s else s ++ [x].

(** [revokeToken(token)] (l. 55-57) *)
Definition revokeToken (tok : string) : M unit :=
  modify (fun w => set_revoked (set_add tok (revokedTokens w)) w).

(** [getTokenExpiration()] (l. 59-62) *)
Definition getTokenExpiration : M Z :=
  now <- now_ms ;; ret (now + ttl_ms)%Z.

End WithPrimitives.
End TokenService.

(* ------------------------------------------------------------------ *)
(** ** [BcryptPasswordService] (src/unnamed/part_002) *)

Module PasswordService.
Section WithPrimitives.
Context {P : Primitives}.

(** A hexadecimal digit as [Buffer.from(s, 'hex')] reads it. *)
Definition hexval (a : ascii) : option nat :=
  let n := nat_of_ascii a in
  if Nat.leb 48 n && Nat.leb n 57 then Some (n - 48)
  else if Nat.leb 97 n && Nat.leb n 102 then Some (n - 87)
  else if Nat.leb 65 n && Nat.leb n 70 then Some (n - 55)
  else None.

(** [Buffer.from(s, 'hex')]: pairs of hex digits, stopping at the first
    pair that is not one; a trailing odd digit is dropped. *)
Fixpoint hex_decode (s : string) : list nat :=
  match s with
  | String a (String b rest) =>
      match hexval a, hexval b with
      | Some x, Some y => (16 * x + y) :: hex_decode rest
      | _, _ => []
      end
  | _ => []
  end.

(** [timingSafeEqual(a, b)]: throws ([None]) when the lengths differ,
    otherwise compares every byte. *)
Definition timingSafeEqual (a b : list nat) : option bool :=
  if Nat.eqb (length a) (length b)
  then Some (forallb (fun p => Nat.eqb (fst p) (snd p)) (combine a b))
  else None.

Definition validatePasswordInput (password : string) : M unit :=
  if String.eqb password "" then throw (Error "Password cannot be empty") else ret tt.

(** [hashPassword(password)] (l. 22-32) *)
Definition hashPassword (password : string) : M string :=
  validatePasswordInput password ;;;
  salt <- random_hex16 ;;
  let hash := sha256_hex (password ++ salt) in
  ret (salt ++ ":" ++ hash).

(** [verifyPassword(password, hashedPassword)] (l. 34-53); the [catch]
    turns the exception of [timingSafeEqual] into [false]. *)
Definition verifyPassword (password hashed : string) : bool :=
  match JsString.split ":" hashed with
  | salt :: hash :: _ =>
      if String.eqb salt "" || String.eqb hash "" then false
      else
        let newHash := sha256_hex (password ++ salt) in
        match timingSafeEqual (hex_decode hash) (hex_decode newHash) with
        | Some b => b
        | None => false
        end
  | _ => false
  end.

End WithPrimitives.

Record PasswordValidationResult := mkValidation { isValid : bool; errors : list string }.

Definition MIN_PASSWORD_LENGTH : nat := 8.
Definition MAX_PASSWORD_LENGTH : nat := 128.

Definition in_range (lo hi : nat) (a : ascii) : bool :=
  let n := nat_of_ascii a in Nat.leb lo n && Nat.leb n hi.

(** [/[A-Z]/], [/[a-z]/], [/\d/] *)
Definition is_upper (a : ascii) : bool := in_range 65 90 a.
Definition is_lower (a : ascii) : bool := in_range 97 122 a.
Definition is_digit (a : ascii) : bool := in_range 48 57 a.

(** The character class of l. 78 (ASCII punctuation without the backquote
    and the tilde), by character code. *)
Definition special_codes : list nat :=
  [33; 64; 35; 36; 37; 94; 38; 42; 40; 41; 95; 43; 45; 61; 91; 93; 123; 125;
   59; 39; 58; 34; 92; 124; 44; 46; 60; 62; 47; 63].
Definition is_special (a : ascii) : bool :=
  existsb (Nat.eqb (nat_of_ascii a)) special_codes.

Fixpoint string_any (f : ascii -> bool) (s : string) : bool :=
  match s with
  | EmptyString => false
  | String a rest => f a || string_any f rest
  end.

(** [.] of a regular expression: any code unit but a line terminator
    ([\n], [\r]; [\u2028] and [\u2029] are outside Latin-1). *)
Definition regex_dot (a : ascii) : bool :=
  negb (Nat.eqb (nat_of_ascii a) 10) && negb (Nat.eqb (nat_of_ascii a) 13).

(** [/(.)\1{2,}/.test(s)] *)
Fixpoint has_repeat (s : string) : bool :=
  match s with
  | EmptyString => false
  | String a t =>
      match t with
      | String b (String c _) =>
          (regex_dot a && Ascii.eqb a b && Ascii.eqb b c) || has_repeat t
      | _ => false
      end
  end.

Definition commonPasswords : list string := ["password"; "123456"; "qwerty"; "admin"; "letmein"].

(** [validatePasswordStrength(password)] (l. 55-96): each rule pushes its
    message independently. *)
Definition validatePasswordStrength (password : string) : PasswordValidationResult :=
  let len := String.length password in
  let errors := (
    (if Nat.ltb len MIN_PASSWORD_LENGTH
     then ["Password must be at least 8 characters long"] else [])
    ++ (if Nat.ltb MAX_PASSWORD_LENGTH len
        then ["Password must be no more than 128 characters long"] else [])
    ++ (if negb (string_any is_upper password)
        then ["Password must contain at least one uppercase letter"] else [])
    ++ (if negb (string_any is_lower password)
        then ["Password must contain at least one lowercase letter"] else [])
    ++ (if negb (string_any is_digit password)
        then ["Password must contain at least one number"] else [])
    ++ (if negb (string_any is_special password)
        then ["Password must contain at least one special character"] else [])
    ++ (if has_repeat password
        then ["Password cannot contain more than 2 consecutive identical characters"] else [])
    ++ (if existsb (JsString.includes (JsString.toLowerCase password)) commonPasswords
        then ["Password cannot contain common words or patterns"] else []))%list in
  mkValidation (Nat.eqb (List.length errors) 0) errors.

End PasswordService.

(* ------------------------------------------------------------------ *)
(** ** [InMemoryUserRepository] (src/src/repositories/user-repository.ts) *)

Module UserRepository.

(** [Map.prototype.get] on an insertion-ordered map. *)
Fixpoint map_get (k : string) (m : list (string * User)) : option User :=
  match m with
  | [] => None
  | (k', v) :: rest => if String.eqb k k' then Some v else map_get k rest
  end.

(** [Map.prototype.set]: an existing key keeps its position. *)
Fixpoint map_set (k : string) (v : User) (m : list (string * User)) : list (string * User) :=
  match m with
  | [] => [(k, v)]
  | (k', v') :: rest => if String.eqb k k' then (k', v) :: rest else (k', v') :: map_set k v rest
  end.

(** The first value in insertion order with [f] true. *)
Fixpoint find_value (f : User -> bool) (m : list (string * User)) : option User :=
  match m with
  | [] => None
  | (_, v) :: rest => if f v then Some v else find_value f rest
  end.

Definition findById (uid : string) : M (option User) := gets (fun w => map_get uid (users w)).

Definition findByEmail (e : string) : M (option User) :=
  gets (fun w => find_value (fun u => String.eqb (email u) e) (users w)).

Definition findByUsername (n : string) : M (option User) :=
  gets (fun w => find_value (fun u => String.eqb (username u) n) (users w)).

(** [create(userData)] (l. 77-99) *)
Definition create (d : UserRegistrationData) (hashed : string) : M User :=
  n <- gets nextId ;;
  modify (set_nextId (S n)) ;;;
  let uid := JsString.nat_to_string n in
  now <- now_ms ;;
  let u := mkUser uid (reg_email d) (reg_username d) hashed [] (reg_firstName d)
             (reg_lastName d) (reg_phone d) None now now true in
  modify (fun w => set_users (map_set uid u (users w)) w) ;;;
  ret u.

(** [updateLastLogin(userId)] (l. 135-151): the object literal reads the
    clock twice, first for [profile.lastLoginAt] (l. 145), then for
    [updatedAt] (l. 147). *)
Definition updateLastLogin (uid : string) : M unit :=
  o <- findById uid ;;
  match o with
  | None => throw (Error "User not found")
  | Some u =>
      lastLogin <- now_ms ;;
      now <- now_ms ;;
      let u' := mkUser (id u) (email u) (username u) (hashedPassword u) (roles u)
                  (firstName u) (lastName u) (phone u) (Some lastLogin) (createdAt u)
                  now (isActive u) in
      modify (fun w => set_users (map_set uid u' (users w)) w)
  end.

End UserRepository.

(* ------------------------------------------------------------------ *)
(** ** [DefaultAuthService] (src/src/services/token-service.ts, l. 145-281) *)

Module AuthService.
Section WithPrimitives.
Context {P : Primitives}.

Definition toUserResponse (u : User) : UserResponse :=
  mkUserResponse (id u) (email u) (username u) (roles u) (firstName u)
    (lastName u) (phone u) (lastLoginAt u) (createdAt u) (isActive u).

Definition deactivated_error : JsError := Error "User account is deactivated".

(** [register(userData)] (l. 152-186) *)
Definition register (d : UserRegistrationData) : M AuthenticationResult :=
  let v := PasswordService.validatePasswordStrength (reg_password d) in
  if negb (PasswordService.isValid v)
  then throw (Error ("Password validation failed: "
                     ++ JsString.join ", " (PasswordService.errors v)))
  else
    byEmail <- UserRepository.findByEmail (reg_email d) ;;
    match byEmail with
    | Some _ => throw (UserAlreadyExistsError "email" (reg_email d))
    | None =>
      byName <- UserRepository.findByUsername (reg_username d) ;;
      match byName with
      | Some _ => throw (UserAlreadyExistsError "username" (reg_username d))
      | None =>
        hashed <- PasswordService.hashPassword (reg_password d) ;;
        u <- UserRepository.create d hashed ;;
        tok <- TokenService.generateToken (id u) ;;
        exp <- TokenService.getTokenExpiration ;;
        ret (mkAuthResult (toUserResponse u) tok exp)
      end
    end.

(** [login(loginData)] (l. 188-220) *)
Definition login (d : UserLoginData) : M AuthenticationResult :=
  o <- UserRepository.findByEmail (login_email d) ;;
  match o with
  | None => throw InvalidCredentialsError
  | Some u =>
    if negb (PasswordService.verifyPassword (login_password d) (hashedPassword u))
    then throw InvalidCredentialsError
    else if negb (isActive u) then throw deactivated_error
    else
      UserRepository.updateLastLogin (id u) ;;;
      tok <- TokenService.generateToken (id u) ;;
      exp <- TokenService.getTokenExpiration ;;
      ret (mkAuthResult (toUserResponse u) tok exp)
  end.

(** [validateToken(token)] (l. 222-235) *)
Definition validateToken (tok : string) : M UserResponse :=
  uid <- TokenService.validateToken tok ;;
  o <- UserRepository.findById uid ;;
  match o with
  | None => throw (UserNotFoundError uid)
  | Some u => if negb (isActive u) then throw deactivated_error else ret (toUserResponse u)
  end.

(** [refreshToken(token)] (l. 237-256) *)
Definition refreshToken (tok : string) : M AuthenticationResult :=
  uid <- TokenService.validateToken tok ;;
  o <- UserRepository.findById uid ;;
  match o with
  | None => throw (UserNotFoundError uid)
  | Some u =>
    if negb (isActive u) then throw deactivated_error
    else
      newToken <- TokenService.generateToken (id u) ;;
      exp <- TokenService.getTokenExpiration ;;
      ret (mkAuthResult (toUserResponse u) newToken exp)
  end.

(** [logout(token)] (l. 258-260) *)
Definition logout (tok : string) : M unit := TokenService.revokeToken tok.

End WithPrimitives.
End AuthService.

(* ------------------------------------------------------------------ *)
(** ** [DefaultAuthMiddleware.authenticate] (src/unnamed/part_001, l. 139-176) *)

Module AuthMiddleware.
Section WithPrimitives.
Context {P : Primitives}.

(** What [authenticate] does with the response: an error status with its
    JSON [error] text, or [next()] with [req.user] set. *)
Inductive Outcome :=
| Status (code : Z) (error : string)
| Next (u : UserResponse).

(** [extractToken(req)]: the [Authorization] header split on spaces. *)
Definition extractToken (authHeader : option string) : option string :=
  match authHeader with
  | None => None
  | Some h =>
      match JsString.split " " h with
      | [scheme; t] => if String.eqb scheme "Bearer" then Some t else None
      | _ => None
      end
  end.

Definition authenticate (authHeader : option string) : M Outcome :=
  catch
    (match extractToken authHeader with
     | None => ret (Status 401 "Authentication token required")
     | Some t =>
       if String.eqb t "" then ret (Status 401 "Authentication token required")
       else
         uid <- TokenService.validateToken t ;;
         o <- UserRepository.findById uid ;;
         match o with
         | None => ret (Status 401 "Invalid authentication token")
         | Some u =>
           if negb (isActive u) then ret (Status 403 "User account is deactivated")
           else ret (Next (AuthService.toUserResponse u))
         end
     end)
    (fun e => ret (Status 401 (message e))).

End WithPrimitives.
End AuthMiddleware.

(* ------------------------------------------------------------------ *)
(** ** Any sequence of calls into the services *)

Inductive Op :=
| ORegister (d : UserRegistrationData)
| OLogin (d : UserLoginData)
| OValidate (t : string)
| ORefresh (t : string)
| OLogout (t : string)
| OAuthenticate (h : option string)
| OGenerate (uid : string)
| OValidateRaw (t : string)
| ORevoke (t : string)
| OExpiration.

Definition run_op {P : Primitives} (o : Op) (w : World) : World :=
  match o with
  | ORegister d => snd (AuthService.register d w)
  | OLogin d => snd (AuthService.login d w)
  | OValidate t => snd (AuthService.validateToken t w)
  | ORefresh t => snd (AuthService.refreshToken t w)
  | OLogout t => snd (AuthService.logout t w)
  | OAuthenticate h => snd (AuthMiddleware.authenticate h w)
  | OGenerate uid => snd (TokenService.generateToken uid w)
  | OValidateRaw t => snd (TokenService.validateToken t w)
  | ORevoke t => snd (TokenService.revokeToken t w)
  | OExpiration => snd (TokenService.getTokenExpiration w)
  end.

Fixpoint run_ops {P : Primitives} (os : list Op) (w : World) : World :=
  match os with
  | [] => w
  | o :: rest => run_ops rest (run_op o w)
  end.

(* ------------------------------------------------------------------ *)
(** ** What the proofs assume of the primitives *)

(** base64url output uses the alphabet [A-Za-z0-9-_] and decodes back;
    JSON round-trips a [TokenPayload] (a string and two safe integers). *)
Record TokenPrimitivesOK (P : Primitives) : Prop := {
  b64_roundtrip : forall s, base64url_decode (base64url_encode s) = s;
  b64_no_dot : forall s, JsString.free_of "." (base64url_encode s) = true;
  hmac_no_dot : forall k d, JsString.free_of "." (hmac_sha256_b64url k d) = true;
  json_roundtrip : forall p, json_parse_payload (json_stringify_payload p) = Some p }.

(** A lower-case hexadecimal string, as [digest('hex')] and
    [randomBytes(n).toString('hex')] produce. *)
Definition is_lhex_char (a : ascii) : bool :=
  PasswordService.in_range 48 57 a || PasswordService.in_range 97 102 a.

Fixpoint is_lhex (s : string) : bool :=
  match s with
  | EmptyString => true
  | String a rest => is_lhex_char a && is_lhex rest
  end.

(** [digest('hex')] of SHA-256: 64 lower-case hexadecimal digits. *)
Definition Sha256HexOK (P : Primitives) : Prop :=
  forall s, String.length (sha256_hex s) = 64 /\ is_lhex (sha256_hex s) = true.

(* ------------------------------------------------------------------ *)
(** ** A concrete instance of the primitives, to run the model *)

Module Toy.

(** Each code unit becomes two characters in [0-9:;<=>?] carrying its
    two nibbles. *)
Fixpoint nib_encode (s : string) : string :=
  match s with
  | EmptyString => EmptyString
  | String (Ascii b0 b1 b2 b3 b4 b5 b6 b7) rest =>
      String (Ascii b0 b1 b2 b3 true true false false)
        (String (Ascii b4 b5 b6 b7 true true false false) (nib_encode rest))
  end.

Fixpoint nib_decode (s : string) : string :=
  match s with
  | String (Ascii b0 b1 b2 b3 _ _ _ _) (String (Ascii b4 b5 b6 b7 _ _ _ _) rest) =>
      String (Ascii b0 b1 b2 b3 b4 b5 b6 b7) (nib_decode rest)
  | _ => EmptyString
  end.

(** Self-delimiting binary numerals, least significant bit first. *)
Fixpoint pos_enc (p : positive) : string :=
  match p with
  | xI q => String "1" (pos_enc q)
  | xO q => String "0" (pos_enc q)
  | xH => "#"
  end.

Fixpoint pos_dec (s : string) : option (positive * string) :=
  match s with
  | EmptyString => None
  | String c rest =>
      if Ascii.eqb c "1" then option_map (fun pr => (xI (fst pr), snd pr)) (pos_dec rest)
      else if Ascii.eqb c "0" then option_map (fun pr => (xO (fst pr), snd pr)) (pos_dec rest)
      else if Ascii.eqb c "#" then Some (xH, rest)
      else None
  end.

Definition z_enc (z : Z) : string :=
  match z with
  | Z0 => "z"
  | Zpos p => String "p" (pos_enc p)
  | Zneg p => String "n" (pos_enc p)
  end.

Definition z_dec (s : string) : option (Z * string) :=
  match s with
  | EmptyString => None
  | String c rest =>
      if Ascii.eqb c "z" then Some (Z0, rest)
      else if Ascii.eqb c "p" then option_map (fun pr => (Zpos (fst pr), snd pr)) (pos_dec rest)
      else if Ascii.eqb c "n" then option_map (fun pr => (Zneg (fst pr), snd pr)) (pos_dec rest)
      else None
  end.

Definition stringify (p : TokenPayload) : string :=
  z_enc (issuedAt p) ++ z_enc (expiresAt p) ++ userId p.

Definition parse (s : string) : option TokenPayload :=
  match z_dec s with
  | None => None
  | Some (i, r) =>
      match z_dec r with
      | None => None
      | Some (e, u) => Some (mkPayload u i e)
      end
  end.

Definition zeros64 : string := "0000000000000000000000000000000000000000000000000000000000000000".
Definition ones64 : string := "1111111111111111111111111111111111111111111111111111111111111111".

(** A digest that separates inputs starting with [a] from the others. *)
Definition sha (s : string) : string :=
  match s with
  | String c _ => if Ascii.eqb c "a" then zeros64 else ones64
  | EmptyString => ones64
  end.

#[export] Instance prims : Primitives := {
  hmac_sha256_b64url k d := nib_encode (k ++ d);
  sha256_hex := sha;
  base64url_encode := nib_encode;
  base64url_decode := nib_decode;
  json_stringify_payload := stringify;
  json_parse_payload := parse }.

(** A world whose clock reads [t0], [t0 + step], [t0 + 2 step], ... *)
Definition world (t0 step : Z) (us : list (string * User)) (rev : list string) : World :=
  mkWorld "k3y" rev us 1 (fun n => (t0 + step * Z.of_nat n)%Z) 0
    (fun _ => "00112233445566778899aabbccddeeff") 0.

(** [generateToken(uid)] on the toy instance: the token and the world after. *)
Definition issue (uid : string) (w : World) : string * World :=
  match @TokenService.generateToken prims uid w with
  | (Ok t, w1) => (t, w1)
  | (Err _, w1) => (EmptyString, w1)
  end.

End Toy.

(* ------------------------------------------------------------------ *)
(** ** Cost model of the two secret-dependent comparisons *)

Module Timing.
Section WithPrimitives.
Context {P : Primitives}.

(** Characters examined by JavaScript's [a !== b] on strings: lengths are
    compared first, then characters up to and including the first
    mismatch. *)
Fixpoint char_compare_steps (a b : string) : nat :=
  match a, b with
  | String x a', String y b' => if Ascii.eqb x y then S (char_compare_steps a' b') else 1
  | _, _ => 0
  end.

Definition strict_eq_steps (a b : string) : nat :=
  if Nat.eqb (String.length a) (String.length b) then char_compare_steps a b else 0.

(** Bytes examined by [timingSafeEqual(a, b)]: all of them, or none when
    the lengths differ and it throws. *)
Definition timingSafeEqual_steps (a b : list nat) : nat :=
  if Nat.eqb (length a) (length b) then length a else 0.

(** The comparison [signature !== expectedSignature] of [decodeToken]. *)
Definition decodeToken_compare_steps (sec tok : string) : nat :=
  match JsString.split "." tok with
  | [encodedHeader; encodedPayload; signature] =>
      strict_eq_steps signature
        (TokenService.createSignature sec (encodedHeader ++ "." ++ encodedPayload))
  | _ => 0
  end.

(** The comparison [timingSafeEqual(...)] of [verifyPassword]. *)
Definition verifyPassword_compare_steps (password hashed : string) : nat :=
  match JsString.split ":" hashed with
  | salt :: hash :: _ =>
      if String.eqb salt "" || String.eqb hash "" then 0
      else timingSafeEqual_steps (PasswordService.hex_decode hash)
             (PasswordService.hex_decode (sha256_hex (password ++ salt)))
  | _ => 0
  end.

End WithPrimitives.
End Timing.

(** A single-character change: the code unit at [i] replaced by [c]. *)
Fixpoint replace_at (s : string) (i : nat) (c : ascii) : string :=
  match s, i with
  | EmptyString, _ => EmptyString
  | String _ rest, O => String c rest
  | String a rest, S j => String a (replace_at rest j c)
  end.

(** Three identical consecutive code units somewhere in [s], as the spec
    states the rule. *)
Fixpoint run_of_three (s : string) : bool :=
  match s with
  | EmptyString => false
  | String a t =>
      match t with
      | String b (String c _) => (Ascii.eqb a b && Ascii.eqb b c) || run_of_three t
      | _ => false
      end
  end.

(* ------------------------------------------------------------------ *)
(** ** JavaScript values, as a JSON request body holds them *)

Module Js.

(** Numbers are integers here: JSON bodies hold no [NaN], and every check
    below only asks whether a number is [0]. *)
#[warnings="-register-all"]
Inductive JsVal :=
| JUndefined
| JNull
| JBool (b : bool)
| JNum (n : Z)
| JStr (s : string)
| JArr (xs : list JsVal)
| JObj (fields : list (string * JsVal)).

(** A plain object: its own properties in insertion order. *)
Definition Obj := list (string * JsVal).

(** [o[k]]: [undefined] for a missing property. *)
Fixpoint get (o : Obj) (k : string) : JsVal :=
  match o with
  | [] => JUndefined
  | (k', v) :: rest => if String.eqb k k' then v else get rest k
  end.

Fixpoint has_key (k : string) (o : Obj) : bool :=
  match o with
  | [] => false
  | (k', _) :: rest => String.eqb k k' || has_key k rest
  end.

(** [o[k] = v]: an existing property keeps its position. *)
Fixpoint obj_set (k : string) (v : JsVal) (o : Obj) : Obj :=
  match o with
  | [] => [(k, v)]
  | (k', v') :: rest => if String.eqb k k' then (k', v) :: rest else (k', v') :: obj_set k v rest
  end.

(** [{ ...a, ...b }]: the properties of [a], then those of [b] (an
    [undefined] value of [b] included) assigned over them. *)
Definition spread (a b : Obj) : Obj :=
  fold_left (fun acc kv => obj_set (fst kv) (snd kv) acc) b a.

Definition typeof (v : JsVal) : string :=
  match v with
  | JUndefined => "undefined"
  | JNull => "object"
  | JBool _ => "boolean"
  | JNum _ => "number"
  | JStr _ => "string"
  | JArr _ => "object"
  | JObj _ => "object"
  end.

(** [!!v] *)
Definition truthy (v : JsVal) : bool :=
  match v with
  | JUndefined | JNull => false
  | JBool b => b
  | JNum n => negb (Z.eqb n 0)
  | JStr s => negb (String.eqb s "")
  | JArr _ | JObj _ => true
  end.

End Js.

(* ------------------------------------------------------------------ *)
(** ** Regular expressions without back-references, by derivatives *)

Module Regex.

Inductive re :=
| RVoid
| REps
| RCls (f : ascii -> bool)
| RCat (r s : re)
| RAlt (r s : re)
| RStar (r : re).

Definition RPlus (r : re) : re := RCat r (RStar r).

Fixpoint nullable (r : re) : bool :=
  match r with
  | RVoid => false
  | REps => true
  | RCls _ => false
  | RCat r s => nullable r && nullable s
  | RAlt r s => nullable r || nullable s
  | RStar _ => true
  end.

Fixpoint deriv (a : ascii) (r : re) : re :=
  match r with
  | RVoid => RVoid
  | REps => RVoid
  | RCls f => if f a then REps else RVoid
  | RCat r s =>
      if nullable r then RAlt (RCat (deriv a r) s) (deriv a s) else RCat (deriv a r) s
  | RAlt r s => RAlt (deriv a r) (deriv a s)
  | RStar r => RCat (deriv a r) (RStar r)
  end.

(** [/^r$/.test(s)] *)
Fixpoint matches (r : re) (s : string) : bool :=
  match s with
  | EmptyString => nullable r
  | String a rest => matches (deriv a r) rest
  end.

(** [\s] on Latin-1 code units: tab, line feed, vertical tab, form feed,
    carriage return, space and no-break space. *)
Definition is_space (a : ascii) : bool :=
  existsb (Nat.eqb (nat_of_ascii a)) [9; 10; 11; 12; 13; 32; 160].

(** [[^\s@]] *)
Definition email_char (a : ascii) : bool := negb (is_space a) && negb (Ascii.eqb a "@"%char).

(** [/^[^\s@]+@[^\s@]+\.[^\s@]+$/] (user-controller l. 511; admin-controller
    l. 350 and 366) *)
Definition emailRegex : re :=
  RCat (RPlus (RCls email_char))
    (RCat (RCls (Ascii.eqb "@"%char))
       (RCat (RPlus (RCls email_char))
          (RCat (RCls (Ascii.eqb "."%char)) (RPlus (RCls email_char))))).

End Regex.

(* ------------------------------------------------------------------ *)
(** ** The rest of [InMemoryUserRepository]
       (src/src/repositories/user-repository.ts, l. 101-196) *)

Module UserRepositoryOps.
Import UserRepository.

(** [Map.prototype.delete]: the entry of [k] goes, the others keep their
    order. *)
Fixpoint map_delete (k : string) (m : list (string * User)) : list (string * User) :=
  match m with
  | [] => []
  | (k', v) :: rest => if String.eqb k k' then rest else (k', v) :: map_delete k rest
  end.

Definition user_not_found : JsError := Error "User not found".

(** The profile that [updateProfile(userId, profileData)] writes (l. 107-114):
    [{ ...user.profile, ...profileData }]. *)
Definition updated_profile (profile profileData : Js.Obj) : Js.Obj :=
  Js.spread profile profileData.

(** [updatePassword(userId, hashedPassword)] (l. 120-133):
    [{ ...user, hashedPassword, updatedAt: new Date() }]. *)
Definition updatePassword (uid hashed : string) : M unit :=
  o <- findById uid ;;
  match o with
  | None => throw user_not_found
  | Some u =>
      now <- now_ms ;;
      let u' := mkUser (id u) (email u) (username u) hashed (roles u) (firstName u)
                  (lastName u) (phone u) (lastLoginAt u) (createdAt u) now (isActive u) in
      modify (fun w => set_users (map_set uid u' (users w)) w)
  end.

(** [setActive(userId, isActive)] (l. 153-166):
    [{ ...user, isActive, updatedAt: new Date() }]. *)
Definition setActive (uid : string) (active : bool) : M unit :=
  o <- findById uid ;;
  match o with
  | None => throw user_not_found
  | Some u =>
      now <- now_ms ;;
      let u' := mkUser (id u) (email u) (username u) (hashedPassword u) (roles u)
                  (firstName u) (lastName u) (phone u) (lastLoginAt u) (createdAt u) now
                  active in
      modify (fun w => set_users (map_set uid u' (users w)) w)
  end.

(** [assignRole(userId, roleId)] (l. 168-176): the user is looked up, and
    nothing else happens. *)
Definition assignRole (uid roleId : string) : M unit :=
  o <- findById uid ;;
  match o with
  | None => throw user_not_found
  | Some _ => ret tt
  end.

(** [removeRole(userId, roleId)] (l. 178-185) *)
Definition removeRole (uid roleId : string) : M unit :=
  o <- findById uid ;;
  match o with
  | None => throw user_not_found
  | Some _ => ret tt
  end.

(** A relative index of [Array.prototype.slice] on an array of length [n]. *)
Definition rel_index (n i : Z) : Z :=
  if Z.ltb i 0 then Z.max (n + i) 0 else Z.min i n.

(** [arr.slice(start, end)]; [None] is an [undefined] end. *)
Definition js_slice {A} (l : list A) (start : Z) (end_ : option Z) : list A :=
  let n := Z.of_nat (length l) in
  let from := rel_index n start in
  let to_ := match end_ with None => n | Some e => rel_index n e end in
  firstn (Z.to_nat (to_ - from)) (skipn (Z.to_nat from) l).

(** [findAll(limit?, offset?)] (l. 187-192) for integer arguments; [None]
    is [undefined]. *)
Definition findAll (limit offset : option Z) : M (list User) :=
  gets (fun w =>
    let allUsers := map snd (users w) in
    (* offset || 0 *)
    let start := match offset with Some o => o | None => 0%Z end in
    (* limit ? start + limit : undefined *)
    let end_ := match limit with
                | Some l => if Z.eqb l 0 then None else Some (start + l)%Z
                | None => None
                end in
    js_slice allUsers start end_).

(** [delete(userId)] (l. 194-196) *)
Definition delete (uid : string) : M unit :=
  modify (fun w => set_users (map_delete uid (users w)) w).

End UserRepositoryOps.

(* ------------------------------------------------------------------ *)
(** ** The guards of [DefaultAuthMiddleware] (src/unnamed/part_001) *)

(** [class InsufficientPermissionsError] (l. 104-109) *)
Definition InsufficientPermissionsError (requiredPermission : string) : JsError :=
  mkError "InsufficientPermissionsError"
    ("Insufficient permissions: " ++ requiredPermission ++ " required").

Module AuthGuards.
Import AuthMiddleware.

(** The middleware of [requireRole(roleName)] (l. 178-197) on [req.user];
    the [InsufficientPermissionsError] it throws is caught and answered
    with 403 and its message. *)
Definition requireRole (roleName : string) (reqUser : option UserResponse) : Outcome :=
  match reqUser with
  | None => Status 401 "Authentication required"
  | Some u =>
      if existsb (fun role => String.eqb (role_name role) roleName) (r_roles u) then Next u
      else Status 403
             (message (InsufficientPermissionsError ("Role '" ++ roleName ++ "' required")))
  end.

(** [userHasPermission(user, resource, action)] (l. 234-240) *)
Definition userHasPermission (u : UserResponse) (res act : string) : bool :=
  existsb (fun role =>
             existsb (fun p => String.eqb (resource p) res && String.eqb (action p) act)
               (permissions role))
    (r_roles u).

(** The middleware of [requirePermission(resource, action)] (l. 199-218) *)
Definition requirePermission (res act : string) (reqUser : option UserResponse) : Outcome :=
  match reqUser with
  | None => Status 401 "Authentication required"
  | Some u =>
      if userHasPermission u res act then Next u
      else Status 403
             (message (InsufficientPermissionsError
                         ("Permission '" ++ res ++ ":" ++ act ++ "' required")))
  end.

Definition requireManager := requireRole "manager".
Definition requireUser := requireRole "user".
Definition requireUserRead := requirePermission "user" "read".
Definition requireUserWrite := requirePermission "user" "write".
Definition requireUserDelete := requirePermission "user" "delete".

Section WithPrimitives.
Context {P : Primitives}.


End WithPrimitives.
End AuthGuards.

(* ------------------------------------------------------------------ *)
(** ** HTTP replies of the controllers *)

Module Http.

(** [res.status(status).json({ success: false, error, details? })] or
    [res.status(status).json({ success: true, data })]; a reply whose JSON
    body has a [message] instead of [data] carries the message as data. *)
Inductive Reply (A : Type) :=
| Failure (status : Z) (error : string) (details : option (list string))
| Success (status : Z) (data : A).
Arguments Failure {A} status error details.
Arguments Success {A} status data.

End Http.

(* ------------------------------------------------------------------ *)
(** ** [UserController] (src/src/services/token-service.ts, l. 293-610) *)

Module UserController.
Import Js Http.

Definition rbind {A B} (r : result A) (k : A -> result B) : result B :=
  match r with
  | Ok a => k a
  | Err e => Err e
  end.

(** [handleError(error, res)] (l. 582-609); every value the model throws is
    an [Error], so the 500 branch is not reached. *)
Definition handleError {A} (e : JsError) : Reply A :=
  if String.eqb (name e) "UserAlreadyExistsError" then Failure 409 (message e) None
  else if String.eqb (name e) "InvalidCredentialsError" then Failure 401 (message e) None
  else if String.eqb (name e) "UserNotFoundError" then Failure 404 (message e) None
  else Failure 400 (message e) None.

(** The test [!v || typeof v !== 'string']: [None] when it holds. *)
Definition required_string (v : JsVal) : option string :=
  if negb (truthy v) || negb (String.eqb (typeof v) "string") then None
  else match v with
       | JStr s => Some s
       | _ => None
       end.

(** What [validateRegistrationData] returns: [phone] is passed on as it
    came. *)
Record RegistrationInput := mkRegistrationInput {
  in_email : string; in_username : string; in_password : string;
  in_firstName : string; in_lastName : string; in_phone : JsVal }.

(** [validateRegistrationData(body)] (l. 483-517) *)
Definition validateRegistrationData (body : Obj) : result RegistrationInput :=
  match required_string (get body "email") with
  | None => Err (Error "Valid email is required")
  | Some e =>
  match required_string (get body "username") with
  | None => Err (Error "Valid username is required")
  | Some un =>
  match required_string (get body "password") with
  | None => Err (Error "Valid password is required")
  | Some pw =>
  match required_string (get body "firstName") with
  | None => Err (Error "Valid first name is required")
  | Some fn =>
  match required_string (get body "lastName") with
  | None => Err (Error "Valid last name is required")
  | Some ln =>
    let ph := get body "phone" in
    if truthy ph && negb (String.eqb (typeof ph) "string") then Err (Error "Phone must be a string")
    else if negb (Regex.matches Regex.emailRegex e) then Err (Error "Invalid email format")
    else Ok (mkRegistrationInput e un pw fn ln ph)
  end end end end end.

(** [validateLoginData(body)] (l. 519-531) *)
Definition validateLoginData (body : Obj) : result UserLoginData :=
  match required_string (get body "email") with
  | None => Err (Error "Valid email is required")
  | Some e =>
  match required_string (get body "password") with
  | None => Err (Error "Valid password is required")
  | Some pw => Ok (mkLogin e pw)
  end end.

(** [if (v !== undefined) { if (typeof v !== 'string') throw ...; data.k = v; }] *)
Definition optional_string (body : Obj) (k msg : string) (acc : Obj) : result Obj :=
  match get body k with
  | JUndefined => Ok acc
  | v => if negb (String.eqb (typeof v) "string") then Err (Error msg) else Ok (obj_set k v acc)
  end.

(** [validateProfileUpdateData(body)] (l. 533-566) *)
Definition validateProfileUpdateData (body : Obj) : result Obj :=
  rbind (optional_string body "firstName" "First name must be a string" []) (fun d1 =>
  rbind (optional_string body "lastName" "Last name must be a string" d1) (fun d2 =>
  rbind (optional_string body "phone" "Phone must be a string" d2) (fun d3 =>
  optional_string body "avatar" "Avatar must be a string" d3))).

Record PasswordUpdateData := mkPasswordUpdate { currentPassword : string; newPassword : string }.

(** [validatePasswordUpdateData(body)] (l. 568-580) *)
Definition validatePasswordUpdateData (body : Obj) : result PasswordUpdateData :=
  match required_string (get body "currentPassword") with
  | None => Err (Error "Current password is required")
  | Some c =>
  match required_string (get body "newPassword") with
  | None => Err (Error "New password is required")
  | Some n => Ok (mkPasswordUpdate c n)
  end end.

Section WithPrimitives.
Context {P : Primitives}.

(** [login(req, res)] (l. 316-328) *)
Definition login (body : Obj) : M (Reply AuthenticationResult) :=
  catch
    (d <- TokenService.lift (validateLoginData body) ;;
     r <- AuthService.login d ;;
     ret (Success 200 r))
    (fun e => ret (handleError e)).

(** [refreshToken(req, res)] (l. 331-351) *)
Definition refreshToken (body : Obj) : M (Reply AuthenticationResult) :=
  catch
    (match required_string (get body "token") with
     | None => ret (Failure 400 "Token is required" None)
     | Some t => r <- AuthService.refreshToken t ;; ret (Success 200 r)
     end)
    (fun e => ret (handleError e)).

(** [logout(req, res)] (l. 354-374) *)
Definition logout (body : Obj) : M (Reply string) :=
  catch
    (match required_string (get body "token") with
     | None => ret (Failure 400 "Token is required" None)
     | Some t => AuthService.logout t ;;; ret (Success 200 "Logged out successfully")
     end)
    (fun e => ret (handleError e)).

(** [updatePassword(req, res)] (l. 428-481); [reqUser] is [req.user]. *)
Definition updatePassword (reqUser : option UserResponse) (body : Obj) : M (Reply string) :=
  catch
    (match reqUser with
     | None => ret (Failure 401 "Authentication required" None)
     | Some ru =>
       pd <- TokenService.lift (validatePasswordUpdateData body) ;;
       cur <- UserRepository.findById (r_id ru) ;;
       match cur with
       | None => throw (UserNotFoundError (r_id ru))
       | Some cu =>
         if negb (PasswordService.verifyPassword (currentPassword pd) (hashedPassword cu))
         then ret (Failure 400 "Current password is incorrect" None)
         else
           let v := PasswordService.validatePasswordStrength (newPassword pd) in
           if negb (PasswordService.isValid v)
           then ret (Failure 400 "Password validation failed" (Some (PasswordService.errors v)))
           else
             h <- PasswordService.hashPassword (newPassword pd) ;;
             UserRepositoryOps.updatePassword (r_id ru) h ;;;
             ret (Success 200 "Password updated successfully")
       end
     end)
    (fun e => ret (handleError e)).

End WithPrimitives.
End UserController.

(* ------------------------------------------------------------------ *)
(** ** [AdminController] (src/src/controllers/admin-controller.ts) *)

Module AdminController.
Import Js Http.

(** [handleError(error, res)] (l. 411-428) *)
Definition handleError {A} (e : JsError) : Reply A :=
  if String.eqb (name e) "UserNotFoundError" then Failure 404 (message e) None
  else Failure 400 (message e) None.

(** [if (v !== undefined) { if (typeof v !== t) throw ...; data.k = v; }] *)
Definition optional_typed (body : Obj) (k ty msg : string) (acc : Obj) : result Obj :=
  match get body k with
  | JUndefined => Ok acc
  | v => if negb (String.eqb (typeof v) ty) then Err (Error msg) else Ok (obj_set k v acc)
  end.

(** [validateUpdateUserRequest(body)] (l. 358-409) *)
Definition validateUpdateUserRequest (body : Obj) : result Obj :=
  let email_step :=
    match get body "email" with
    | JUndefined => Ok []
    | JStr s =>
        if negb (Regex.matches Regex.emailRegex s) then Err (Error "Invalid email format")
        else Ok (obj_set "email" (JStr s) [])
    | _ => Err (Error "Email must be a string")
    end in
  UserController.rbind email_step (fun d1 =>
  UserController.rbind (optional_typed body "username" "string" "Username must be a string" d1) (fun d2 =>
  UserController.rbind (optional_typed body "firstName" "string" "First name must be a string" d2) (fun d3 =>
  UserController.rbind (optional_typed body "lastName" "string" "Last name must be a string" d3) (fun d4 =>
  UserController.rbind (optional_typed body "phone" "string" "Phone must be a string" d4) (fun d5 =>
  optional_typed body "isActive" "boolean" "isActive must be a boolean" d5))))).

(** The [profileData] that [updateUser] (l. 186-193) hands to
    [updateProfile]: [None] when [updateProfile] is not called. *)
Definition updateUser_profileData (updateData : Obj) : option Obj :=
  if truthy (get updateData "firstName") || truthy (get updateData "lastName")
     || truthy (get updateData "phone")
  then Some [("firstName", get updateData "firstName");
             ("lastName", get updateData "lastName");
             ("phone", get updateData "phone")]
  else None.

Section WithPrimitives.
Context {P : Primitives}.

(** [for (const roleId of roleIds) await this.userRepository.assignRole(user.id, roleId)] *)
Fixpoint assignRoles (uid : string) (roleIds : list string) : M unit :=
  match roleIds with
  | [] => ret tt
  | r :: rest => UserRepositoryOps.assignRole uid r ;;; assignRoles uid rest
  end.

(** [createUser(req, res)] (l. 104-173) from l. 108 on, for a request that
    [validateCreateUserRequest] accepted with a string or absent [phone]
    and its [roleIds] (the empty list when absent). *)
Definition createUser_checked (d : UserRegistrationData) (roleIds : list string)
    : M (Reply UserResponse) :=
  catch
    (byEmail <- UserRepository.findByEmail (reg_email d) ;;
     match byEmail with
     | Some _ => ret (Failure 409 "User with this email already exists" None)
     | None =>
       byName <- UserRepository.findByUsername (reg_username d) ;;
       match byName with
       | Some _ => ret (Failure 409 "User with this username already exists" None)
       | None =>
         let v := PasswordService.validatePasswordStrength (reg_password d) in
         if negb (PasswordService.isValid v)
         then ret (Failure 400 "Password validation failed" (Some (PasswordService.errors v)))
         else
           hashed <- PasswordService.hashPassword (reg_password d) ;;
           u <- UserRepository.create d hashed ;;
           assignRoles (id u) roleIds ;;;
           ret (Success 201 (AuthService.toUserResponse u))
       end
     end)
    (fun e => ret (handleError e)).

(** [deleteUser(req, res)] (l. 224-243) *)
Definition deleteUser (uid : string) : M (Reply string) :=
  catch
    (o <- UserRepository.findById uid ;;
     match o with
     | None => throw (UserNotFoundError uid)
     | Some _ =>
       UserRepositoryOps.delete uid ;;;
       ret (Success 200 "User deleted successfully")
     end)
    (fun e => ret (handleError e)).

End WithPrimitives.
End AdminController.

(* ------------------------------------------------------------------ *)
(** ** Any sequence of calls, the repository and the controllers included *)

Inductive ExtOp :=
| EBase (o : Op)
| EUpdatePassword (uid hashed : string)
| ESetActive (uid : string) (active : bool)
| EAssignRole (uid roleId : string)
| ERemoveRole (uid roleId : string)
| EDelete (uid : string)
| EChangePassword (reqUser : option UserResponse) (body : Js.Obj)
| EAdminCreate (d : UserRegistrationData) (roleIds : list string)
| EAdminDelete (uid : string).

Definition run_ext {P : Primitives} (o : ExtOp) (w : World) : World :=
  match o with
  | EBase o => run_op o w
  | EUpdatePassword uid h => snd (UserRepositoryOps.updatePassword uid h w)
  | ESetActive uid b => snd (UserRepositoryOps.setActive uid b w)
  | EAssignRole uid r => snd (UserRepositoryOps.assignRole uid r w)
  | ERemoveRole uid r => snd (UserRepositoryOps.removeRole uid r w)
  | EDelete uid => snd (UserRepositoryOps.delete uid w)
  | EChangePassword ru body => snd (UserController.updatePassword ru body w)
  | EAdminCreate d rs => snd (AdminController.createUser_checked d rs w)
  | EAdminDelete uid => snd (AdminController.deleteUser uid w)
  end.

Fixpoint run_exts {P : Primitives} (os : list ExtOp) (w : World) : World :=
  match os with
  | [] => w
  | o :: rest => run_exts rest (run_ext o w)
  end.

(** Invariants of the user store. *)
Module Store.
Import UserRepository UserRepositoryOps.

(** Keys are distinct, each key is its user's [id], and each is the
    decimal form of a number below [nextId]. *)
Definition store_wf (w : World) : Prop :=
  NoDup (map fst (users w)) /\
  forall k u, In (k, u) (users w) ->
    id u = k /\ exists n, n < nextId w /\ k = JsString.nat_to_string n.

(** No two stored users share an email, nor a username. *)
Definition unique_accounts (w : World) : Prop :=
  NoDup (map (fun kv => email (snd kv)) (users w)) /\
  NoDup (map (fun kv => username (snd kv)) (users w)).

(** No stored user holds a role. *)
Definition no_roles (w : World) : Prop :=
  forall k u, In (k, u) (users w) -> roles u = [].

Definition store_ok (w : World) : Prop := store_wf w /\ unique_accounts w /\ no_roles w.

End Store.

(** A stored user for running the model on the toy instance: its record
    holds the toy digest of every password starting with [a]. *)
Module ToyUsers.

Definition alice : User :=
  mkUser "0" "a@b.c" "al" ("00112233445566778899aabbccddeeff:" ++ Toy.zeros64) [] "A" "L"
    None None 1000%Z 1000%Z true.

Definition alice_world : World := Toy.world 1000 5 [("0", alice)] [].

Definition empty_world : World := Toy.world 1000 5 [] [].

End ToyUsers.

(* ================================================================== *)
(** * Lemmas *)

Module StringFacts.

Lemma eqb_refl_ascii (a : ascii) : Ascii.eqb a a = true.
Proof. apply Ascii.eqb_refl. Qed.

Lemma split_never_nil (c : ascii) (s : string) : JsString.split c s <> [].
Proof.
  induction s as [|a s IH]; simpl; [discriminate|].
  destruct (Ascii.eqb a c); [discriminate|].
  destruct (JsString.split c s); discriminate.
Qed.

Lemma split_free (c : ascii) (s : string) :
  JsString.free_of c s = true -> JsString.split c s = [s].
Proof.
  induction s as [|a s IH]; simpl; [reflexivity|].
  intros H. apply andb_prop in H as [Ha Hs].
  destruct (Ascii.eqb a c); [discriminate|].
  rewrite (IH Hs). reflexivity.
Qed.

Lemma split_app (c : ascii) (s t : string) :
  JsString.free_of c s = true ->
  JsString.split c (s ++ String c t) = s :: JsString.split c t.
Proof.
  induction s as [|a s IH]; simpl; intros H.
  - rewrite eqb_refl_ascii. reflexivity.
  - apply andb_prop in H as [Ha Hs].
    destruct (Ascii.eqb a c); [discriminate|].
    rewrite (IH Hs). reflexivity.
Qed.

Fixpoint count_char (c : ascii) (s : string) : nat :=
  match s with
  | EmptyString => 0
  | String a rest => (if Ascii.eqb a c then 1 else 0) + count_char c rest
  end.

Lemma split_length (c : ascii) (s : string) :
  length (JsString.split c s) = S (count_char c s).
Proof.
  induction s as [|a s IH]; simpl; [reflexivity|].
  destruct (Ascii.eqb a c); simpl; [now rewrite IH|].
  destruct (JsString.split c s) eqn:E; simpl in *; [discriminate|].
  exact IH.
Qed.

Lemma count_app (c : ascii) (s t : string) :
  count_char c (s ++ t) = count_char c s + count_char c t.
Proof. induction s as [|a s IH]; simpl; [reflexivity|]. rewrite IH. lia. Qed.

Lemma count_free (c : ascii) (s : string) :
  JsString.free_of c s = true <-> count_char c s = 0.
Proof.
  induction s as [|a s IH]; simpl; [tauto|].
  destruct (Ascii.eqb a c); simpl; [split; discriminate|]. exact IH.
Qed.

Lemma existsb_eqb_In (x : string) (l : list string) :
  existsb (String.eqb x) l = true <-> In x l.
Proof.
  rewrite existsb_exists. split.
  - intros [y [Hy E]]. apply String.eqb_eq in E. subst. exact Hy.
  - intros H. exists x. split; [exact H|apply String.eqb_refl].
Qed.

Lemma get_replace_at (s : string) (i : nat) (c : ascii) :
  i < String.length s -> String.get i (replace_at s i c) = Some c.
Proof.
  revert i. induction s as [|a s IH]; intros [|i] H; simpl in *; try lia.
  - reflexivity.
  - apply IH. lia.
Qed.

Lemma replace_at_changes (s : string) (i : nat) (c : ascii) :
  i < String.length s -> String.get i s <> Some c -> replace_at s i c <> s.
Proof.
  intros Hi Hc E. apply Hc. rewrite <- E at 1. now apply get_replace_at.
Qed.

End StringFacts.

Module ToyFacts.
Import Toy.

Lemma nib_roundtrip (s : string) : nib_decode (nib_encode s) = s.
Proof. induction s as [|[b0 b1 b2 b3 b4 b5 b6 b7] s IH]; simpl; congruence. Qed.

Lemma nib_no_dot (s : string) : JsString.free_of "." (nib_encode s) = true.
Proof.
  induction s as [|[b0 b1 b2 b3 b4 b5 b6 b7] s IH]; [reflexivity|].
  simpl. rewrite IH.
  destruct b0, b1, b2, b3, b4, b5, b6, b7; reflexivity.
Qed.

Lemma pos_roundtrip (p : positive) (r : string) : pos_dec (pos_enc p ++ r) = Some (p, r).
Proof. induction p as [q IH|q IH|]; simpl; try rewrite IH; reflexivity. Qed.

Lemma z_roundtrip (z : Z) (r : string) : z_dec (z_enc z ++ r) = Some (z, r).
Proof. destruct z as [|p|p]; simpl; try rewrite pos_roundtrip; reflexivity. Qed.

Lemma json_ok (p : TokenPayload) : parse (stringify p) = Some p.
Proof.
  destruct p as [u i e]. unfold parse, stringify; simpl.
  rewrite z_roundtrip, z_roundtrip. reflexivity.
Qed.

Lemma prims_ok : TokenPrimitivesOK prims.
Proof.
  constructor; simpl.
  - exact nib_roundtrip.
  - exact nib_no_dot.
  - intros k d. apply nib_no_dot.
  - exact json_ok.
Qed.

Lemma sha_ok : Sha256HexOK prims.
Proof.
  intros s. simpl. unfold sha.
  destruct s as [|c s]; [split; reflexivity|].
  destruct (Ascii.eqb c "a"); split; reflexivity.
Qed.

End ToyFacts.

(** Revocation is monotone: no computation removes a token from
    [revokedTokens]. *)
Module Revocation.

Definition keeps (T : string) {A} (m : M A) : Prop :=
  forall w, In T (revokedTokens w) -> In T (revokedTokens (snd (m w))).

Section Keeps.
Variable T : string.

Lemma keeps_ret {A} (a : A) : keeps T (ret a).
Proof. intros w H. exact H. Qed.

Lemma keeps_throw {A} (e : JsError) : keeps T (@throw A e).
Proof. intros w H. exact H. Qed.

Lemma keeps_gets {A} (f : World -> A) : keeps T (gets f).
Proof. intros w H. exact H. Qed.

Lemma keeps_now : keeps T now_ms.
Proof. intros w H. exact H. Qed.

Lemma keeps_random : keeps T random_hex16.
Proof. intros w H. exact H. Qed.

Lemma keeps_lift {A} (r : result A) : keeps T (TokenService.lift r).
Proof. intros w H. exact H. Qed.

Lemma keeps_bind {A B} (m : M A) (k : A -> M B) :
  keeps T m -> (forall a, keeps T (k a)) -> keeps T (bind m k).
Proof.
  intros Hm Hk w H. unfold bind.
  specialize (Hm w H). destruct (m w) as [[a|e] w']; simpl in *; [apply Hk|]; exact Hm.
Qed.

Lemma keeps_catch {A} (m : M A) (h : JsError -> M A) :
  keeps T m -> (forall e, keeps T (h e)) -> keeps T (catch m h).
Proof.
  intros Hm Hh w H. unfold catch.
  specialize (Hm w H). destruct (m w) as [[a|e] w']; simpl in *; [|apply Hh]; exact Hm.
Qed.

Lemma keeps_set_users (f : World -> list (string * User)) :
  keeps T (modify (fun w => set_users (f w) w)).
Proof. intros w H. exact H. Qed.

Lemma keeps_set_nextId (n : nat) : keeps T (modify (set_nextId n)).
Proof. intros w H. exact H. Qed.

Lemma keeps_revoke (t : string) : keeps T (TokenService.revokeToken t).
Proof.
  intros w H. simpl. unfold TokenService.set_add.
  destruct (existsb _ _); [exact H|]. apply in_or_app. now left.
Qed.

End Keeps.

Create HintDb keeps.
#[export] Hint Resolve keeps_ret keeps_throw keeps_gets keeps_now keeps_random
  keeps_lift keeps_set_users keeps_set_nextId keeps_revoke : keeps.

Ltac keeps_tac :=
  repeat (cbv zeta;
    match goal with
    | |- keeps _ (bind _ _) => apply keeps_bind; [|intro]
    | |- keeps _ (catch _ _) => apply keeps_catch; [|intro]
    | |- keeps _ (match ?x with _ => _ end) => destruct x
    | |- keeps _ (if ?b then _ else _) => destruct b
    | |- _ => solve [eauto with keeps]
    end).

Section WithPrimitives.
Context {P : Primitives}.
Variable T : string.

Lemma keeps_generate u : keeps T (TokenService.generateToken u).
Proof. unfold TokenService.generateToken. keeps_tac. Qed.

Lemma keeps_validate t : keeps T (TokenService.validateToken t).
Proof. unfold TokenService.validateToken. keeps_tac. Qed.

Lemma keeps_expiration : keeps T TokenService.getTokenExpiration.
Proof. unfold TokenService.getTokenExpiration. keeps_tac. Qed.

Lemma keeps_hash pw : keeps T (PasswordService.hashPassword pw).
Proof.
  unfold PasswordService.hashPassword, PasswordService.validatePasswordInput. keeps_tac.
Qed.

Lemma keeps_create d h : keeps T (UserRepository.create d h).
Proof. unfold UserRepository.create. keeps_tac. Qed.

Lemma keeps_updateLastLogin u : keeps T (UserRepository.updateLastLogin u).
Proof. unfold UserRepository.updateLastLogin, UserRepository.findById. keeps_tac. Qed.

#[local] Hint Resolve keeps_generate keeps_validate keeps_expiration keeps_hash
  keeps_create keeps_updateLastLogin : keeps.

Lemma keeps_register d : keeps T (AuthService.register d).
Proof.
  unfold AuthService.register, UserRepository.findByEmail, UserRepository.findByUsername.
  keeps_tac.
Qed.

Lemma keeps_login d : keeps T (AuthService.login d).
Proof. unfold AuthService.login, UserRepository.findByEmail. keeps_tac. Qed.

Lemma keeps_auth_validate t : keeps T (AuthService.validateToken t).
Proof. unfold AuthService.validateToken, UserRepository.findById. keeps_tac. Qed.

Lemma keeps_refresh t : keeps T (AuthService.refreshToken t).
Proof. unfold AuthService.refreshToken, UserRepository.findById. keeps_tac. Qed.

Lemma keeps_authenticate h : keeps T (AuthMiddleware.authenticate h).
Proof. unfold AuthMiddleware.authenticate, UserRepository.findById. keeps_tac. Qed.

Lemma keeps_run_op (o : Op) (w : World) :
  In T (revokedTokens w) -> In T (revokedTokens (run_op o w)).
Proof.
  destruct o as [d|d|t|t|t|h|u|t|t|]; simpl.
  - exact (keeps_register d w).
  - exact (keeps_login d w).
  - exact (keeps_auth_validate t w).
  - exact (keeps_refresh t w).
  - exact (keeps_revoke T t w).
  - exact (keeps_authenticate h w).
  - exact (keeps_generate u w).
  - exact (keeps_validate t w).
  - exact (keeps_revoke T t w).
  - exact (keeps_expiration w).
Qed.

Lemma keeps_run_ops (os : list Op) (w : World) :
  In T (revokedTokens w) -> In T (revokedTokens (run_ops os w)).
Proof.
  revert w. induction os as [|o os IH]; simpl; intros w H; [exact H|].
  apply IH, keeps_run_op, H.
Qed.

End WithPrimitives.
End Revocation.

Module TokenFacts.
Import StringFacts.
Section WithPrimitives.
Context {P : Primitives}.

Lemma validate_fst (tok : string) (w : World) :
  fst (TokenService.validateToken tok w) =
  if existsb (String.eqb tok) (revokedTokens w) then Err TokenService.revoked_error
  else match TokenService.decodeToken (secret w) tok with
       | Ok p => if Z.gtb (clock w (tick w)) (expiresAt p)
                 then Err TokenService.expired_error else Ok (userId p)
       | Err e => Err e
       end.
Proof.
  unfold TokenService.validateToken, bind, gets, throw, ret, TokenService.lift, now_ms; simpl.
  destruct (existsb _ _); [reflexivity|].
  destruct (TokenService.decodeToken _ _); simpl; [|reflexivity].
  destruct (Z.gtb _ _); reflexivity.
Qed.

Lemma validate_ok (tok u : string) (w w' : World) :
  TokenService.validateToken tok w = (Ok u, w') ->
  ~ In tok (revokedTokens w) /\
  exists p, TokenService.decodeToken (secret w) tok = Ok p /\
            Z.gtb (clock w (tick w)) (expiresAt p) = false /\
            u = userId p /\ w' = set_tick (S (tick w)) w.
Proof.
  unfold TokenService.validateToken, bind, gets, throw, ret, TokenService.lift, now_ms; simpl.
  destruct (existsb (String.eqb tok) (revokedTokens w)) eqn:R; [discriminate|].
  intros H. split.
  - intros Hin. apply existsb_eqb_In in Hin. congruence.
  - destruct (TokenService.decodeToken _ _) as [p|e]; [|discriminate].
    destruct (Z.gtb _ _) eqn:G; [discriminate|].
    injection H as <- <-. exists p. auto.
Qed.

Lemma validate_revoked (tok : string) (w : World) :
  In tok (revokedTokens w) ->
  TokenService.validateToken tok w = (Err TokenService.revoked_error, w).
Proof.
  intros H. apply existsb_eqb_In in H.
  unfold TokenService.validateToken, bind, gets; simpl. rewrite H. reflexivity.
Qed.

Lemma revoke_adds (tok : string) (w : World) :
  In tok (revokedTokens (snd (TokenService.revokeToken tok w))).
Proof.
  unfold TokenService.revokeToken, modify, set_revoked. cbn [snd revokedTokens].
  unfold TokenService.set_add.
  destruct (existsb (String.eqb tok) (revokedTokens w)) eqn:E.
  - now apply existsb_eqb_In.
  - apply in_or_app. right. now left.
Qed.

Lemma generate_eq (u : string) (w : World) :
  TokenService.generateToken u w =
  (Ok (TokenService.createToken (secret w)
         (mkPayload u (clock w (tick w)) (clock w (tick w) + TokenService.ttl_ms)%Z)),
   set_tick (S (tick w)) w).
Proof. reflexivity. Qed.

Lemma expiration_eq (w : World) :
  TokenService.getTokenExpiration w =
  (Ok (clock w (tick w) + TokenService.ttl_ms)%Z, set_tick (S (tick w)) w).
Proof. reflexivity. Qed.

Lemma split_three (h p s : string) :
  JsString.free_of "." h = true -> JsString.free_of "." p = true ->
  JsString.free_of "." s = true ->
  JsString.split "." (h ++ "." ++ p ++ "." ++ s) = [h; p; s].
Proof.
  intros Hh Hp Hs. simpl.
  rewrite split_app by exact Hh. rewrite split_app by exact Hp.
  rewrite split_free by exact Hs. reflexivity.
Qed.

Lemma split_not_three (h p s : string) :
  JsString.free_of "." h = false \/ JsString.free_of "." p = false \/
  JsString.free_of "." s = false ->
  length (JsString.split "." (h ++ "." ++ p ++ "." ++ s)) <> 3.
Proof.
  intros H. rewrite split_length. simpl. rewrite !count_app. simpl. rewrite !count_app. simpl.
  assert (Hc : forall x, JsString.free_of "." x = false -> count_char "." x <> 0).
  { intros x Hx E. apply count_free in E. congruence. }
  destruct H as [H|[H|H]]; apply Hc in H; lia.
Qed.

Section Assumed.
Hypothesis HP : TokenPrimitivesOK P.

Lemma decode_created (sec : string) (p : TokenPayload) :
  TokenService.decodeToken sec (TokenService.createToken sec p) = Ok p.
Proof.
  unfold TokenService.decodeToken, TokenService.createToken.
  rewrite split_three by (apply (b64_no_dot P HP) || apply (hmac_no_dot P HP)).
  rewrite String.eqb_refl. simpl.
  rewrite (b64_roundtrip P HP), (json_roundtrip P HP). reflexivity.
Qed.

End Assumed.
End WithPrimitives.
End TokenFacts.

(* ================================================================== *)
(** * The claims *)

(** C1: once [revokeToken T] has run, no later sequence of service calls
    removes [T] from the revocation set, and every later validation of [T],
    at any clock reading and whether or not its signature and payload are
    valid, fails with the revocation error. *)
Theorem revoked_token_never_valid {P : Primitives} (T : string) (w : World) (os : list Op) :
  let w2 := run_ops os (snd (TokenService.revokeToken T w)) in
  In T (revokedTokens w2) /\
  fst (TokenService.validateToken T w2) = Err TokenService.revoked_error /\
  fst (AuthService.validateToken T w2) = Err TokenService.revoked_error /\
  fst (AuthService.refreshToken T w2) = Err TokenService.revoked_error.
Proof.
  cbv zeta.
  assert (H : In T (revokedTokens (run_ops os (snd (TokenService.revokeToken T w))))).
  { apply Revocation.keeps_run_ops, TokenFacts.revoke_adds. }
  split; [exact H|].
  pose proof (TokenFacts.validate_revoked _ _ H) as V.
  split; [rewrite V; reflexivity|].
  split; unfold AuthService.validateToken, AuthService.refreshToken, bind;
    rewrite V; reflexivity.
Qed.

(** C2 (as the code does it): a token issued by [generateToken uid] at
    clock reading [T0] embeds [expiresAt = T0 + 24h]; while it is not
    revoked, validating it at a clock reading [t <= T0 + 24h] (the bound
    included) returns [uid], and at [t > T0 + 24h] fails with the expiry
    error. *)
Theorem issued_token_valid_through_expiry {P : Primitives} (HP : TokenPrimitivesOK P)
    (uid : string) (w w1 : World) (T : string) :
  TokenService.generateToken uid w = (Ok T, w1) ->
  let T0 := clock w (tick w) in
  TokenService.decodeToken (secret w) T
    = Ok (mkPayload uid T0 (T0 + TokenService.ttl_ms)%Z) /\
  forall w2, secret w2 = secret w -> ~ In T (revokedTokens w2) ->
    ((clock w2 (tick w2) <= T0 + TokenService.ttl_ms)%Z ->
       fst (TokenService.validateToken T w2) = Ok uid) /\
    ((T0 + TokenService.ttl_ms < clock w2 (tick w2))%Z ->
       fst (TokenService.validateToken T w2) = Err TokenService.expired_error).
Proof.
  rewrite TokenFacts.generate_eq. intros E. injection E as <- _. cbv zeta.
  pose proof (TokenFacts.decode_created HP (secret w)
    (mkPayload uid (clock w (tick w)) (clock w (tick w) + TokenService.ttl_ms)%Z)) as D.
  split; [exact D|].
  intros w2 Hs Hr. rewrite TokenFacts.validate_fst, Hs, D.
  match goal with |- context [existsb ?f ?l] => destruct (existsb f l) eqn:R end.
  { exfalso. apply Hr. now apply StringFacts.existsb_eqb_In. }
  simpl. split; intros Ht.
  - replace (Z.gtb _ _) with false by (symmetry; rewrite Z.gtb_ltb; apply Z.ltb_ge; lia).
    reflexivity.
  - replace (Z.gtb _ _) with true by (symmetry; rewrite Z.gtb_ltb; apply Z.ltb_lt; lia).
    reflexivity.
Qed.

Lemma issued_token_valid_through_expiry_witness :
  let w := Toy.world 1000 5 [] [] in
  let T := fst (Toy.issue "1" w) in
  TokenService.decodeToken (P := Toy.prims) (secret w) T
    = Ok (mkPayload "1" 1000 (1000 + TokenService.ttl_ms)%Z).
Proof.
  cbv zeta.
  exact (proj1 (issued_token_valid_through_expiry ToyFacts.prims_ok "1"
                  (Toy.world 1000 5 [] []) (snd (Toy.issue "1" (Toy.world 1000 5 [] [])))
                  (fst (Toy.issue "1" (Toy.world 1000 5 [] []))) eq_refl)).
Defined.

(** C2 as stated fails at the boundary: validating at the clock reading
    [T0 + 24h] itself still succeeds instead of failing with the expiry
    error. *)
Lemma issued_token_boundary_counterexample :
  let w := Toy.world 1000 TokenService.ttl_ms [] [] in
  let T := fst (Toy.issue "1" w) in
  let w1 := snd (Toy.issue "1" w) in
  clock w1 (tick w1) = (clock w (tick w) + TokenService.ttl_ms)%Z /\
  fst (TokenService.validateToken (P := Toy.prims) T w1) = Ok "1" /\
  fst (TokenService.validateToken (P := Toy.prims) T w1) <> Err TokenService.expired_error.
Proof.
  vm_compute. split; [reflexivity|]. split; [reflexivity|]. discriminate.
Qed.

Module DecodeFacts.
Import StringFacts.
Section WithPrimitives.
Context {P : Primitives}.

Lemma decode_format (sec tok : string) :
  length (JsString.split "." tok) <> 3 ->
  TokenService.decodeToken sec tok = Err TokenService.format_error.
Proof.
  unfold TokenService.decodeToken.
  destruct (JsString.split "." tok) as [|a [|b [|c [|d l]]]]; simpl; intros H;
    try reflexivity; contradiction.
Qed.

Lemma decode_three (sec tok h p s : string) :
  JsString.split "." tok = [h; p; s] ->
  TokenService.decodeToken sec tok =
  if negb (String.eqb s (TokenService.createSignature sec (h ++ "." ++ p)))
  then Err TokenService.signature_error
  else match json_parse_payload (base64url_decode p) with
       | Some payload => Ok payload
       | None => Err TokenService.payload_error
       end.
Proof. intros E. unfold TokenService.decodeToken. rewrite E. reflexivity. Qed.

Lemma validate_fresh (tok : string) (w : World) :
  ~ In tok (revokedTokens w) ->
  fst (TokenService.validateToken tok w) =
  match TokenService.decodeToken (secret w) tok with
  | Ok p => if Z.gtb (clock w (tick w)) (expiresAt p)
            then Err TokenService.expired_error else Ok (userId p)
  | Err e => Err e
  end.
Proof.
  intros H. rewrite TokenFacts.validate_fst.
  destruct (existsb (String.eqb tok) (revokedTokens w)) eqn:E; [|reflexivity].
  exfalso. apply H. now apply existsb_eqb_In.
Qed.

(** A token whose three segments are [h], [p] and [s], [h] and [p]
    without a dot, and [s] not the signature of [h.p], never validates. *)
Lemma validate_wrong_signature (w : World) (h p s : string) :
  JsString.free_of "." h = true -> JsString.free_of "." p = true ->
  s <> TokenService.createSignature (secret w) (h ++ "." ++ p) ->
  ~ In (h ++ "." ++ p ++ "." ++ s) (revokedTokens w) ->
  fst (TokenService.validateToken (h ++ "." ++ p ++ "." ++ s) w)
    = Err TokenService.signature_error \/
  fst (TokenService.validateToken (h ++ "." ++ p ++ "." ++ s) w)
    = Err TokenService.format_error.
Proof.
  intros Hh Hp Hs Hr. rewrite (validate_fresh _ _ Hr).
  destruct (JsString.free_of "." s) eqn:Fs.
  - left. rewrite (decode_three _ _ h p s (TokenFacts.split_three _ _ _ Hh Hp Fs)).
    apply String.eqb_neq in Hs. rewrite Hs. reflexivity.
  - right. rewrite decode_format; [reflexivity|].
    apply TokenFacts.split_not_three. auto.
Qed.

End WithPrimitives.
End DecodeFacts.

(** C4: for a token outside the revocation set, [validateToken] fails with
    the format error when the token does not have three segments; else with
    the signature error when the third segment is not the signature of the
    first two (whatever the payload and the clock); else with the payload
    error when the payload does not parse; else with the expiry error when
    the clock is past [expiresAt]; else it returns the payload's [userId].
    In particular a single-character change to the payload segment (absent
    an HMAC collision between the two payload segments) or to the signature
    segment of an issued token makes it fail with the signature or the
    format error. *)
Theorem validate_check_order {P : Primitives} (HP : TokenPrimitivesOK P) (w : World) :
  let sec := secret w in
  let now := clock w (tick w) in
  (forall tok, ~ In tok (revokedTokens w) ->
     (length (JsString.split "." tok) <> 3 ->
        fst (TokenService.validateToken tok w) = Err TokenService.format_error) /\
     (forall h p s, JsString.split "." tok = [h; p; s] ->
        (s <> TokenService.createSignature sec (h ++ "." ++ p) ->
           fst (TokenService.validateToken tok w) = Err TokenService.signature_error) /\
        (s = TokenService.createSignature sec (h ++ "." ++ p) ->
           (json_parse_payload (base64url_decode p) = None ->
              fst (TokenService.validateToken tok w) = Err TokenService.payload_error) /\
           (forall pl, json_parse_payload (base64url_decode p) = Some pl ->
              ((expiresAt pl < now)%Z ->
                 fst (TokenService.validateToken tok w) = Err TokenService.expired_error) /\
              ((now <= expiresAt pl)%Z ->
                 fst (TokenService.validateToken tok w) = Ok (userId pl)))))) /\
  (forall (pl : TokenPayload) (i : nat) (c : ascii),
     let eh := base64url_encode TokenService.header_json in
     let ep := base64url_encode (json_stringify_payload pl) in
     let sg := TokenService.createSignature sec (eh ++ "." ++ ep) in
     (i < String.length ep -> String.get i ep <> Some c ->
        let tok' := eh ++ "." ++ replace_at ep i c ++ "." ++ sg in
        TokenService.createSignature sec (eh ++ "." ++ replace_at ep i c) <> sg ->
        ~ In tok' (revokedTokens w) ->
        fst (TokenService.validateToken tok' w) = Err TokenService.signature_error \/
        fst (TokenService.validateToken tok' w) = Err TokenService.format_error) /\
     (i < String.length sg -> String.get i sg <> Some c ->
        let tok' := eh ++ "." ++ ep ++ "." ++ replace_at sg i c in
        ~ In tok' (revokedTokens w) ->
        fst (TokenService.validateToken tok' w) = Err TokenService.signature_error \/
        fst (TokenService.validateToken tok' w) = Err TokenService.format_error)).
Proof.
  cbv zeta. split.
  - intros tok Hr. rewrite (DecodeFacts.validate_fresh _ _ Hr). split.
    + intros H3. rewrite DecodeFacts.decode_format by exact H3. reflexivity.
    + intros h p s E. rewrite (DecodeFacts.decode_three _ _ _ _ _ E). split.
      * intros Hs. apply String.eqb_neq in Hs. rewrite Hs. reflexivity.
      * intros Hs. rewrite <- Hs, String.eqb_refl. simpl. split.
        -- intros N. rewrite N. reflexivity.
        -- intros pl Hpl. rewrite Hpl. split; intros Ht.
           ++ replace (Z.gtb _ _) with true by (symmetry; rewrite Z.gtb_ltb; apply Z.ltb_lt; lia).
              reflexivity.
           ++ replace (Z.gtb _ _) with false by (symmetry; rewrite Z.gtb_ltb; apply Z.ltb_ge; lia).
              reflexivity.
  - intros pl i c. split.
    + intros Hi Hc Hcol Hr.
      destruct (JsString.free_of "." (replace_at (base64url_encode (json_stringify_payload pl)) i c))
        eqn:F.
      * apply DecodeFacts.validate_wrong_signature;
          [apply (b64_no_dot P HP) | exact F | intros E; apply Hcol; exact (eq_sym E) | exact Hr].
      * right. rewrite (DecodeFacts.validate_fresh _ _ Hr), DecodeFacts.decode_format;
          [reflexivity|].
        apply TokenFacts.split_not_three. auto.
    + intros Hi Hc Hr.
      apply DecodeFacts.validate_wrong_signature;
        [apply (b64_no_dot P HP) | apply (b64_no_dot P HP) | | exact Hr].
      apply StringFacts.replace_at_changes; assumption.
Qed.

Lemma validate_check_order_witness :
  let w := Toy.world 1000 5 [] [] in
  let pl := mkPayload "1" 1000 (1000 + TokenService.ttl_ms)%Z in
  let eh := base64url_encode (Primitives := Toy.prims) TokenService.header_json in
  let ep := base64url_encode (Primitives := Toy.prims) (json_stringify_payload (Primitives := Toy.prims) pl) in
  let sg := TokenService.createSignature (P := Toy.prims) (secret w) (eh ++ "." ++ ep) in
  let tok' := eh ++ "." ++ replace_at ep 0 "A" ++ "." ++ sg in
  fst (TokenService.validateToken (P := Toy.prims) tok' w) = Err TokenService.signature_error \/
  fst (TokenService.validateToken (P := Toy.prims) tok' w) = Err TokenService.format_error.
Proof.
  cbv zeta.
  apply (proj1 (proj2 (validate_check_order ToyFacts.prims_ok (Toy.world 1000 5 [] []))
                 (mkPayload "1" 1000 (1000 + TokenService.ttl_ms)%Z) 0 "A"%char)).
  - vm_compute. lia.
  - vm_compute. discriminate.
  - vm_compute. discriminate.
  - vm_compute. intros [].
Defined.

(** C5: [login] with an email no user has, and [login] with a known email
    but a password that does not verify, both throw the same
    [InvalidCredentialsError] (same name, same message) and leave the world
    unchanged. *)
Theorem login_failures_indistinguishable {P : Primitives} (w : World) (d : UserLoginData) :
  (UserRepository.find_value (fun u => String.eqb (email u) (login_email d)) (users w) = None ->
     AuthService.login d w = (Err InvalidCredentialsError, w)) /\
  (forall u, UserRepository.find_value (fun u => String.eqb (email u) (login_email d)) (users w)
               = Some u ->
     PasswordService.verifyPassword (login_password d) (hashedPassword u) = false ->
     AuthService.login d w = (Err InvalidCredentialsError, w)) /\
  name InvalidCredentialsError = "InvalidCredentialsError" /\
  message InvalidCredentialsError = "Invalid email or password".
Proof.
  unfold AuthService.login, UserRepository.findByEmail, bind, gets; simpl.
  split; [|split; [|split; reflexivity]].
  - intros E. rewrite E. reflexivity.
  - intros u E V. rewrite E, V. reflexivity.
Qed.

Lemma login_failures_indistinguishable_witness :
  let alice := mkUser "1" "a@b.c" "alice" "" [] "A" "L" None None 0 0 true in
  let w := Toy.world 1000 5 [("1", alice)] [] in
  AuthService.login (P := Toy.prims) (mkLogin "x@b.c" "Ab1!cdef") w
    = (Err InvalidCredentialsError, w) /\
  AuthService.login (P := Toy.prims) (mkLogin "a@b.c" "Ab1!cdef") w
    = (Err InvalidCredentialsError, w).
Proof.
  cbv zeta.
  pose proof (login_failures_indistinguishable (P := Toy.prims)
    (Toy.world 1000 5 [("1", mkUser "1" "a@b.c" "alice" "" [] "A" "L" None None 0 0 true)] [])) as T.
  split.
  - apply (proj1 (T (mkLogin "x@b.c" "Ab1!cdef"))). reflexivity.
  - apply (proj1 (proj2 (T (mkLogin "a@b.c" "Ab1!cdef")))
             (mkUser "1" "a@b.c" "alice" "" [] "A" "L" None None 0 0 true));
      reflexivity.
Defined.

Module HexFacts.
Import PasswordService.

Definition hexchar (v : nat) : ascii :=
  ascii_of_nat (if Nat.ltb v 10 then 48 + v else 87 + v).

Definition hexval_check (n : nat) : bool :=
  let x := ascii_of_nat n in
  implb (is_lhex_char x)
    (match hexval x with
     | Some v => Nat.ltb v 16 && Ascii.eqb (hexchar v) x && negb (Ascii.eqb x ":")
     | None => false
     end).

Lemma hexval_check_all : forallb hexval_check (seq 0 256) = true.
Proof. vm_compute. reflexivity. Qed.

Lemma lhex_char_spec (x : ascii) :
  is_lhex_char x = true ->
  exists v, hexval x = Some v /\ v < 16 /\ hexchar v = x /\ Ascii.eqb x ":" = false.
Proof.
  intros H.
  assert (C : hexval_check (nat_of_ascii x) = true).
  { pose proof hexval_check_all as A. rewrite forallb_forall in A. apply A.
    apply in_seq. pose proof (Ascii.nat_ascii_bounded x). lia. }
  unfold hexval_check in C. rewrite Ascii.ascii_nat_embedding, H in C. simpl in C.
  destruct (hexval x) as [v|]; [|discriminate].
  apply andb_prop in C as [C C3]. apply andb_prop in C as [C1 C2].
  exists v. repeat split.
  - apply Nat.ltb_lt, C1.
  - apply Ascii.eqb_eq, C2.
  - destruct (Ascii.eqb x ":"); [discriminate|reflexivity].
Qed.

Lemma lhex_no_colon (s : string) : is_lhex s = true -> JsString.free_of ":" s = true.
Proof.
  induction s as [|a s IH]; simpl; [reflexivity|].
  intros H. apply andb_prop in H as [Ha Hs].
  destruct (lhex_char_spec a Ha) as [v [_ [_ [_ Hc]]]].
  rewrite Hc, IH by exact Hs. reflexivity.
Qed.

Lemma hex_decode_length (n : nat) (s : string) :
  String.length s = 2 * n -> is_lhex s = true -> length (hex_decode s) = n.
Proof.
  revert s. induction n as [|n IH]; intros s L H.
  - destruct s; [reflexivity|simpl in L; lia].
  - destruct s as [|a [|b s]]; simpl in L; try lia.
    simpl in H. apply andb_prop in H as [Ha H]. apply andb_prop in H as [Hb Hs].
    destruct (lhex_char_spec a Ha) as [va [Ea _]].
    destruct (lhex_char_spec b Hb) as [vb [Eb _]].
    simpl. rewrite Ea, Eb. simpl. f_equal. apply IH; [lia|exact Hs].
Qed.

Lemma hex_decode_inj (n : nat) (s t : string) :
  String.length s = 2 * n -> String.length t = 2 * n ->
  is_lhex s = true -> is_lhex t = true ->
  hex_decode s = hex_decode t -> s = t.
Proof.
  revert s t. induction n as [|n IH]; intros s t Ls Lt Hs Ht E.
  - destruct s, t; simpl in *; try lia. reflexivity.
  - destruct s as [|a [|b s]]; simpl in Ls; try lia.
    destruct t as [|c [|d t]]; simpl in Lt; try lia.
    simpl in Hs, Ht.
    apply andb_prop in Hs as [Ha Hs]. apply andb_prop in Hs as [Hb Hs].
    apply andb_prop in Ht as [Hc Ht]. apply andb_prop in Ht as [Hd Ht].
    destruct (lhex_char_spec a Ha) as [va [Ea [Ba [Ca _]]]].
    destruct (lhex_char_spec b Hb) as [vb [Eb [Bb [Cb _]]]].
    destruct (lhex_char_spec c Hc) as [vc [Ec [Bc [Cc _]]]].
    destruct (lhex_char_spec d Hd) as [vd [Ed [Bd [Cd _]]]].
    simpl in E. rewrite Ea, Eb, Ec, Ed in E. injection E as E1 E2.
    assert (va = vc) by lia. assert (vb = vd) by lia. subst vc vd.
    rewrite <- Ca, <- Cb, <- Cc, <- Cd.
    f_equal; f_equal. apply IH; lia || assumption.
Qed.

Lemma forallb_combine_refl (l : list nat) :
  forallb (fun p => Nat.eqb (fst p) (snd p)) (combine l l) = true.
Proof. induction l as [|x l IH]; simpl; [reflexivity|]. now rewrite Nat.eqb_refl, IH. Qed.

Lemma forallb_combine_eq (a b : list nat) :
  length a = length b ->
  forallb (fun p => Nat.eqb (fst p) (snd p)) (combine a b) = true -> a = b.
Proof.
  revert b. induction a as [|x a IH]; intros [|y b] L H; simpl in *; try lia; [reflexivity|].
  apply andb_prop in H as [H1 H2]. apply Nat.eqb_eq in H1. subst. f_equal. apply IH; [lia|exact H2].
Qed.

End HexFacts.

Module PasswordFacts.
Section WithPrimitives.
Context {P : Primitives}.

Lemma hash_ok (pw h : string) (w w' : World) :
  PasswordService.hashPassword pw w = (Ok h, w') ->
  pw <> "" /\ h = random w (rtick w) ++ ":" ++ sha256_hex (pw ++ random w (rtick w)).
Proof.
  unfold PasswordService.hashPassword, PasswordService.validatePasswordInput,
    bind, random_hex16, ret, throw.
  destruct (String.eqb pw "") eqn:E; [discriminate|].
  simpl. intros H. injection H as <- _. split; [|reflexivity].
  intros ->. discriminate.
Qed.

Lemma verify_shape (HS : Sha256HexOK P) (pw salt digest : string) :
  is_lhex salt = true -> salt <> "" -> is_lhex digest = true -> String.length digest = 64 ->
  PasswordService.verifyPassword pw (salt ++ ":" ++ digest) =
  match PasswordService.timingSafeEqual (PasswordService.hex_decode digest)
          (PasswordService.hex_decode (sha256_hex (pw ++ salt))) with
  | Some b => b
  | None => false
  end.
Proof.
  intros Hs Hne Hd Ld. unfold PasswordService.verifyPassword.
  simpl. rewrite StringFacts.split_app by (apply HexFacts.lhex_no_colon; exact Hs).
  rewrite StringFacts.split_free by (apply HexFacts.lhex_no_colon; exact Hd).
  destruct (String.eqb salt "") eqn:E1; [apply String.eqb_eq in E1; contradiction|].
  destruct (String.eqb digest "") eqn:E2; [apply String.eqb_eq in E2; subst; discriminate|].
  reflexivity.
Qed.

End WithPrimitives.
End PasswordFacts.

(** C6: for the record [salt:digest] that [hashPassword pw] returns (with
    a non-empty lower-case hexadecimal salt), [verifyPassword pw] accepts it,
    [pw] is non-empty, and every other password [pw'] whose digest with that
    salt differs from [pw]'s (no SHA-256 collision) is rejected. *)
Theorem verify_hash_roundtrip {P : Primitives} (HS : Sha256HexOK P)
    (w w' : World) (pw h : string) :
  let salt := random w (rtick w) in
  is_lhex salt = true -> salt <> "" ->
  PasswordService.hashPassword pw w = (Ok h, w') ->
  pw <> "" /\
  PasswordService.verifyPassword pw h = true /\
  (forall pw', pw' <> pw -> sha256_hex (pw' ++ salt) <> sha256_hex (pw ++ salt) ->
     PasswordService.verifyPassword pw' h = false).
Proof.
  cbv zeta. intros Hs Hne Hh.
  destruct (PasswordFacts.hash_ok _ _ _ _ Hh) as [Hpw ->].
  destruct (HS (pw ++ random w (rtick w))) as [L Hd].
  split; [exact Hpw|]. split.
  - rewrite (PasswordFacts.verify_shape HS) by assumption.
    unfold PasswordService.timingSafeEqual. rewrite Nat.eqb_refl, HexFacts.forallb_combine_refl.
    reflexivity.
  - intros pw' _ Hcol.
    rewrite (PasswordFacts.verify_shape HS) by assumption.
    destruct (HS (pw' ++ random w (rtick w))) as [L' Hd'].
    unfold PasswordService.timingSafeEqual.
    rewrite (HexFacts.hex_decode_length 32 (sha256_hex (pw ++ _))) by (assumption || lia).
    rewrite (HexFacts.hex_decode_length 32 (sha256_hex (pw' ++ _))) by (assumption || lia).
    simpl Nat.eqb. cbv iota.
    destruct (forallb _ _) eqn:F; [|reflexivity].
    exfalso. apply Hcol. symmetry.
    apply (HexFacts.hex_decode_inj 32); try (assumption || lia).
    apply HexFacts.forallb_combine_eq; [|exact F].
    rewrite (HexFacts.hex_decode_length 32 (sha256_hex (pw ++ _))) by (assumption || lia).
    rewrite (HexFacts.hex_decode_length 32 (sha256_hex (pw' ++ _))) by (assumption || lia).
    reflexivity.
Qed.

Lemma verify_hash_roundtrip_witness :
  let w := Toy.world 1000 5 [] [] in
  let h := "00112233445566778899aabbccddeeff:" ++ Toy.zeros64 in
  PasswordService.hashPassword (P := Toy.prims) "abc" w = (Ok h, set_rtick 1 w) /\
  PasswordService.verifyPassword (P := Toy.prims) "abc" h = true /\
  PasswordService.verifyPassword (P := Toy.prims) "bcd" h = false.
Proof.
  cbv zeta.
  assert (E : PasswordService.hashPassword (P := Toy.prims) "abc" (Toy.world 1000 5 [] [])
              = (Ok ("00112233445566778899aabbccddeeff:" ++ Toy.zeros64),
                 set_rtick 1 (Toy.world 1000 5 [] []))) by reflexivity.
  destruct (verify_hash_roundtrip ToyFacts.sha_ok (Toy.world 1000 5 [] []) _ "abc" _
              eq_refl ltac:(discriminate) E)
    as [_ [V1 V2]].
  split; [exact E|]. split; [exact V1|].
  apply V2; [discriminate|vm_compute; discriminate].
Defined.

(** C7: [AuthService.validateToken], [AuthService.refreshToken] and the
    middleware's [authenticate] succeed only if the token validates to a
    user id that the repository resolves, at that moment, to a user whose
    [isActive] is true; the response is built from that stored user. *)
Theorem token_not_authoritative {P : Primitives} (w : World) :
  (forall tok r w', AuthService.validateToken tok w = (Ok r, w') ->
     exists uid u, fst (TokenService.validateToken tok w) = Ok uid /\
       UserRepository.map_get uid (users w) = Some u /\ isActive u = true /\
       r = AuthService.toUserResponse u) /\
  (forall tok r w', AuthService.refreshToken tok w = (Ok r, w') ->
     exists uid u, fst (TokenService.validateToken tok w) = Ok uid /\
       UserRepository.map_get uid (users w) = Some u /\ isActive u = true /\
       user r = AuthService.toUserResponse u) /\
  (forall hdr r w', AuthMiddleware.authenticate hdr w = (Ok (AuthMiddleware.Next r), w') ->
     exists tok uid u, AuthMiddleware.extractToken hdr = Some tok /\
       fst (TokenService.validateToken tok w) = Ok uid /\
       UserRepository.map_get uid (users w) = Some u /\ isActive u = true /\
       r = AuthService.toUserResponse u).
Proof.
  split; [|split].
  - intros tok r w'. unfold AuthService.validateToken, UserRepository.findById, bind, gets.
    destruct (TokenService.validateToken tok w) as [[uid|e] w1] eqn:V; [|discriminate].
    destruct (TokenFacts.validate_ok _ _ _ _ V) as [_ [p [_ [_ [_ ->]]]]].
    simpl. destruct (UserRepository.map_get uid (users w)) as [u|] eqn:G; [|discriminate].
    destruct (isActive u) eqn:A; simpl; [|discriminate].
    unfold ret. intros H. injection H as <- _. exists uid, u. auto.
  - intros tok r w'. unfold AuthService.refreshToken, UserRepository.findById, bind, gets.
    destruct (TokenService.validateToken tok w) as [[uid|e] w1] eqn:V; [|discriminate].
    destruct (TokenFacts.validate_ok _ _ _ _ V) as [_ [p [_ [_ [_ ->]]]]].
    simpl. destruct (UserRepository.map_get uid (users w)) as [u|] eqn:G; [|discriminate].
    destruct (isActive u) eqn:A; simpl; [|discriminate].
    unfold ret. intros H. injection H as <- _. exists uid, u. auto.
  - intros hdr r w'. unfold AuthMiddleware.authenticate, UserRepository.findById, catch, bind, gets.
    destruct (AuthMiddleware.extractToken hdr) as [tok|]; [|discriminate].
    destruct (String.eqb tok ""); [discriminate|].
    destruct (TokenService.validateToken tok w) as [[uid|e] w1] eqn:V; [|discriminate].
    destruct (TokenFacts.validate_ok _ _ _ _ V) as [_ [p [_ [_ [_ ->]]]]].
    simpl. destruct (UserRepository.map_get uid (users w)) as [u|] eqn:G; [|discriminate].
    destruct (isActive u) eqn:A; simpl; [|discriminate].
    unfold ret. intros H. injection H as <- _. exists tok, uid, u. rewrite V. auto.
Qed.

Lemma token_not_authoritative_witness :
  let alice := mkUser "1" "a@b.c" "alice" "" [] "A" "L" None None 0 0 true in
  let w := Toy.world 1000 5 [("1", alice)] [] in
  let tok := fst (Toy.issue "1" w) in
  fst (AuthService.validateToken (P := Toy.prims) tok w) = Ok (AuthService.toUserResponse alice) /\
  exists uid u, fst (TokenService.validateToken (P := Toy.prims) tok w) = Ok uid /\
    UserRepository.map_get uid (users w) = Some u /\ isActive u = true /\
    AuthService.toUserResponse alice = AuthService.toUserResponse u.
Proof.
  cbv zeta. split; [vm_compute; reflexivity|].
  apply (proj1 (token_not_authoritative (P := Toy.prims)
    (Toy.world 1000 5 [("1", mkUser "1" "a@b.c" "alice" "" [] "A" "L" None None 0 0 true)] []))
    _ _ (snd (AuthService.validateToken (P := Toy.prims)
      (fst (Toy.issue "1" (Toy.world 1000 5
         [("1", mkUser "1" "a@b.c" "alice" "" [] "A" "L" None None 0 0 true)] [])))
      (Toy.world 1000 5 [("1", mkUser "1" "a@b.c" "alice" "" [] "A" "L" None None 0 0 true)] [])))).
  vm_compute. reflexivity.
Defined.

(** C8 (code_bug): the repeat rule [/(.)\1{2,}/] does not see a run of
    line terminators, so ["Ab1!\n\n\nx"], which has three identical
    consecutive characters, passes every rule.  The other rules behave as
    stated: ["Ab1!cdef"] is valid, ["password"] collects four messages
    including the denylist one, and ["aaa1A!bb"] is rejected by the repeat
    rule alone. *)
Theorem password_policy_misses_newline_runs :
  let nl := String (ascii_of_nat 10) EmptyString in
  let pw := "Ab1!" ++ nl ++ nl ++ nl ++ "x" in
  run_of_three pw = true /\
  PasswordService.validatePasswordStrength pw = PasswordService.mkValidation true [] /\
  PasswordService.validatePasswordStrength "Ab1!cdef" = PasswordService.mkValidation true [] /\
  PasswordService.validatePasswordStrength "password" =
    PasswordService.mkValidation false
      ["Password must contain at least one uppercase letter";
       "Password must contain at least one number";
       "Password must contain at least one special character";
       "Password cannot contain common words or patterns"] /\
  PasswordService.validatePasswordStrength "aaa1A!bb" =
    PasswordService.mkValidation false
      ["Password cannot contain more than 2 consecutive identical characters"].
Proof. vm_compute. repeat split. Qed.

Module FlowFacts.
Section WithPrimitives.
Context {P : Primitives}.

Lemma hash_world (pw : string) (w w1 : World) (res : result string) :
  PasswordService.hashPassword pw w = (res, w1) ->
  tick w1 = tick w /\ clock w1 = clock w /\ secret w1 = secret w.
Proof.
  unfold PasswordService.hashPassword, PasswordService.validatePasswordInput,
    bind, random_hex16, ret, throw.
  destruct (String.eqb pw ""); simpl; intros H; injection H as _ <-; auto.
Qed.

Lemma create_world (d : UserRegistrationData) (h : string) (w w1 : World) (u : User) :
  UserRepository.create d h w = (Ok u, w1) ->
  tick w1 = S (tick w) /\ clock w1 = clock w /\ secret w1 = secret w.
Proof. unfold UserRepository.create. simpl. intros H. injection H as _ <-. auto. Qed.

Lemma updateLastLogin_world (uid : string) (w w1 : World) :
  UserRepository.updateLastLogin uid w = (Ok tt, w1) ->
  tick w1 = S (S (tick w)) /\ clock w1 = clock w /\ secret w1 = secret w.
Proof.
  unfold UserRepository.updateLastLogin, UserRepository.findById, bind, gets, throw.
  simpl. destruct (UserRepository.map_get uid (users w)); [|discriminate].
  simpl. intros H. injection H as <-. auto.
Qed.

(** The token and the reported expiry of an [AuthenticationResult]
    produced by [generateToken] then [getTokenExpiration] from world [w]. *)
Lemma issue_then_report (u : User) (w : World) (r : AuthenticationResult) (w' : World) :
  (tok <- TokenService.generateToken (id u) ;;
   exp <- TokenService.getTokenExpiration ;;
   ret (mkAuthResult (AuthService.toUserResponse u) tok exp)) w = (Ok r, w') ->
  r = mkAuthResult (AuthService.toUserResponse u)
        (TokenService.createToken (secret w)
           (mkPayload (id u) (clock w (tick w)) (clock w (tick w) + TokenService.ttl_ms)%Z))
        (clock w (S (tick w)) + TokenService.ttl_ms)%Z /\
  revokedTokens w' = revokedTokens w /\ secret w' = secret w.
Proof.
  intros H.
  unfold bind, ret, TokenService.generateToken, TokenService.getTokenExpiration,
    now_ms, gets in H.
  simpl in H. injection H as <- <-. auto.
Qed.

Lemma refresh_ok (tok : string) (w w' : World) (r : AuthenticationResult) :
  AuthService.refreshToken tok w = (Ok r, w') ->
  exists u p,
    ~ In tok (revokedTokens w) /\
    TokenService.decodeToken (secret w) tok = Ok p /\
    Z.gtb (clock w (tick w)) (expiresAt p) = false /\
    UserRepository.map_get (userId p) (users w) = Some u /\ isActive u = true /\
    r = mkAuthResult (AuthService.toUserResponse u)
          (TokenService.createToken (secret w)
             (mkPayload (id u) (clock w (S (tick w)))
                (clock w (S (tick w)) + TokenService.ttl_ms)%Z))
          (clock w (S (S (tick w))) + TokenService.ttl_ms)%Z /\
    revokedTokens w' = revokedTokens w /\ secret w' = secret w.
Proof.
  unfold AuthService.refreshToken, UserRepository.findById.
  unfold bind at 1.
  destruct (TokenService.validateToken tok w) as [[uid|e] w1] eqn:V; [|discriminate].
  destruct (TokenFacts.validate_ok _ _ _ _ V) as [Hr [p [D [G [-> ->]]]]].
  unfold bind at 1, gets. simpl.
  destruct (UserRepository.map_get (userId p) (users w)) as [u|] eqn:M; [|discriminate].
  destruct (isActive u) eqn:A; simpl; [|discriminate].
  intros H. apply issue_then_report in H as [-> [R S]].
  exists u, p. simpl in R, S. auto 10.
Qed.

Lemma login_ok (d : UserLoginData) (w w' : World) (r : AuthenticationResult) :
  AuthService.login d w = (Ok r, w') ->
  exists u,
    r = mkAuthResult (AuthService.toUserResponse u)
          (TokenService.createToken (secret w)
             (mkPayload (id u) (clock w (S (S (tick w))))
                (clock w (S (S (tick w))) + TokenService.ttl_ms)%Z))
          (clock w (S (S (S (tick w)))) + TokenService.ttl_ms)%Z.
Proof.
  unfold AuthService.login, UserRepository.findByEmail.
  unfold bind at 1, gets. simpl.
  destruct (UserRepository.find_value _ (users w)) as [u|]; [|discriminate].
  destruct (PasswordService.verifyPassword _ _); simpl; [|discriminate].
  destruct (isActive u); simpl; [|discriminate].
  unfold bind at 1.
  destruct (UserRepository.updateLastLogin (id u) w) as [[[]|e] w1] eqn:U; [|discriminate].
  destruct (updateLastLogin_world _ _ _ U) as [T [C S]].
  intros H. apply issue_then_report in H as [-> _].
  exists u. rewrite T, C, S. reflexivity.
Qed.

Lemma register_ok (d : UserRegistrationData) (w w' : World) (r : AuthenticationResult) :
  AuthService.register d w = (Ok r, w') ->
  exists u,
    r = mkAuthResult (AuthService.toUserResponse u)
          (TokenService.createToken (secret w)
             (mkPayload (id u) (clock w (S (tick w)))
                (clock w (S (tick w)) + TokenService.ttl_ms)%Z))
          (clock w (S (S (tick w))) + TokenService.ttl_ms)%Z.
Proof.
  unfold AuthService.register, UserRepository.findByEmail, UserRepository.findByUsername.
  destruct (PasswordService.isValid _); simpl; [|discriminate].
  unfold bind at 1, gets. simpl.
  destruct (UserRepository.find_value _ (users w)); [discriminate|].
  unfold bind at 1. simpl.
  destruct (UserRepository.find_value _ (users w)); [discriminate|].
  unfold bind at 1.
  destruct (PasswordService.hashPassword (reg_password d) w) as [[h|e] w1] eqn:Hh; [|discriminate].
  destruct (hash_world _ _ _ _ Hh) as [T1 [C1 S1]].
  unfold bind at 1.
  destruct (UserRepository.create d h w1) as [[u|e] w2] eqn:Hc; [|discriminate].
  destruct (create_world _ _ _ _ _ Hc) as [T2 [C2 S2]].
  intros H. apply issue_then_report in H as [-> _].
  exists u. rewrite T2, C2, S2, T1, C1, S1. reflexivity.
Qed.

End WithPrimitives.
End FlowFacts.

(** C9: a successful [refreshToken tok] leaves the revocation set (and the
    secret) as they were, returns a token freshly produced by
    [generateToken], and [tok] stays valid: at any later clock reading up
    to its own [expiresAt], while nobody revokes it, [tok] validates to its
    user id, and so does the new token up to its own expiry. *)
Theorem refresh_does_not_revoke {P : Primitives} (HP : TokenPrimitivesOK P)
    (tok : string) (w w' : World) (r : AuthenticationResult) :
  AuthService.refreshToken tok w = (Ok r, w') ->
  let t1 := clock w (S (tick w)) in
  revokedTokens w' = revokedTokens w /\ secret w' = secret w /\
  ~ In tok (revokedTokens w') /\
  token r = TokenService.createToken (secret w)
              (mkPayload (r_id (user r)) t1 (t1 + TokenService.ttl_ms)%Z) /\
  exists pl, TokenService.decodeToken (secret w) tok = Ok pl /\
    (clock w (tick w) <= expiresAt pl)%Z /\
    forall w2, secret w2 = secret w ->
      (~ In tok (revokedTokens w2) -> (clock w2 (tick w2) <= expiresAt pl)%Z ->
         fst (TokenService.validateToken tok w2) = Ok (userId pl)) /\
      (~ In (token r) (revokedTokens w2) ->
         (clock w2 (tick w2) <= t1 + TokenService.ttl_ms)%Z ->
         fst (TokenService.validateToken (token r) w2) = Ok (r_id (user r))).
Proof.
  intros H. cbv zeta.
  destruct (FlowFacts.refresh_ok _ _ _ _ H) as [u [p [Hr [D [G [M [A [-> [R S]]]]]]]]].
  split; [exact R|]. split; [exact S|].
  split; [rewrite R; exact Hr|]. split; [reflexivity|].
  exists p. split; [exact D|]. split.
  { rewrite Z.gtb_ltb in G. apply Z.ltb_ge in G. exact G. }
  intros w2 Hs. split.
  - intros Hr2 Ht. rewrite (DecodeFacts.validate_fresh _ _ Hr2), Hs, D.
    replace (Z.gtb _ _) with false by (symmetry; rewrite Z.gtb_ltb; apply Z.ltb_ge; lia).
    reflexivity.
  - intros Hr2 Ht. rewrite (DecodeFacts.validate_fresh _ _ Hr2), Hs.
    cbn [token user r_id AuthService.toUserResponse] in *.
    rewrite (TokenFacts.decode_created HP). cbn [expiresAt userId].
    replace (Z.gtb _ _) with false by (symmetry; rewrite Z.gtb_ltb; apply Z.ltb_ge; lia).
    reflexivity.
Qed.

Lemma refresh_does_not_revoke_witness :
  let alice := mkUser "1" "a@b.c" "alice" "" [] "A" "L" None None 0 0 true in
  let w := Toy.world 1000 5 [("1", alice)] [] in
  let tok := fst (Toy.issue "1" w) in
  match AuthService.refreshToken (P := Toy.prims) tok w with
  | (Ok r, w') =>
      revokedTokens w' = [] /\ token r <> tok /\
      fst (TokenService.validateToken (P := Toy.prims) tok w') = Ok "1" /\
      fst (TokenService.validateToken (P := Toy.prims) (token r) w') = Ok "1"
  | (Err _, _) => False
  end.
Proof.
  cbv zeta.
  destruct (AuthService.refreshToken (P := Toy.prims) _ _) as [[r|e] w'] eqn:E;
    [|vm_compute in E; discriminate].
  pose proof (refresh_does_not_revoke ToyFacts.prims_ok _ _ _ _ E) as T. cbv zeta in T.
  destruct T as [R [S [Hn [Tk [pl [D [_ V]]]]]]].
  assert (R0 : revokedTokens w' = []) by (rewrite R; reflexivity).
  vm_compute in D. injection D as <-.
  assert (Hc : clock w' (tick w') = 1015%Z).
  { vm_compute in E. injection E as _ <-. reflexivity. }
  assert (Hu : r_id (user r) = "1").
  { vm_compute in E. injection E as <- _. reflexivity. }
  destruct (V w') as [V1 V2]; [exact S|].
  split; [exact R0|]. split.
  - rewrite Tk. vm_compute. discriminate.
  - split.
    + apply V1; [exact Hn|]. rewrite Hc. vm_compute. discriminate.
    + rewrite <- Hu. apply V2; [rewrite R0; intros []|rewrite Hc; vm_compute; discriminate].
Defined.

(** C10: in [register], [login] and [refreshToken] the token embeds
    [t1 + 24h] for the clock reading [t1] taken by [generateToken], while
    the reported [expiresAt] is [t2 + 24h] for the next reading [t2], taken
    by [getTokenExpiration]; when [t1 <= t2] they agree exactly when
    [t1 = t2], and the reported value is later otherwise.  [t1] is the
    reading after the one taken by [create] in [register] and by
    [validateToken] in [refreshToken]; in [login] it comes after the two
    readings of [updateLastLogin]. *)
Theorem reported_expiry_from_second_clock_read {P : Primitives} (w : World) :
  forall r w' n,
    ((exists d, AuthService.register d w = (Ok r, w')) /\ n = S (tick w)) \/
    ((exists d, AuthService.login d w = (Ok r, w')) /\ n = S (S (tick w))) \/
    ((exists tok, AuthService.refreshToken tok w = (Ok r, w')) /\ n = S (tick w)) ->
    let t1 := clock w n in
    let t2 := clock w (S n) in
    token r = TokenService.createToken (secret w)
                (mkPayload (r_id (user r)) t1 (t1 + TokenService.ttl_ms)%Z) /\
    res_expiresAt r = (t2 + TokenService.ttl_ms)%Z /\
    ((t1 <= t2)%Z ->
       (res_expiresAt r = (t1 + TokenService.ttl_ms)%Z <-> t1 = t2) /\
       ((t1 < t2)%Z -> (t1 + TokenService.ttl_ms < res_expiresAt r)%Z)).
Proof.
  intros r w' n H. cbv zeta.
  assert (E : exists u,
    r = mkAuthResult (AuthService.toUserResponse u)
          (TokenService.createToken (secret w)
             (mkPayload (id u) (clock w n) (clock w n + TokenService.ttl_ms)%Z))
          (clock w (S n) + TokenService.ttl_ms)%Z).
  { destruct H as [[[d H] ->]|[[[d H] ->]|[[tok H] ->]]].
    - exact (FlowFacts.register_ok _ _ _ _ H).
    - exact (FlowFacts.login_ok _ _ _ _ H).
    - destruct (FlowFacts.refresh_ok _ _ _ _ H) as [u [_ [_ [_ [_ [_ [_ [-> _]]]]]]]].
      exists u. reflexivity. }
  destruct E as [u ->]. simpl.
  split; [reflexivity|]. split; [reflexivity|].
  intros Hle. split; [split; intros; lia|]. intros; lia.
Qed.

Lemma reported_expiry_from_second_clock_read_witness :
  let alice := mkUser "1" "a@b.c" "alice" ("00112233445566778899aabbccddeeff:" ++ Toy.ones64)
                 [] "A" "L" None None 0 0 true in
  let w := Toy.world 1000 5 [("1", alice)] [] in
  match AuthService.login (P := Toy.prims) (mkLogin "a@b.c" "Ab1!cdef") w with
  | (Ok r, _) =>
      res_expiresAt r = (1015 + TokenService.ttl_ms)%Z /\
      (1010 + TokenService.ttl_ms < res_expiresAt r)%Z
  | (Err _, _) => False
  end.
Proof.
  cbv zeta.
  destruct (AuthService.login (P := Toy.prims) _ _) as [[r|e] w'] eqn:E;
    [|vm_compute in E; discriminate].
  destruct (reported_expiry_from_second_clock_read (P := Toy.prims)
              (Toy.world 1000 5 [("1", mkUser "1" "a@b.c" "alice"
                 ("00112233445566778899aabbccddeeff:" ++ Toy.ones64)
                 [] "A" "L" None None 0 0 true)] []) r w' 2
              (or_intror (or_introl (conj (ex_intro _ _ E) eq_refl)))) as [_ [X _]].
  rewrite X. split; vm_compute; reflexivity.
Defined.

(** C3 (code_bug): [verifyPassword] compares with [timingSafeEqual], whose
    cost depends only on the lengths, but [decodeToken] compares the
    signature with [!==], whose cost grows with the length of the prefix
    that matches the expected signature.  Two forged signatures of the
    right length, one wrong in its first character and one wrong in its
    last, are both rejected but after different amounts of work. *)
Theorem signature_compare_not_constant_time :
  let sec := "k3y" in
  let eh := base64url_encode (Primitives := Toy.prims) TokenService.header_json in
  let ep := base64url_encode (Primitives := Toy.prims)
              (json_stringify_payload (Primitives := Toy.prims)
                 (mkPayload "1" 1000 (1000 + TokenService.ttl_ms)%Z)) in
  let sg := TokenService.createSignature (P := Toy.prims) sec (eh ++ "." ++ ep) in
  let first_wrong := replace_at sg 0 "A" in
  let last_wrong := replace_at sg (String.length sg - 1) "A" in
  TokenService.decodeToken (P := Toy.prims) sec (eh ++ "." ++ ep ++ "." ++ first_wrong)
    = Err TokenService.signature_error /\
  TokenService.decodeToken (P := Toy.prims) sec (eh ++ "." ++ ep ++ "." ++ last_wrong)
    = Err TokenService.signature_error /\
  Timing.decodeToken_compare_steps (P := Toy.prims) sec (eh ++ "." ++ ep ++ "." ++ first_wrong)
    = 1 /\
  Timing.decodeToken_compare_steps (P := Toy.prims) sec (eh ++ "." ++ ep ++ "." ++ last_wrong)
    = String.length sg /\
  1 < String.length sg /\
  Timing.verifyPassword_compare_steps (P := Toy.prims) "abc"
    ("00112233445566778899aabbccddeeff:" ++ Toy.zeros64)
  = Timing.verifyPassword_compare_steps (P := Toy.prims) "bcd"
    ("00112233445566778899aabbccddeeff:" ++ Toy.zeros64).
Proof.
  cbv zeta. repeat split; vm_compute; try reflexivity; lia.
Qed.

(** Lookup, update and removal in the insertion-ordered user map. *)
Module MapFacts.
Import UserRepository UserRepositoryOps.

Lemma map_get_In (k : string) (u : User) (m : list (string * User)) :
  map_get k m = Some u -> In (k, u) m.
Proof.
  induction m as [|[k' v] m IH]; simpl; [discriminate|].
  destruct (String.eqb k k') eqn:E.
  - apply String.eqb_eq in E. subst. intros H. injection H as <-. now left.
  - intros H. right. exact (IH H).
Qed.

Lemma map_get_None (k : string) (m : list (string * User)) :
  map_get k m = None <-> ~ In k (map fst m).
Proof.
  induction m as [|[k' v] m IH]; simpl; [tauto|].
  destruct (String.eqb k k') eqn:E.
  - apply String.eqb_eq in E. subst. split; [discriminate|]. intros H. exfalso. apply H. now left.
  - apply String.eqb_neq in E. rewrite IH. split.
    + intros H [H'|H']; [congruence|tauto].
    + tauto.
Qed.

Lemma map_get_NoDup (k : string) (u : User) (m : list (string * User)) :
  NoDup (map fst m) -> In (k, u) m -> map_get k m = Some u.
Proof.
  induction m as [|[k' v] m IH]; simpl; [tauto|].
  intros ND H. inversion ND as [|? ? Hn ND']; subst.
  destruct (String.eqb k k') eqn:E.
  - apply String.eqb_eq in E. subst. destruct H as [H|H]; [congruence|].
    exfalso. apply Hn. apply (in_map fst) in H. exact H.
  - apply String.eqb_neq in E. destruct H as [H|H]; [congruence|]. exact (IH ND' H).
Qed.

Lemma map_set_fresh (k : string) (v : User) (m : list (string * User)) :
  map_get k m = None -> map_set k v m = (m ++ [(k, v)])%list.
Proof.
  induction m as [|[k' v'] m IH]; simpl; [reflexivity|].
  destruct (String.eqb k k'); [discriminate|]. intros H. now rewrite IH.
Qed.

Lemma map_get_set_eq (k : string) (v : User) (m : list (string * User)) :
  map_get k (map_set k v m) = Some v.
Proof.
  induction m as [|[k' v'] m IH]; simpl; [now rewrite String.eqb_refl|].
  destruct (String.eqb k k') eqn:E; simpl; rewrite E; [reflexivity|exact IH].
Qed.

Lemma map_get_set_neq (k k2 : string) (v : User) (m : list (string * User)) :
  k2 <> k -> map_get k2 (map_set k v m) = map_get k2 m.
Proof.
  intros Hne. induction m as [|[k' v'] m IH]; simpl.
  - apply String.eqb_neq in Hne. now rewrite Hne.
  - destruct (String.eqb k k') eqn:E; simpl.
    + apply String.eqb_eq in E. subst. apply String.eqb_neq in Hne. now rewrite Hne.
    + now rewrite IH.
Qed.

(** Overwriting the value at a present key keeps every projection that
    the new value shares with the old one. *)
Lemma map_set_proj {B} (f : User -> B) (k : string) (u0 v : User) (m : list (string * User)) :
  map_get k m = Some u0 -> f v = f u0 ->
  map (fun kv => f (snd kv)) (map_set k v m) = map (fun kv => f (snd kv)) m.
Proof.
  induction m as [|[k' v'] m IH]; simpl; [discriminate|].
  destruct (String.eqb k k').
  - intros H Hf. injection H as <-. simpl. now rewrite Hf.
  - intros H Hf. simpl. now rewrite IH.
Qed.

Lemma map_set_keys (k : string) (u0 v : User) (m : list (string * User)) :
  map_get k m = Some u0 -> map fst (map_set k v m) = map fst m.
Proof.
  induction m as [|[k' v'] m IH]; simpl; [discriminate|].
  destruct (String.eqb k k'); [reflexivity|]. intros H. simpl. now rewrite IH.
Qed.

Lemma map_set_In (k k2 : string) (v u : User) (m : list (string * User)) :
  In (k2, u) (map_set k v m) -> (k2 = k /\ u = v) \/ In (k2, u) m.
Proof.
  induction m as [|[k' v'] m IH]; simpl.
  - intros [H|[]]. injection H as <- <-. now left.
  - destruct (String.eqb k k') eqn:E.
    + apply String.eqb_eq in E. subst. intros [H|H].
      * injection H as <- <-. now left.
      * right. now right.
    + intros [H|H]; [right; now left|]. destruct (IH H) as [H'|H']; [now left|right; now right].
Qed.

Lemma map_delete_In (k : string) (x : string * User) (m : list (string * User)) :
  In x (map_delete k m) -> In x m.
Proof.
  induction m as [|[k' v] m IH]; simpl; [tauto|].
  destruct (String.eqb k k'); [now right|]. intros [H|H]; [now left|right; exact (IH H)].
Qed.

Lemma map_delete_NoDup {B} (f : string * User -> B) (k : string) (m : list (string * User)) :
  NoDup (map f m) -> NoDup (map f (map_delete k m)).
Proof.
  induction m as [|[k' v] m IH]; simpl; [tauto|].
  intros ND. inversion ND as [|? ? Hn ND']; subst.
  destruct (String.eqb k k'); [exact ND'|]. simpl. constructor; [|exact (IH ND')].
  intros Hin. apply Hn. apply in_map_iff in Hin as [x [Ex Hx]].
  apply in_map_iff. exists x. split; [exact Ex|exact (map_delete_In _ _ _ Hx)].
Qed.

Lemma map_get_delete_eq (k : string) (m : list (string * User)) :
  NoDup (map fst m) -> map_get k (map_delete k m) = None.
Proof.
  induction m as [|[k' v] m IH]; simpl; [reflexivity|].
  intros ND. inversion ND as [|? ? Hn ND']; subst.
  destruct (String.eqb k k') eqn:E.
  - apply String.eqb_eq in E. subst. apply map_get_None. exact Hn.
  - simpl. rewrite E. exact (IH ND').
Qed.

Lemma map_get_delete_neq (k k2 : string) (m : list (string * User)) :
  k2 <> k -> map_get k2 (map_delete k m) = map_get k2 m.
Proof.
  intros Hne. induction m as [|[k' v] m IH]; simpl; [reflexivity|].
  destruct (String.eqb k k') eqn:E; simpl.
  - apply String.eqb_eq in E. subst. apply String.eqb_neq in Hne. now rewrite Hne.
  - now rewrite IH.
Qed.

Lemma map_delete_absent (k : string) (m : list (string * User)) :
  map_get k m = None -> map_delete k m = m.
Proof.
  induction m as [|[k' v] m IH]; simpl; [reflexivity|].
  destruct (String.eqb k k'); [discriminate|]. intros H. now rewrite IH.
Qed.

Lemma find_value_None_In (f : User -> bool) (m : list (string * User)) (x : string * User) :
  find_value f m = None -> In x m -> f (snd x) = false.
Proof.
  induction m as [|[k' v] m IH]; simpl; [tauto|].
  destruct (f v) eqn:F; [discriminate|]. intros H [<-|Hx]; [exact F|exact (IH H Hx)].
Qed.

Lemma find_value_Some (f : User -> bool) (m : list (string * User)) (u : User) :
  find_value f m = Some u -> f u = true /\ exists k, In (k, u) m.
Proof.
  induction m as [|[k' v] m IH]; simpl; [discriminate|].
  destruct (f v) eqn:F.
  - intros H. injection H as <-. split; [exact F|]. exists k'. now left.
  - intros H. destruct (IH H) as [Hf [k Hk]]. split; [exact Hf|]. exists k. now right.
Qed.

End MapFacts.

(** [n.toString()] is injective. *)
Module DecimalFacts.

Lemma uint_to_string_inj (d e : Decimal.uint) :
  JsString.uint_to_string d = JsString.uint_to_string e -> d = e.
Proof.
  revert e. induction d; intros [] H; simpl in H; try discriminate;
    try reflexivity; injection H as H; f_equal; auto.
Qed.

Lemma nat_to_string_inj (n m : nat) :
  JsString.nat_to_string n = JsString.nat_to_string m -> n = m.
Proof.
  unfold JsString.nat_to_string. intros H. apply uint_to_string_inj in H.
  rewrite <- (DecimalNat.Unsigned.of_to n), <- (DecimalNat.Unsigned.of_to m), H. reflexivity.
Qed.

End DecimalFacts.

(** The store invariant [Store.store_ok] holds of every reachable world. *)
Module StoreFacts.
Import UserRepository UserRepositoryOps Store MapFacts.

Lemma ok_ext (w w' : World) :
  users w' = users w -> nextId w' = nextId w -> store_ok w -> store_ok w'.
Proof. unfold store_ok, store_wf, unique_accounts, no_roles. intros -> ->. exact (fun H => H). Qed.

Lemma ok_update (w w' : World) (k : string) (u0 u' : User) :
  store_ok w -> map_get k (users w) = Some u0 ->
  id u' = id u0 -> email u' = email u0 -> username u' = username u0 -> roles u' = roles u0 ->
  users w' = map_set k u' (users w) -> nextId w' = nextId w -> store_ok w'.
Proof.
  intros [[ND Hk] [[UE UN] NR]] G Hi He Hn Hr Hu Hn'.
  unfold store_ok, store_wf, unique_accounts, no_roles. rewrite Hu, Hn'.
  rewrite (map_set_keys _ _ _ _ G), (map_set_proj email _ _ _ _ G He),
    (map_set_proj username _ _ _ _ G Hn).
  pose proof (map_get_In _ _ _ G) as I0.
  split; [split; [exact ND|]|split; [split; assumption|]].
  - intros k2 u2 H. destruct (map_set_In _ _ _ _ _ H) as [[-> ->]|H'].
    + destruct (Hk _ _ I0) as [E R]. split; [congruence|exact R].
    + exact (Hk _ _ H').
  - intros k2 u2 H. destruct (map_set_In _ _ _ _ _ H) as [[-> ->]|H'].
    + rewrite Hr. exact (NR _ _ I0).
    + exact (NR _ _ H').
Qed.

Lemma fresh_key (w : World) :
  store_wf w -> map_get (JsString.nat_to_string (nextId w)) (users w) = None.
Proof.
  intros [ND Hk]. apply map_get_None. intros Hin.
  apply in_map_iff in Hin as [[k u] [Ek Hin]]. simpl in Ek. subst k.
  destruct (Hk _ _ Hin) as [_ [n [Hlt E]]].
  apply DecimalFacts.nat_to_string_inj in E. lia.
Qed.

Lemma not_in_map_find {B} (f : User -> B) (eqb : B -> B -> bool)
    (Heq : forall x y, eqb x y = true <-> x = y) (m : list (string * User)) (b : B) :
  find_value (fun v => eqb (f v) b) m = None -> ~ In b (map (fun kv => f (snd kv)) m).
Proof.
  intros H Hin. apply in_map_iff in Hin as [x [Ex Hx]].
  pose proof (find_value_None_In _ _ _ H Hx) as F. simpl in F.
  rewrite Ex in F. assert (T : eqb b b = true) by (apply Heq; reflexivity). congruence.
Qed.

Lemma NoDup_snoc {B} (l : list B) (x : B) : NoDup l -> ~ In x l -> NoDup (l ++ [x]).
Proof.
  intros ND Hx. apply NoDup_app; [exact ND|constructor; [tauto|constructor]|].
  intros y Hy [<-|[]]. exact (Hx Hy).
Qed.

Lemma ok_create (w w' : World) (u : User) :
  store_ok w -> id u = JsString.nat_to_string (nextId w) -> roles u = [] ->
  find_value (fun v => String.eqb (email v) (email u)) (users w) = None ->
  find_value (fun v => String.eqb (username v) (username u)) (users w) = None ->
  users w' = map_set (id u) u (users w) -> nextId w' = S (nextId w) -> store_ok w'.
Proof.
  intros [[ND Hk] [[UE UN] NR]] Hi Hr FE FN Hu Hn.
  assert (Fr : map_get (id u) (users w) = None) by (rewrite Hi; apply fresh_key; split; assumption).
  unfold store_ok, store_wf, unique_accounts, no_roles. rewrite Hu, Hn, (map_set_fresh _ _ _ Fr).
  rewrite !map_app. simpl.
  split; [split|split; [split|]].
  - apply NoDup_snoc; [exact ND|]. apply map_get_None, Fr.
  - intros k2 u2 H. apply in_app_or in H as [H|[H|[]]].
    + destruct (Hk _ _ H) as [E [n [Hlt R]]]. split; [exact E|]. exists n. split; [lia|exact R].
    + injection H as <- <-. split; [reflexivity|]. exists (nextId w). split; [lia|exact Hi].
  - apply NoDup_snoc; [exact UE|]. apply (not_in_map_find email String.eqb String.eqb_eq _ _ FE).
  - apply NoDup_snoc; [exact UN|].
    apply (not_in_map_find username String.eqb String.eqb_eq _ _ FN).
  - intros k2 u2 H. apply in_app_or in H as [H|[H|[]]].
    + exact (NR _ _ H).
    + injection H as <- <-. exact Hr.
Qed.

Lemma ok_delete (w w' : World) (k : string) :
  store_ok w -> users w' = map_delete k (users w) -> nextId w' = nextId w -> store_ok w'.
Proof.
  intros [[ND Hk] [[UE UN] NR]] Hu Hn.
  unfold store_ok, store_wf, unique_accounts, no_roles. rewrite Hu, Hn.
  split; [split|split; [split|]].
  - exact (map_delete_NoDup fst _ _ ND).
  - intros k2 u2 H. exact (Hk _ _ (map_delete_In _ _ _ H)).
  - exact (map_delete_NoDup (fun kv => email (snd kv)) _ _ UE).
  - exact (map_delete_NoDup (fun kv => username (snd kv)) _ _ UN).
  - intros k2 u2 H. exact (NR _ _ (map_delete_In _ _ _ H)).
Qed.

(** A computation that keeps the invariant. *)
Definition upres {A} (m : M A) : Prop := forall w, store_ok w -> store_ok (snd (m w)).

(** A computation that leaves the store and [nextId] alone. *)
Definition ukeeps {A} (m : M A) : Prop :=
  forall w, users (snd (m w)) = users w /\ nextId (snd (m w)) = nextId w.

Lemma ukeeps_upres {A} (m : M A) : ukeeps m -> upres m.
Proof. intros H w Hw. destruct (H w) as [E1 E2]. exact (ok_ext _ _ E1 E2 Hw). Qed.

Lemma ukeeps_ret {A} (a : A) : ukeeps (ret a).
Proof. intros w. split; reflexivity. Qed.
Lemma ukeeps_throw {A} (e : JsError) : ukeeps (@throw A e).
Proof. intros w. split; reflexivity. Qed.
Lemma ukeeps_gets {A} (f : World -> A) : ukeeps (gets f).
Proof. intros w. split; reflexivity. Qed.
Lemma ukeeps_now : ukeeps now_ms.
Proof. intros w. split; reflexivity. Qed.
Lemma ukeeps_random : ukeeps random_hex16.
Proof. intros w. split; reflexivity. Qed.
Lemma ukeeps_lift {A} (r : result A) : ukeeps (TokenService.lift r).
Proof. intros w. split; reflexivity. Qed.
Lemma ukeeps_revoke (t : string) : ukeeps (TokenService.revokeToken t).
Proof. intros w. split; reflexivity. Qed.

Lemma ukeeps_bind {A B} (m : M A) (k : A -> M B) :
  ukeeps m -> (forall a, ukeeps (k a)) -> ukeeps (bind m k).
Proof.
  intros Hm Hk w. unfold bind. destruct (Hm w) as [E1 E2].
  destruct (m w) as [[a|e] w']; simpl in *; [|split; assumption].
  destruct (Hk a w') as [F1 F2]. split; congruence.
Qed.

Lemma ukeeps_catch {A} (m : M A) (h : JsError -> M A) :
  ukeeps m -> (forall e, ukeeps (h e)) -> ukeeps (catch m h).
Proof.
  intros Hm Hh w. unfold catch. destruct (Hm w) as [E1 E2].
  destruct (m w) as [[a|e] w']; simpl in *; [split; assumption|].
  destruct (Hh e w') as [F1 F2]. split; congruence.
Qed.

Lemma upres_bind {A B} (m : M A) (k : A -> M B) :
  upres m -> (forall a, upres (k a)) -> upres (bind m k).
Proof.
  intros Hm Hk w Hw. unfold bind. specialize (Hm w Hw).
  destruct (m w) as [[a|e] w']; simpl in *; [exact (Hk a w' Hm)|exact Hm].
Qed.

Lemma upres_catch {A} (m : M A) (h : JsError -> M A) :
  upres m -> (forall e, upres (h e)) -> upres (catch m h).
Proof.
  intros Hm Hh w Hw. unfold catch. specialize (Hm w Hw).
  destruct (m w) as [[a|e] w']; simpl in *; [exact Hm|exact (Hh e w' Hm)].
Qed.

Create HintDb ukeeps.
Create HintDb upres.
#[export] Hint Resolve ukeeps_ret ukeeps_throw ukeeps_gets ukeeps_now ukeeps_random
  ukeeps_lift ukeeps_revoke : ukeeps.

Ltac ukeeps_tac :=
  repeat (cbv zeta;
    match goal with
    | |- ukeeps (bind _ _) => apply ukeeps_bind; [|intro]
    | |- ukeeps (catch _ _) => apply ukeeps_catch; [|intro]
    | |- ukeeps (match ?x with _ => _ end) => destruct x
    | |- ukeeps (if ?b then _ else _) => destruct b
    | |- _ => solve [eauto with ukeeps]
    end).

Ltac upres_tac :=
  repeat (cbv zeta;
    match goal with
    | |- upres (bind _ _) => apply upres_bind; [|intro]
    | |- upres (catch _ _) => apply upres_catch; [|intro]
    | |- upres (match ?x with _ => _ end) => destruct x
    | |- upres (if ?b then _ else _) => destruct b
    | |- upres _ => solve [apply ukeeps_upres; eauto with ukeeps]
    | |- _ => solve [eauto with upres]
    end).

Section WithPrimitives.
Context {P : Primitives}.

Lemma ukeeps_generate u : ukeeps (TokenService.generateToken u).
Proof. unfold TokenService.generateToken. ukeeps_tac. Qed.
Lemma ukeeps_validate t : ukeeps (TokenService.validateToken t).
Proof. unfold TokenService.validateToken. ukeeps_tac. Qed.
Lemma ukeeps_expiration : ukeeps TokenService.getTokenExpiration.
Proof. unfold TokenService.getTokenExpiration. ukeeps_tac. Qed.
Lemma ukeeps_hash pw : ukeeps (PasswordService.hashPassword pw).
Proof.
  unfold PasswordService.hashPassword, PasswordService.validatePasswordInput. ukeeps_tac.
Qed.
Lemma ukeeps_assignRole uid r : ukeeps (assignRole uid r).
Proof. unfold assignRole, findById. ukeeps_tac. Qed.
Lemma ukeeps_removeRole uid r : ukeeps (removeRole uid r).
Proof. unfold removeRole, findById. ukeeps_tac. Qed.
Lemma ukeeps_auth_validate t : ukeeps (AuthService.validateToken t).
Proof.
  unfold AuthService.validateToken, findById. apply ukeeps_bind; [apply ukeeps_validate|].
  intro. ukeeps_tac.
Qed.
Lemma ukeeps_refresh t : ukeeps (AuthService.refreshToken t).
Proof.
  unfold AuthService.refreshToken, findById. apply ukeeps_bind; [apply ukeeps_validate|].
  intro. ukeeps_tac; (apply ukeeps_generate || apply ukeeps_expiration).
Qed.
Lemma ukeeps_authenticate h : ukeeps (AuthMiddleware.authenticate h).
Proof.
  unfold AuthMiddleware.authenticate, findById. ukeeps_tac. apply ukeeps_validate.
Qed.

#[local] Hint Resolve ukeeps_generate ukeeps_validate ukeeps_expiration ukeeps_hash
  ukeeps_assignRole ukeeps_removeRole ukeeps_auth_validate ukeeps_refresh
  ukeeps_authenticate : ukeeps.

Lemma ukeeps_assignRoles uid rs : ukeeps (AdminController.assignRoles uid rs).
Proof. induction rs as [|r rs IH]; simpl; ukeeps_tac. Qed.
#[local] Hint Resolve ukeeps_assignRoles : ukeeps.

Lemma upres_updateLastLogin uid : upres (updateLastLogin uid).
Proof.
  intros w Hw. unfold updateLastLogin, findById, bind, gets, throw. simpl.
  destruct (map_get uid (users w)) as [u|] eqn:G; simpl; [|exact Hw].
  match goal with |- store_ok ?w2 => refine (ok_update w w2 uid u _ Hw G _ _ _ _ eq_refl eq_refl) end; reflexivity.
Qed.

Lemma upres_updatePassword uid h : upres (updatePassword uid h).
Proof.
  intros w Hw. unfold updatePassword, findById, bind, gets, throw. simpl.
  destruct (map_get uid (users w)) as [u|] eqn:G; simpl; [|exact Hw].
  match goal with |- store_ok ?w2 => refine (ok_update w w2 uid u _ Hw G _ _ _ _ eq_refl eq_refl) end; reflexivity.
Qed.

Lemma upres_setActive uid b : upres (setActive uid b).
Proof.
  intros w Hw. unfold setActive, findById, bind, gets, throw. simpl.
  destruct (map_get uid (users w)) as [u|] eqn:G; simpl; [|exact Hw].
  match goal with |- store_ok ?w2 => refine (ok_update w w2 uid u _ Hw G _ _ _ _ eq_refl eq_refl) end; reflexivity.
Qed.

Lemma upres_delete uid : upres (delete uid).
Proof. intros w Hw. apply (ok_delete w _ uid Hw); reflexivity. Qed.

#[local] Hint Resolve upres_updateLastLogin upres_updatePassword upres_setActive
  upres_delete : upres.

(** [create] after the two lookups that find neither the email nor the
    username. *)
Lemma create_checked (d : UserRegistrationData) (h : string) {B} (k : User -> M B) (w : World) :
  store_ok w ->
  find_value (fun u => String.eqb (email u) (reg_email d)) (users w) = None ->
  find_value (fun u => String.eqb (username u) (reg_username d)) (users w) = None ->
  (forall u, upres (k u)) ->
  store_ok (snd (bind (create d h) k w)).
Proof.
  intros Hw FE FN Hk. unfold bind at 1. unfold create, bind, gets, modify, now_ms, ret. simpl.
  apply Hk.
  apply (ok_create w _ (mkUser (JsString.nat_to_string (nextId w)) (reg_email d)
    (reg_username d) h [] (reg_firstName d) (reg_lastName d) (reg_phone d) None
    (clock w (tick w)) (clock w (tick w)) true) Hw); try reflexivity; assumption.
Qed.

Lemma upres_register d : upres (AuthService.register d).
Proof.
  intros w Hw. unfold AuthService.register, findByEmail, findByUsername.
  destruct (PasswordService.isValid _); simpl; [|exact Hw].
  unfold bind at 1, gets. simpl.
  destruct (find_value (fun u => String.eqb (email u) (reg_email d)) (users w)) eqn:FE;
    [exact Hw|].
  unfold bind at 1. simpl.
  destruct (find_value (fun u => String.eqb (username u) (reg_username d)) (users w)) eqn:FN;
    [exact Hw|].
  unfold bind at 1.
  destruct (ukeeps_hash (reg_password d) w) as [U1 N1].
  destruct (PasswordService.hashPassword (reg_password d) w) as [[h|e] w1]; cbn [fst snd] in U1, N1; cbv beta iota;
    [|exact (ok_ext _ _ U1 N1 Hw)].
  apply create_checked; [exact (ok_ext _ _ U1 N1 Hw)|rewrite U1; exact FE|rewrite U1; exact FN|].
  intros u. upres_tac.
Qed.

Lemma upres_login d : upres (AuthService.login d).
Proof. unfold AuthService.login, findByEmail. upres_tac. Qed.

Lemma upres_logout t : upres (AuthService.logout t).
Proof. apply ukeeps_upres, ukeeps_revoke. Qed.

Lemma upres_change_password ru body : upres (UserController.updatePassword ru body).
Proof. unfold UserController.updatePassword, findById. upres_tac. Qed.

Lemma upres_admin_create d rs : upres (AdminController.createUser_checked d rs).
Proof.
  unfold AdminController.createUser_checked. apply upres_catch; [|intro; upres_tac].
  intros w Hw. unfold findByEmail, findByUsername.
  unfold bind at 1, gets. cbv beta iota.
  destruct (find_value (fun u => String.eqb (email u) (reg_email d)) (users w)) eqn:FE;
    [exact Hw|].
  unfold bind at 1. cbv beta iota.
  destruct (find_value (fun u => String.eqb (username u) (reg_username d)) (users w)) eqn:FN;
    [exact Hw|].
  destruct (PasswordService.isValid (PasswordService.validatePasswordStrength (reg_password d)));
    cbn [negb]; cbv beta iota; [|exact Hw].
  unfold bind at 1.
  destruct (ukeeps_hash (reg_password d) w) as [U1 N1].
  destruct (PasswordService.hashPassword (reg_password d) w) as [[h|e] w1];
    cbn [fst snd] in U1, N1; cbv beta iota; [|exact (ok_ext _ _ U1 N1 Hw)].
  apply create_checked; [exact (ok_ext _ _ U1 N1 Hw)|rewrite U1; exact FE|rewrite U1; exact FN|].
  intro u. upres_tac.
Qed.

Lemma upres_admin_delete uid : upres (AdminController.deleteUser uid).
Proof. unfold AdminController.deleteUser, findById. upres_tac. Qed.

Lemma ok_run_op (o : Op) (w : World) : store_ok w -> store_ok (run_op o w).
Proof.
  destruct o as [d|d|t|t|t|h|u|t|t|]; simpl; intros Hw.
  - exact (upres_register d w Hw).
  - exact (upres_login d w Hw).
  - exact (ukeeps_upres _ (ukeeps_auth_validate t) w Hw).
  - exact (ukeeps_upres _ (ukeeps_refresh t) w Hw).
  - exact (upres_logout t w Hw).
  - exact (ukeeps_upres _ (ukeeps_authenticate h) w Hw).
  - exact (ukeeps_upres _ (ukeeps_generate u) w Hw).
  - exact (ukeeps_upres _ (ukeeps_validate t) w Hw).
  - exact (ukeeps_upres _ (ukeeps_revoke t) w Hw).
  - exact (ukeeps_upres _ ukeeps_expiration w Hw).
Qed.

Lemma ok_run_ext (o : ExtOp) (w : World) : store_ok w -> store_ok (run_ext o w).
Proof.
  destruct o; simpl; intros Hw.
  - exact (ok_run_op o w Hw).
  - exact (upres_updatePassword uid hashed w Hw).
  - exact (upres_setActive uid active w Hw).
  - exact (ukeeps_upres _ (ukeeps_assignRole uid roleId) w Hw).
  - exact (ukeeps_upres _ (ukeeps_removeRole uid roleId) w Hw).
  - exact (upres_delete uid w Hw).
  - exact (upres_change_password reqUser body w Hw).
  - exact (upres_admin_create d roleIds w Hw).
  - exact (upres_admin_delete uid w Hw).
Qed.

Lemma ok_run_exts (os : list ExtOp) (w : World) : store_ok w -> store_ok (run_exts os w).
Proof.
  revert w. induction os as [|o os IH]; simpl; intros w Hw; [exact Hw|].
  apply IH, ok_run_ext, Hw.
Qed.

End WithPrimitives.

Lemma ok_empty (w : World) : users w = [] -> store_ok w.
Proof.
  unfold store_ok, store_wf, unique_accounts, no_roles. intros ->. simpl.
  split; [split; [constructor|tauto]|split; [split; constructor|tauto]].
Qed.

End StoreFacts.

Module GuardFacts.
Import UserRepository AuthMiddleware.
Section WithPrimitives.
Context {P : Primitives}.


End WithPrimitives.
End GuardFacts.

Module RepoFacts.
Import UserRepository UserRepositoryOps MapFacts.

Lemma set_users_same (w : World) : set_users (users w) w = w.
Proof. destruct w; reflexivity. Qed.

Lemma js_slice_nonneg {A} (l : list A) (o k : Z) :
  (0 <= o)%Z -> (0 <= k)%Z ->
  js_slice l o (Some (o + k)%Z) = firstn (Z.to_nat k) (skipn (Z.to_nat o) l).
Proof.
  intros Ho Hk. unfold js_slice, rel_index.
  destruct (Z.ltb o 0) eqn:E1; [apply Z.ltb_lt in E1; lia|].
  destruct (Z.ltb (o + k) 0) eqn:E2; [apply Z.ltb_lt in E2; lia|].
  set (n := Z.of_nat (length l)).
  destruct (Z.le_gt_cases o n) as [Hon|Hon].
  - rewrite (Z.min_l o n) by exact Hon.
    destruct (Z.le_gt_cases (o + k) n) as [H|H].
    + rewrite Z.min_l by exact H. f_equal. lia.
    + rewrite Z.min_r by lia.
      rewrite !firstn_all2; [reflexivity| |].
      * rewrite length_skipn. lia.
      * rewrite length_skipn. lia.
  - rewrite !Z.min_r by lia. replace (n - n)%Z with 0%Z by lia. simpl.
    rewrite skipn_all2 by lia. destruct (Z.to_nat k); reflexivity.
Qed.

Lemma js_slice_open {A} (l : list A) (o : Z) :
  (0 <= o)%Z -> js_slice l o None = skipn (Z.to_nat o) l.
Proof.
  intros Ho. unfold js_slice, rel_index.
  destruct (Z.ltb o 0) eqn:E1; [apply Z.ltb_lt in E1; lia|].
  set (n := Z.of_nat (length l)).
  destruct (Z.le_gt_cases o n) as [Hon|Hon].
  - rewrite Z.min_l by exact Hon. apply firstn_all2. rewrite length_skipn. lia.
  - rewrite Z.min_r by lia. replace (n - n)%Z with 0%Z by lia. simpl.
    rewrite skipn_all2 by lia. reflexivity.
Qed.

Lemma js_slice_from_end {A} (l : list A) (k : Z) :
  (0 < k)%Z -> (k <= Z.of_nat (length l))%Z ->
  js_slice l (- k)%Z None = skipn (length l - Z.to_nat k) l.
Proof.
  intros H0 H1. unfold js_slice, rel_index.
  destruct (Z.ltb (- k) 0) eqn:E1; [|apply Z.ltb_ge in E1; lia].
  rewrite Z.max_l by lia.
  replace (Z.to_nat (Z.of_nat (length l) + - k)) with (length l - Z.to_nat k) by lia.
  apply firstn_all2. rewrite length_skipn. lia.
Qed.

End RepoFacts.

(** X1: starting from the empty store of a new repository, after any
    sequence of calls every stored user sits under its own [id], the ids
    are distinct decimal numbers below [nextId], no two users share an
    email or a username, and no user holds a role. *)
Theorem store_invariant_reachable {P : Primitives} (os : list ExtOp) (w : World) :
  users w = [] ->
  let w' := run_exts os w in
  NoDup (map fst (users w')) /\
  (forall k u, In (k, u) (users w') ->
     id u = k /\ exists n, n < nextId w' /\ k = JsString.nat_to_string n) /\
  NoDup (map (fun kv => email (snd kv)) (users w')) /\
  NoDup (map (fun kv => username (snd kv)) (users w')) /\
  (forall k u, In (k, u) (users w') -> roles u = []).
Proof.
  intros H. cbv zeta.
  destruct (StoreFacts.ok_run_exts os w (StoreFacts.ok_empty w H)) as [[A B] [[C D] E]].
  auto.
Qed.


(** X3: [create] under the store invariant stores the new user under a
    fresh key [String(nextId)]: the entry is appended, nothing else
    changes, [nextId] grows by one, and [findById] then returns the user,
    which has no roles, is active and has [createdAt = updatedAt]. *)
Theorem create_then_find {P : Primitives} (d : UserRegistrationData) (h : string)
    (w w' : World) (u : User) :
  Store.store_wf w -> UserRepository.create d h w = (Ok u, w') ->
  id u = JsString.nat_to_string (nextId w) /\
  UserRepository.map_get (id u) (users w) = None /\
  users w' = (users w ++ [(id u, u)])%list /\ nextId w' = S (nextId w) /\
  fst (UserRepository.findById (id u) w') = Ok (Some u) /\
  roles u = [] /\ isActive u = true /\ createdAt u = updatedAt u.
Proof.
  intros Hw Hc. unfold UserRepository.create, bind, gets, modify, now_ms, ret in Hc.
  cbn in Hc. injection Hc as <- <-. cbn.
  pose proof (StoreFacts.fresh_key w Hw) as F.
  rewrite (MapFacts.map_set_fresh _ _ _ F).
  repeat split; try reflexivity; [exact F|].
  unfold UserRepository.findById, gets. cbn.
  f_equal. f_equal.
  rewrite <- (MapFacts.map_set_fresh _ _ _ F). apply MapFacts.map_get_set_eq.
Qed.

(** X4: for an id that is not stored, [updatePassword], [setActive],
    [assignRole] and [removeRole] throw [Error('User not found')] and
    leave the world as it was, while [delete] succeeds and also changes
    nothing. *)
Theorem repository_missing_user {P : Primitives} (uid h roleId : string) (b : bool)
    (w : World) :
  UserRepository.map_get uid (users w) = None ->
  UserRepositoryOps.updatePassword uid h w = (Err (Error "User not found"), w) /\
  UserRepositoryOps.setActive uid b w = (Err (Error "User not found"), w) /\
  UserRepositoryOps.assignRole uid roleId w = (Err (Error "User not found"), w) /\
  UserRepositoryOps.removeRole uid roleId w = (Err (Error "User not found"), w) /\
  UserRepositoryOps.delete uid w = (Ok tt, w).
Proof.
  intros G.
  unfold UserRepositoryOps.updatePassword, UserRepositoryOps.setActive,
    UserRepositoryOps.assignRole, UserRepositoryOps.removeRole, UserRepositoryOps.delete,
    UserRepository.findById, bind, gets, modify. rewrite G.
  rewrite (MapFacts.map_delete_absent _ _ G), RepoFacts.set_users_same.
  repeat split; reflexivity.
Qed.

(** X5: for a stored user, [updatePassword] and [setActive] replace the
    record under its key by a copy with the new [hashedPassword] (resp.
    [isActive]) and [updatedAt] set to the clock reading, other keys
    untouched; [assignRole] and [removeRole] succeed and change nothing,
    so the user's roles never change. *)
Theorem repository_update_present {P : Primitives} (uid h roleId : string) (b : bool)
    (w : World) (u : User) :
  UserRepository.map_get uid (users w) = Some u ->
  let now := clock w (tick w) in
  (let w' := snd (UserRepositoryOps.updatePassword uid h w) in
   fst (UserRepositoryOps.updatePassword uid h w) = Ok tt /\
   UserRepository.map_get uid (users w') =
     Some (mkUser (id u) (email u) (username u) h (roles u) (firstName u) (lastName u)
             (phone u) (lastLoginAt u) (createdAt u) now (isActive u)) /\
   forall k, k <> uid -> UserRepository.map_get k (users w') = UserRepository.map_get k (users w)) /\
  (let w' := snd (UserRepositoryOps.setActive uid b w) in
   fst (UserRepositoryOps.setActive uid b w) = Ok tt /\
   UserRepository.map_get uid (users w') =
     Some (mkUser (id u) (email u) (username u) (hashedPassword u) (roles u) (firstName u)
             (lastName u) (phone u) (lastLoginAt u) (createdAt u) now b) /\
   forall k, k <> uid -> UserRepository.map_get k (users w') = UserRepository.map_get k (users w)) /\
  UserRepositoryOps.assignRole uid roleId w = (Ok tt, w) /\
  UserRepositoryOps.removeRole uid roleId w = (Ok tt, w).
Proof.
  intros G. cbv zeta.
  unfold UserRepositoryOps.updatePassword, UserRepositoryOps.setActive,
    UserRepositoryOps.assignRole, UserRepositoryOps.removeRole,
    UserRepository.findById, bind, gets, modify, now_ms, ret. rewrite G. cbn [fst snd users set_users set_tick].
  repeat split; try reflexivity;
    try apply MapFacts.map_get_set_eq; intros k Hk; apply MapFacts.map_get_set_neq, Hk.
Qed.

(** X6: under the store invariant, after [delete(uid)] no user is found
    under [uid] and every other lookup is unchanged. *)
Theorem delete_then_find {P : Primitives} (uid : string) (w : World) :
  Store.store_wf w ->
  let w' := snd (UserRepositoryOps.delete uid w) in
  UserRepository.map_get uid (users w') = None /\
  forall k, k <> uid -> UserRepository.map_get k (users w') = UserRepository.map_get k (users w).
Proof.
  intros [ND _]. cbv zeta. unfold UserRepositoryOps.delete, modify. cbn [snd users set_users].
  split; [apply MapFacts.map_get_delete_eq, ND|].
  intros k Hk. apply MapFacts.map_get_delete_neq, Hk.
Qed.

(** X7: [findAll(limit, offset)] lists the users in insertion order:
    with no limit (or limit 0) and offset [o >= 0] it returns all users
    from position [o]; with limit [l > 0] at most [l] of them; a negative
    offset [-k] with no limit returns the last [k] users; and
    [findAll(1, -1)] returns no user at all, whatever the store holds. *)
Theorem findAll_slices {P : Primitives} (w : World) :
  let all := map snd (users w) in
  (forall o, (0 <= o)%Z ->
     fst (UserRepositoryOps.findAll None (Some o) w) = Ok (skipn (Z.to_nat o) all) /\
     fst (UserRepositoryOps.findAll (Some 0%Z) (Some o) w) = Ok (skipn (Z.to_nat o) all)) /\
  fst (UserRepositoryOps.findAll None None w) = Ok all /\
  (forall l o, (0 <= o)%Z -> (0 < l)%Z ->
     fst (UserRepositoryOps.findAll (Some l) (Some o) w) =
       Ok (firstn (Z.to_nat l) (skipn (Z.to_nat o) all))) /\
  (forall k, (0 < k)%Z -> (k <= Z.of_nat (length all))%Z ->
     fst (UserRepositoryOps.findAll None (Some (- k)%Z) w) =
       Ok (skipn (length all - Z.to_nat k) all)) /\
  fst (UserRepositoryOps.findAll (Some 1%Z) (Some (-1)%Z) w) = Ok [].
Proof.
  cbv zeta. unfold UserRepositoryOps.findAll, gets. cbn [fst].
  split; [|split; [|split; [|split]]].
  - intros o Ho. split; f_equal; apply RepoFacts.js_slice_open, Ho.
  - f_equal. apply (RepoFacts.js_slice_open _ 0). lia.
  - intros l o Ho Hl. destruct (Z.eqb l 0) eqn:E; [apply Z.eqb_eq in E; lia|].
    f_equal. apply RepoFacts.js_slice_nonneg; lia.
  - intros k Hk Hn. f_equal. apply RepoFacts.js_slice_from_end; assumption.
  - f_equal. unfold UserRepositoryOps.js_slice, UserRepositoryOps.rel_index. cbn.
    set (n := Z.of_nat (length (map snd (users w)))).
    replace (Z.to_nat (Z.min 0 n - Z.max (n + -1) 0)) with 0 by lia. reflexivity.
Qed.

Module SplitFacts.
Import StringFacts.

Lemma join_cons (sep x : string) (xs : list string) :
  xs <> [] -> JsString.join sep (x :: xs) = x ++ sep ++ JsString.join sep xs.
Proof. destruct xs; [congruence|reflexivity]. Qed.

(** Joining the pieces of [s.split(c)] with [c] gives [s] back. *)
Lemma join_split (c : ascii) (s : string) :
  JsString.join (String c EmptyString) (JsString.split c s) = s.
Proof.
  induction s as [|a s IH]; [reflexivity|]. cbn [JsString.split].
  destruct (Ascii.eqb a c) eqn:E.
  - apply Ascii.eqb_eq in E. subst.
    rewrite join_cons by apply split_never_nil. rewrite IH. reflexivity.
  - destruct (JsString.split c s) as [|x xs] eqn:S; [destruct (split_never_nil c s S)|].
    destruct xs as [|y ys]; cbn in IH |- *; rewrite <- IH; reflexivity.
Qed.

Lemma split_pieces_free (c : ascii) (s x : string) :
  In x (JsString.split c s) -> JsString.free_of c x = true.
Proof.
  revert x. induction s as [|a s IH]; intros x; cbn [JsString.split].
  - intros [<-|[]]. reflexivity.
  - destruct (Ascii.eqb a c) eqn:E.
    + intros [<-|H]; [reflexivity|exact (IH _ H)].
    + destruct (JsString.split c s) as [|y ys] eqn:S; [destruct (split_never_nil c s S)|].
      intros [<-|H].
      * cbn. rewrite E. apply IH. now left.
      * apply IH. now right.
Qed.

End SplitFacts.

(** X8: [extractToken] returns [t] exactly when the [Authorization]
    header is ["Bearer "] followed by [t] and [t] contains no space; in
    particular the header ["Bearer "] yields the empty token. *)
Theorem extractToken_iff (h t : string) :
  AuthMiddleware.extractToken (Some h) = Some t <->
  h = "Bearer " ++ t /\ JsString.free_of " " t = true.
Proof.
  unfold AuthMiddleware.extractToken. split.
  - destruct (JsString.split " " h) as [|s [|t' [|x xs]]] eqn:S; try discriminate.
    destruct (String.eqb s "Bearer") eqn:B; [|discriminate]. intros E. injection E as <-.
    apply String.eqb_eq in B. subst s.
    pose proof (SplitFacts.join_split " " h) as J. rewrite S in J. cbn in J.
    split; [rewrite <- J; reflexivity|].
    apply (SplitFacts.split_pieces_free " " h). rewrite S. right. now left.
  - intros [-> Ht].
    change ("Bearer " ++ t) with ("Bearer" ++ String " " t).
    rewrite StringFacts.split_app by reflexivity. rewrite StringFacts.split_free by exact Ht.
    reflexivity.
Qed.

(** X9: a token refreshed within the millisecond it was issued comes back
    unchanged: if [tok] is [createToken] of a payload [(uid, t, t + 24h)]
    and the refresh reads the clock value [t] for the new token, the
    returned token is [tok] itself (the store invariant gives [id u = uid]). *)
Theorem refresh_same_instant {P : Primitives} (HP : TokenPrimitivesOK P)
    (w w' : World) (uid : string) (t : Z) (r : AuthenticationResult) :
  Store.store_wf w ->
  clock w (S (tick w)) = t ->
  AuthService.refreshToken
    (TokenService.createToken (secret w) (mkPayload uid t (t + TokenService.ttl_ms)%Z)) w
    = (Ok r, w') ->
  token r = TokenService.createToken (secret w) (mkPayload uid t (t + TokenService.ttl_ms)%Z).
Proof.
  intros [_ Hk] Ht H.
  destruct (FlowFacts.refresh_ok _ _ _ _ H) as [u [p [_ [D [_ [G [_ [-> _]]]]]]]].
  rewrite (TokenFacts.decode_created HP) in D. injection D as <-.
  cbn [userId] in G. destruct (Hk _ _ (MapFacts.map_get_In _ _ _ G)) as [Hid _].
  cbn [token]. rewrite Hid, Ht. reflexivity.
Qed.

(** X10: [deleteUser] of the admin controller answers 404
    "User not found: <id>" and changes nothing for an unknown id; for a
    stored user it answers 200, the user is gone, no token is revoked, and
    from then on [authenticate] answers 401 "Invalid authentication token"
    to any bearer token that still validates to that id. *)
Theorem admin_delete_user {P : Primitives} (uid : string) (w : World) :
  Store.store_wf w ->
  (UserRepository.map_get uid (users w) = None ->
     AdminController.deleteUser uid w = (Ok (Http.Failure 404 ("User not found: " ++ uid) None), w)) /\
  (forall u, UserRepository.map_get uid (users w) = Some u ->
     let w' := snd (AdminController.deleteUser uid w) in
     fst (AdminController.deleteUser uid w) = Ok (Http.Success 200 "User deleted successfully") /\
     UserRepository.map_get uid (users w') = None /\ revokedTokens w' = revokedTokens w /\
     forall hdr t, AuthMiddleware.extractToken hdr = Some t -> t <> "" ->
       fst (TokenService.validateToken t w') = Ok uid ->
       fst (AuthMiddleware.authenticate hdr w') =
         Ok (AuthMiddleware.Status 401 "Invalid authentication token")).
Proof.
  intros [ND _]. split.
  - intros G. unfold AdminController.deleteUser, catch, UserRepository.findById, bind, gets.
    rewrite G. reflexivity.
  - intros u G. cbv zeta.
    assert (E : AdminController.deleteUser uid w =
                (Ok (Http.Success 200 "User deleted successfully"),
                 set_users (UserRepositoryOps.map_delete uid (users w)) w))
      by (unfold AdminController.deleteUser, catch, UserRepository.findById, bind, gets;
          rewrite G; reflexivity).
    rewrite E. cbn [fst snd users set_users revokedTokens].
    assert (Hd : UserRepository.map_get uid (UserRepositoryOps.map_delete uid (users w)) = None)
      by (apply MapFacts.map_get_delete_eq, ND).
    split; [reflexivity|]. split; [exact Hd|]. split; [reflexivity|].
    intros hdr t Ex Hne V.
    unfold AuthMiddleware.authenticate, catch, UserRepository.findById, bind, gets, ret.
    rewrite Ex. apply String.eqb_neq in Hne. rewrite Hne.
    destruct (TokenService.validateToken t _) as [[uid'|e] w1] eqn:V'; cbn [fst] in V;
      [|discriminate].
    injection V as ->.
    destruct (TokenFacts.validate_ok _ _ _ _ V') as [_ [p [_ [_ [_ ->]]]]].
    cbn [users set_tick set_users]. rewrite Hd. reflexivity.
Qed.

Module ControllerFacts.
Import UserRepository.
Section WithPrimitives.
Context {P : Primitives}.

Lemma handleError_Error {A} (m : string) :
  @UserController.handleError A (Error m) = Http.Failure 400 m None.
Proof. reflexivity. Qed.

Lemma handleError_named_Error {A} (e : JsError) :
  name e = "Error" -> @UserController.handleError A e = Http.Failure 400 (message e) None.
Proof. destruct e as [n m]. cbn. intros ->. reflexivity. Qed.

(** Every error [TokenService.validateToken] throws is a plain [Error]. *)
Lemma validate_error_name (t : string) (w w1 : World) (e : JsError) :
  TokenService.validateToken t w = (Err e, w1) -> name e = "Error".
Proof.
  unfold TokenService.validateToken, bind, gets, throw, ret, TokenService.lift, now_ms.
  cbn [fst snd].
  destruct (existsb (String.eqb t) (revokedTokens w)); [intros H; inversion H; reflexivity|].
  unfold TokenService.decodeToken.
  destruct (JsString.split "." t) as [|a [|b [|c [|x xs]]]]; cbn;
    try (intros H; inversion H; reflexivity).
  destruct (negb _); [intros H; inversion H; reflexivity|].
  destruct (json_parse_payload _); [|intros H; inversion H; reflexivity].
  destruct (Z.gtb _ _); intros H; inversion H; reflexivity.
Qed.

End WithPrimitives.

(** [!v || typeof v !== 'string'] is false only for a non-empty string. *)
Lemma required_string_Some (v : Js.JsVal) (t : string) :
  UserController.required_string v = Some t <-> v = Js.JStr t /\ t <> "".
Proof.
  unfold UserController.required_string.
  destruct v as [| |b|n|s|xs|fs]; cbn; try (destruct b); try (destruct (negb (Z.eqb n 0)));
    cbn; try (split; [discriminate|intros [H _]; discriminate]).
  destruct (String.eqb s "") eqn:E; cbn.
  - apply String.eqb_eq in E. subst. split; [discriminate|]. intros [H1 H2]. injection H1 as <-.
    contradiction.
  - apply String.eqb_neq in E. split.
    + intros H. injection H as <-. auto.
    + intros [H _]. injection H as <-. reflexivity.
Qed.

End ControllerFacts.

(** X11: the login endpoint answers 400 with the validation message when
    the body lacks a non-empty string [email] or [password]; 401
    "Invalid email or password" both for an unknown email and for a wrong
    password; and 400 "User account is deactivated" for a deactivated
    account with the right password.  None of these changes the world. *)
Theorem login_endpoint {P : Primitives} (body : Js.Obj) (w : World) :
  (UserController.required_string (Js.get body "email") = None ->
     UserController.login body w = (Ok (Http.Failure 400 "Valid email is required" None), w)) /\
  (forall e, UserController.required_string (Js.get body "email") = Some e ->
     UserController.required_string (Js.get body "password") = None ->
     UserController.login body w = (Ok (Http.Failure 400 "Valid password is required" None), w)) /\
  (forall d, UserController.validateLoginData body = Ok d ->
     let found := UserRepository.find_value (fun u => String.eqb (email u) (login_email d)) (users w) in
     ((found = None \/
       exists u, found = Some u /\
         PasswordService.verifyPassword (login_password d) (hashedPassword u) = false) ->
      UserController.login body w = (Ok (Http.Failure 401 "Invalid email or password" None), w)) /\
     (forall u, found = Some u ->
        PasswordService.verifyPassword (login_password d) (hashedPassword u) = true ->
        isActive u = false ->
        UserController.login body w = (Ok (Http.Failure 400 "User account is deactivated" None), w))).
Proof.
  split; [|split].
  - intros H. unfold UserController.login, UserController.validateLoginData, catch, bind,
      TokenService.lift. rewrite H. reflexivity.
  - intros e He H. unfold UserController.login, UserController.validateLoginData, catch, bind,
      TokenService.lift. rewrite He, H. reflexivity.
  - intros d Hd. cbv zeta.
    unfold UserController.login, catch, bind at 2, TokenService.lift. rewrite Hd.
    unfold AuthService.login, UserRepository.findByEmail, bind, gets. cbn [fst snd].
    split.
    + intros [->|[u [-> V]]]; [reflexivity|]. rewrite V. reflexivity.
    + intros u -> V A. rewrite V, A. reflexivity.
Qed.

(** X12: the refresh endpoint answers 400 "Token is required" when the
    body's [token] is missing, empty or not a string; 400 with the token
    service's message ("Token has been revoked", "Token has expired",
    "Invalid token format", ...) when validation fails; 404
    "User not found: <id>" when the token's user no longer exists; and
    400 "User account is deactivated" for a deactivated user. *)
Theorem refresh_endpoint {P : Primitives} (body : Js.Obj) (w : World) :
  (UserController.required_string (Js.get body "token") = None ->
     UserController.refreshToken body w = (Ok (Http.Failure 400 "Token is required" None), w)) /\
  (forall t e w1, UserController.required_string (Js.get body "token") = Some t ->
     TokenService.validateToken t w = (Err e, w1) ->
     UserController.refreshToken body w = (Ok (Http.Failure 400 (message e) None), w1)) /\
  (forall t uid w1, UserController.required_string (Js.get body "token") = Some t ->
     TokenService.validateToken t w = (Ok uid, w1) ->
     UserRepository.map_get uid (users w) = None ->
     UserController.refreshToken body w =
       (Ok (Http.Failure 404 ("User not found: " ++ uid) None), w1)) /\
  (forall t uid w1 u, UserController.required_string (Js.get body "token") = Some t ->
     TokenService.validateToken t w = (Ok uid, w1) ->
     UserRepository.map_get uid (users w) = Some u -> isActive u = false ->
     UserController.refreshToken body w =
       (Ok (Http.Failure 400 "User account is deactivated" None), w1)).
Proof.
  unfold UserController.refreshToken, catch. split; [|split; [|split]].
  - intros H. rewrite H. reflexivity.
  - intros t e w1 H V. rewrite H. unfold AuthService.refreshToken, bind at 2. unfold bind at 1.
    rewrite V. cbn [fst snd].
    rewrite (ControllerFacts.handleError_named_Error e (ControllerFacts.validate_error_name _ _ _ _ V)).
    reflexivity.
  - intros t uid w1 H V G. rewrite H. unfold AuthService.refreshToken, bind at 2. unfold bind at 1.
    rewrite V. destruct (TokenFacts.validate_ok _ _ _ _ V) as [_ [p [_ [_ [_ ->]]]]].
    unfold UserRepository.findById, bind, gets. cbn [users set_tick]. rewrite G. reflexivity.
  - intros t uid w1 u H V G A. rewrite H. unfold AuthService.refreshToken, bind at 2.
    unfold bind at 1.
    rewrite V. destruct (TokenFacts.validate_ok _ _ _ _ V) as [_ [p [_ [_ [_ ->]]]]].
    unfold UserRepository.findById, bind, gets. cbn [users set_tick]. rewrite G, A. reflexivity.
Qed.

(** X13: the logout endpoint answers 400 "Token is required" (changing
    nothing) unless the body's [token] is a non-empty string; any such
    string, whether or not it was ever issued, gets 200 "Logged out
    successfully" and is added to the revocation set, after which
    [validateToken] rejects it with "Token has been revoked". *)
Theorem logout_endpoint {P : Primitives} (body : Js.Obj) (w : World) :
  (UserController.required_string (Js.get body "token") = None ->
     UserController.logout body w = (Ok (Http.Failure 400 "Token is required" None), w)) /\
  (forall t, UserController.required_string (Js.get body "token") = Some t ->
     t <> "" /\
     UserController.logout body w =
       (Ok (Http.Success 200 "Logged out successfully"),
        set_revoked (TokenService.set_add t (revokedTokens w)) w) /\
     fst (TokenService.validateToken t (snd (UserController.logout body w))) =
       Err TokenService.revoked_error).
Proof.
  unfold UserController.logout, catch. split.
  - intros H. rewrite H. reflexivity.
  - intros t H. rewrite H.
    assert (Ht : t <> "").
    { exact (proj2 (proj1 (ControllerFacts.required_string_Some _ _) H)). }
    split; [exact Ht|]. split; [reflexivity|].
    cbn [snd]. unfold bind at 1. cbn [snd AuthService.logout].
    rewrite (TokenFacts.validate_revoked t); [reflexivity|].
    exact (TokenFacts.revoke_adds t w).
Qed.

(** Fields of the world that a computation leaves alone. *)
Module FieldFacts.
Import UserRepository UserRepositoryOps.

Section Field.
Context {B : Type} (f : World -> B).

(** [f] does not see the clocks, the random stream, the store nor
    [nextId]. *)
Definition frame : Prop :=
  (forall n w, f (set_tick n w) = f w) /\ (forall n w, f (set_rtick n w) = f w) /\
  (forall u w, f (set_users u w) = f w) /\ (forall n w, f (set_nextId n w) = f w).

Definition fkeeps {A} (m : M A) : Prop := forall w, f (snd (m w)) = f w.

Variable Hf : frame.

Lemma fkeeps_ret {A} (a : A) : fkeeps (ret a).
Proof. intros w. reflexivity. Qed.
Lemma fkeeps_throw {A} (e : JsError) : fkeeps (@throw A e).
Proof. intros w. reflexivity. Qed.
Lemma fkeeps_gets {A} (g : World -> A) : fkeeps (gets g).
Proof. intros w. reflexivity. Qed.
Lemma fkeeps_lift {A} (r : result A) : fkeeps (TokenService.lift r).
Proof. intros w. reflexivity. Qed.
Lemma fkeeps_now : fkeeps now_ms.
Proof. intros w. apply (proj1 Hf). Qed.
Lemma fkeeps_random : fkeeps random_hex16.
Proof. intros w. apply (proj1 (proj2 Hf)). Qed.
Lemma fkeeps_set_users (g : World -> list (string * User)) :
  fkeeps (modify (fun w => set_users (g w) w)).
Proof. intros w. apply (proj1 (proj2 (proj2 Hf))). Qed.
Lemma fkeeps_set_nextId (n : nat) : fkeeps (modify (set_nextId n)).
Proof. intros w. apply (proj2 (proj2 (proj2 Hf))). Qed.

Lemma fkeeps_bind {A C} (m : M A) (k : A -> M C) :
  fkeeps m -> (forall a, fkeeps (k a)) -> fkeeps (bind m k).
Proof.
  intros Hm Hk w. unfold bind. specialize (Hm w).
  destruct (m w) as [[a|e] w']; cbn [snd] in *; [rewrite Hk|]; exact Hm.
Qed.

Lemma fkeeps_catch {A} (m : M A) (h : JsError -> M A) :
  fkeeps m -> (forall e, fkeeps (h e)) -> fkeeps (catch m h).
Proof.
  intros Hm Hh w. unfold catch. specialize (Hm w).
  destruct (m w) as [[a|e] w']; cbn [snd] in *; [|rewrite Hh]; exact Hm.
Qed.

End Field.

Create HintDb fkeeps.
#[export] Hint Resolve fkeeps_ret fkeeps_throw fkeeps_gets fkeeps_lift fkeeps_now
  fkeeps_random fkeeps_set_users fkeeps_set_nextId : fkeeps.

Ltac fkeeps_tac :=
  repeat (cbv zeta;
    match goal with
    | |- fkeeps _ (bind _ _) => apply fkeeps_bind; [|intro]
    | |- fkeeps _ (catch _ _) => apply fkeeps_catch; [|intro]
    | |- fkeeps _ (match ?x with _ => _ end) => destruct x
    | |- fkeeps _ (if ?b then _ else _) => destruct b
    | |- _ => solve [eauto with fkeeps]
    end).

Section WithPrimitives.
Context {P : Primitives} {B : Type} (f : World -> B) (Hf : frame f).

Lemma fkeeps_generate u : fkeeps f (TokenService.generateToken u).
Proof using Hf. unfold TokenService.generateToken. fkeeps_tac. Qed.
Lemma fkeeps_validate t : fkeeps f (TokenService.validateToken t).
Proof using Hf. unfold TokenService.validateToken. fkeeps_tac. Qed.
Lemma fkeeps_expiration : fkeeps f TokenService.getTokenExpiration.
Proof using Hf. unfold TokenService.getTokenExpiration. fkeeps_tac. Qed.
Lemma fkeeps_hash pw : fkeeps f (PasswordService.hashPassword pw).
Proof using Hf. unfold PasswordService.hashPassword, PasswordService.validatePasswordInput. fkeeps_tac. Qed.
Lemma fkeeps_create d h : fkeeps f (create d h).
Proof using Hf. unfold create. fkeeps_tac. Qed.
Lemma fkeeps_updateLastLogin u : fkeeps f (updateLastLogin u).
Proof using Hf. unfold updateLastLogin, findById. fkeeps_tac. Qed.
Lemma fkeeps_updatePassword u h : fkeeps f (updatePassword u h).
Proof using Hf. unfold updatePassword, findById. fkeeps_tac. Qed.
Lemma fkeeps_setActive u b : fkeeps f (setActive u b).
Proof using Hf. unfold setActive, findById. fkeeps_tac. Qed.
Lemma fkeeps_assignRole u r : fkeeps f (assignRole u r).
Proof using Hf. unfold assignRole, findById. fkeeps_tac. Qed.
Lemma fkeeps_removeRole u r : fkeeps f (removeRole u r).
Proof using Hf. unfold removeRole, findById. fkeeps_tac. Qed.
Lemma fkeeps_delete u : fkeeps f (delete u).
Proof using Hf. unfold delete. fkeeps_tac. Qed.

#[local] Hint Resolve fkeeps_generate fkeeps_validate fkeeps_expiration fkeeps_hash
  fkeeps_create fkeeps_updateLastLogin fkeeps_updatePassword fkeeps_setActive
  fkeeps_assignRole fkeeps_removeRole fkeeps_delete : fkeeps.

Lemma fkeeps_assignRoles u rs : fkeeps f (AdminController.assignRoles u rs).
Proof using Hf. induction rs; simpl; fkeeps_tac. Qed.
#[local] Hint Resolve fkeeps_assignRoles : fkeeps.

Lemma fkeeps_register d : fkeeps f (AuthService.register d).
Proof using Hf. unfold AuthService.register, findByEmail, findByUsername. fkeeps_tac. Qed.
Lemma fkeeps_login d : fkeeps f (AuthService.login d).
Proof using Hf. unfold AuthService.login, findByEmail. fkeeps_tac. Qed.
Lemma fkeeps_auth_validate t : fkeeps f (AuthService.validateToken t).
Proof using Hf. unfold AuthService.validateToken, findById. fkeeps_tac. Qed.
Lemma fkeeps_refresh t : fkeeps f (AuthService.refreshToken t).
Proof using Hf. unfold AuthService.refreshToken, findById. fkeeps_tac. Qed.
Lemma fkeeps_authenticate h : fkeeps f (AuthMiddleware.authenticate h).
Proof using Hf. unfold AuthMiddleware.authenticate, findById. fkeeps_tac. Qed.
Lemma fkeeps_change_password ru body : fkeeps f (UserController.updatePassword ru body).
Proof using Hf. unfold UserController.updatePassword, findById. fkeeps_tac. Qed.
Lemma fkeeps_admin_create d rs : fkeeps f (AdminController.createUser_checked d rs).
Proof using Hf. unfold AdminController.createUser_checked, findByEmail, findByUsername. fkeeps_tac. Qed.
Lemma fkeeps_admin_delete u : fkeeps f (AdminController.deleteUser u).
Proof using Hf. unfold AdminController.deleteUser, findById. fkeeps_tac. Qed.

End WithPrimitives.

Lemma frame_secret : frame secret.
Proof. repeat split. Qed.

Lemma frame_secret_revoked : frame (fun w => (secret w, revokedTokens w)).
Proof. repeat split. Qed.

Section Secret.
Context {P : Primitives}.

Lemma secret_run_ext (o : ExtOp) (w : World) : secret (run_ext o w) = secret w.
Proof.
  pose proof frame_secret as Hf.
  destruct o as [o|uid h|uid b|uid r|uid r|uid|ru body|d rs|uid]; cbn [run_ext].
  - destruct o as [d|d|t|t|t|h|u|t|t|]; cbn [run_op].
    + exact (fkeeps_register _ Hf d w).
    + exact (fkeeps_login _ Hf d w).
    + exact (fkeeps_auth_validate _ Hf t w).
    + exact (fkeeps_refresh _ Hf t w).
    + reflexivity.
    + exact (fkeeps_authenticate _ Hf h w).
    + exact (fkeeps_generate _ Hf u w).
    + exact (fkeeps_validate _ Hf t w).
    + reflexivity.
    + exact (fkeeps_expiration _ Hf w).
  - exact (fkeeps_updatePassword _ Hf uid h w).
  - exact (fkeeps_setActive _ Hf uid b w).
  - exact (fkeeps_assignRole _ Hf uid r w).
  - exact (fkeeps_removeRole _ Hf uid r w).
  - exact (fkeeps_delete _ Hf uid w).
  - exact (fkeeps_change_password _ Hf ru body w).
  - exact (fkeeps_admin_create _ Hf d rs w).
  - exact (fkeeps_admin_delete _ Hf uid w).
Qed.

End Secret.
End FieldFacts.

Module MoreRevocation.
Import Revocation UserRepository UserRepositoryOps.
Section WithPrimitives.
Context {P : Primitives}.
Variable T : string.

Lemma keeps_hash' pw : keeps T (PasswordService.hashPassword pw).
Proof. unfold PasswordService.hashPassword, PasswordService.validatePasswordInput. keeps_tac. Qed.
Lemma keeps_create' d h : keeps T (create d h).
Proof. unfold create. keeps_tac. Qed.
Lemma keeps_updatePassword u h : keeps T (updatePassword u h).
Proof. unfold updatePassword, findById. keeps_tac. Qed.
Lemma keeps_setActive u b : keeps T (setActive u b).
Proof. unfold setActive, findById. keeps_tac. Qed.
Lemma keeps_assignRole u r : keeps T (assignRole u r).
Proof. unfold assignRole, findById. keeps_tac. Qed.
Lemma keeps_removeRole u r : keeps T (removeRole u r).
Proof. unfold removeRole, findById. keeps_tac. Qed.
Lemma keeps_delete u : keeps T (delete u).
Proof. unfold delete. keeps_tac. Qed.

#[local] Hint Resolve keeps_hash' keeps_create' keeps_updatePassword keeps_setActive
  keeps_assignRole keeps_removeRole keeps_delete : keeps.

Lemma keeps_assignRoles u rs : keeps T (AdminController.assignRoles u rs).
Proof. induction rs; simpl; keeps_tac. Qed.
#[local] Hint Resolve keeps_assignRoles : keeps.

Lemma keeps_change_password ru body : keeps T (UserController.updatePassword ru body).
Proof. unfold UserController.updatePassword, findById. keeps_tac. Qed.
Lemma keeps_admin_create d rs : keeps T (AdminController.createUser_checked d rs).
Proof. unfold AdminController.createUser_checked, findByEmail, findByUsername. keeps_tac. Qed.
Lemma keeps_admin_delete u : keeps T (AdminController.deleteUser u).
Proof. unfold AdminController.deleteUser, findById. keeps_tac. Qed.

Lemma keeps_run_ext (o : ExtOp) (w : World) :
  In T (revokedTokens w) -> In T (revokedTokens (run_ext o w)).
Proof.
  destruct o as [o|uid h|uid b|uid r|uid r|uid|ru body|d rs|uid]; cbn [run_ext].
  - exact (keeps_run_op T o w).
  - exact (keeps_updatePassword uid h w).
  - exact (keeps_setActive uid b w).
  - exact (keeps_assignRole uid r w).
  - exact (keeps_removeRole uid r w).
  - exact (keeps_delete uid w).
  - exact (keeps_change_password ru body w).
  - exact (keeps_admin_create d rs w).
  - exact (keeps_admin_delete uid w).
Qed.

End WithPrimitives.
End MoreRevocation.

Module PasswordChangeFacts.
Import UserRepository.
Section WithPrimitives.
Context {P : Primitives}.

(** A record [salt:sha256(pw + salt)] verifies [pw] and rejects every
    password whose salted digest differs. *)
Lemma verify_salted (HS : Sha256HexOK P) (pw salt : string) :
  is_lhex salt = true -> salt <> "" ->
  PasswordService.verifyPassword pw (salt ++ ":" ++ sha256_hex (pw ++ salt)) = true /\
  forall pw', sha256_hex (pw' ++ salt) <> sha256_hex (pw ++ salt) ->
    PasswordService.verifyPassword pw' (salt ++ ":" ++ sha256_hex (pw ++ salt)) = false.
Proof.
  intros Hs Hne.
  destruct (HS (pw ++ salt)) as [L Hd].
  split.
  - rewrite (PasswordFacts.verify_shape HS) by assumption.
    unfold PasswordService.timingSafeEqual. rewrite Nat.eqb_refl, HexFacts.forallb_combine_refl.
    reflexivity.
  - intros pw' Hcol.
    rewrite (PasswordFacts.verify_shape HS) by assumption.
    destruct (HS (pw' ++ salt)) as [L' Hd'].
    unfold PasswordService.timingSafeEqual.
    rewrite (HexFacts.hex_decode_length 32 (sha256_hex (pw ++ _))) by (assumption || lia).
    rewrite (HexFacts.hex_decode_length 32 (sha256_hex (pw' ++ _))) by (assumption || lia).
    simpl Nat.eqb. cbv iota.
    destruct (forallb _ _) eqn:F; [|reflexivity].
    exfalso. apply Hcol. symmetry.
    apply (HexFacts.hex_decode_inj 32); try (assumption || lia).
    apply HexFacts.forallb_combine_eq; [|exact F].
    rewrite (HexFacts.hex_decode_length 32 (sha256_hex (pw ++ _))) by (assumption || lia).
    rewrite (HexFacts.hex_decode_length 32 (sha256_hex (pw' ++ _))) by (assumption || lia).
    reflexivity.
Qed.

Lemma catch_success {A} (m : M (Http.Reply A)) (c : Z) (d : A) (w w' : World) :
  catch m (fun e => ret (UserController.handleError e)) w = (Ok (Http.Success c d), w') ->
  m w = (Ok (Http.Success c d), w').
Proof.
  unfold catch, ret. destruct (m w) as [[a|e] w1]; intros H; [exact H|].
  unfold UserController.handleError in H.
  repeat destruct (String.eqb _ _); discriminate.
Qed.

End WithPrimitives.
End PasswordChangeFacts.

(** X14: changing the password (whatever the answer) leaves the
    revocation set and the secret as they were, so every token issued
    before and not revoked still validates to its user until its own
    expiry. *)
Theorem change_password_keeps_sessions {P : Primitives} (HP : TokenPrimitivesOK P)
    (ru : option UserResponse) (body : Js.Obj) (w w' : World) (r : result (Http.Reply string)) :
  UserController.updatePassword ru body w = (r, w') ->
  revokedTokens w' = revokedTokens w /\ secret w' = secret w /\
  forall uid t,
    let tok := TokenService.createToken (secret w) (mkPayload uid t (t + TokenService.ttl_ms)%Z) in
    ~ In tok (revokedTokens w) -> (clock w' (tick w') <= t + TokenService.ttl_ms)%Z ->
    fst (TokenService.validateToken tok w') = Ok uid.
Proof.
  intros H.
  pose proof (FieldFacts.fkeeps_change_password _ FieldFacts.frame_secret_revoked ru body w) as K.
  rewrite H in K. cbn [snd] in K. injection K as Ks Kr.
  split; [exact Kr|]. split; [exact Ks|].
  intros uid t. cbv zeta. intros Hr Ht.
  rewrite DecodeFacts.validate_fresh by (rewrite Kr; exact Hr).
  rewrite Ks, (TokenFacts.decode_created HP). cbn [expiresAt userId].
  replace (Z.gtb _ _) with false by (symmetry; rewrite Z.gtb_ltb; apply Z.ltb_ge; lia).
  reflexivity.
Qed.

(** X15: when the password change answers 200, the body had a current and
    a new password, the current one verified against the stored record,
    the new one passed the strength rules, and the stored user now holds
    [salt:sha256(new + salt)] with the next random salt: it verifies the
    new password, rejects any password whose salted digest differs, and
    keeps the id, email, username, roles, status and creation time. *)
Theorem change_password_success {P : Primitives} (HS : Sha256HexOK P) (ru : UserResponse)
    (body : Js.Obj) (w w' : World) :
  let salt := random w (rtick w) in
  is_lhex salt = true -> salt <> "" ->
  UserController.updatePassword (Some ru) body w =
    (Ok (Http.Success 200%Z "Password updated successfully"), w') ->
  exists pd u u',
    UserController.validatePasswordUpdateData body = Ok pd /\
    UserRepository.map_get (r_id ru) (users w) = Some u /\
    PasswordService.verifyPassword (UserController.currentPassword pd) (hashedPassword u) = true /\
    PasswordService.isValid
      (PasswordService.validatePasswordStrength (UserController.newPassword pd)) = true /\
    UserRepository.map_get (r_id ru) (users w') = Some u' /\
    hashedPassword u' = salt ++ ":" ++ sha256_hex (UserController.newPassword pd ++ salt) /\
    PasswordService.verifyPassword (UserController.newPassword pd) (hashedPassword u') = true /\
    (forall pw, sha256_hex (pw ++ salt) <> sha256_hex (UserController.newPassword pd ++ salt) ->
       PasswordService.verifyPassword pw (hashedPassword u') = false) /\
    id u' = id u /\ email u' = email u /\ username u' = username u /\ roles u' = roles u /\
    isActive u' = isActive u /\ createdAt u' = createdAt u.
Proof.
  cbv zeta. intros Hs Hne H.
  unfold UserController.updatePassword in H.
  apply PasswordChangeFacts.catch_success in H.
  unfold bind, TokenService.lift, UserRepository.findById, gets, ret, throw,
    PasswordService.hashPassword, PasswordService.validatePasswordInput, random_hex16,
    UserRepositoryOps.updatePassword, now_ms, modify in H.
  destruct (UserController.validatePasswordUpdateData body) as [pd|e] eqn:V;
    cbv beta iota in H; [|discriminate].
  destruct (UserRepository.map_get (r_id ru) (users w)) as [u|] eqn:G;
    cbv beta iota in H; [|discriminate].
  destruct (PasswordService.verifyPassword _ (hashedPassword u)) eqn:Vc;
    cbv beta iota in H; [|discriminate].
  destruct (PasswordService.isValid _) eqn:Iv; cbv beta iota in H; [|discriminate].
  destruct (String.eqb (UserController.newPassword pd) "") eqn:Ep; cbv beta iota in H;
    [discriminate|].
  simpl in H. unfold bind, UserRepository.findById, gets in H. simpl in H.
  rewrite G in H. simpl in H. injection H as <-.
  match goal with |- context [ set_users (UserRepository.map_set _ ?u' _) ] =>
    exists pd, u, u' end.
  destruct (PasswordChangeFacts.verify_salted HS (UserController.newPassword pd)
    (random w (rtick w)) Hs Hne) as [Hv1 Hv2].
  cbn [users set_users set_tick set_rtick id email username roles isActive createdAt hashedPassword].
  rewrite MapFacts.map_get_set_eq.
  repeat split; auto.
Qed.

(** X16: every refusal of the password change leaves the world untouched:
    no request user gives 401, a missing field gives 400 with the
    validator's message, an unknown user id gives 404, a wrong current
    password gives 400, and a new password that fails the strength rules
    gives 400 with the list of rule violations. *)
Theorem change_password_failures {P : Primitives} (body : Js.Obj) (w : World) :
  UserController.updatePassword None body w =
    (Ok (Http.Failure 401%Z "Authentication required" None), w) /\
  forall ru : UserResponse,
  (forall msg, UserController.validatePasswordUpdateData body = Err (Error msg) ->
     UserController.updatePassword (Some ru) body w = (Ok (Http.Failure 400%Z msg None), w)) /\
  (forall pd, UserController.validatePasswordUpdateData body = Ok pd ->
    (UserRepository.map_get (r_id ru) (users w) = None ->
       UserController.updatePassword (Some ru) body w =
         (Ok (Http.Failure 404%Z ("User not found: " ++ r_id ru) None), w)) /\
    (forall u, UserRepository.map_get (r_id ru) (users w) = Some u ->
       PasswordService.verifyPassword (UserController.currentPassword pd) (hashedPassword u) = false ->
       UserController.updatePassword (Some ru) body w =
         (Ok (Http.Failure 400%Z "Current password is incorrect" None), w)) /\
    (forall u, UserRepository.map_get (r_id ru) (users w) = Some u ->
       PasswordService.verifyPassword (UserController.currentPassword pd) (hashedPassword u) = true ->
       let v := PasswordService.validatePasswordStrength (UserController.newPassword pd) in
       PasswordService.isValid v = false ->
       UserController.updatePassword (Some ru) body w =
         (Ok (Http.Failure 400%Z "Password validation failed" (Some (PasswordService.errors v))), w))).
Proof.
  split; [reflexivity|]. intros ru.
  unfold UserController.updatePassword, catch, bind, TokenService.lift,
    UserRepository.findById, gets, ret, throw.
  split; [|intros pd V; split; [|split]].
  - intros msg V. rewrite V. reflexivity.
  - intros G. rewrite V, G. reflexivity.
  - intros u G Vc. rewrite V, G, Vc. reflexivity.
  - intros u G Vc. cbv zeta. intros Iv. rewrite V, G, Vc, Iv. reflexivity.
Qed.

(** X17: along any sequence of repository, service and controller
    operations the signing secret never changes and no token ever leaves
    the revocation set. *)
Theorem secret_and_revocations_persist {P : Primitives} (os : list ExtOp) (w : World) :
  secret (run_exts os w) = secret w /\
  forall t, In t (revokedTokens w) -> In t (revokedTokens (run_exts os w)).
Proof.
  split.
  - revert w. induction os as [|o os IH]; intros w; [reflexivity|].
    cbn [run_exts]. rewrite IH. apply FieldFacts.secret_run_ext.
  - intros t. revert w. induction os as [|o os IH]; intros w Ht; [exact Ht|].
    cbn [run_exts]. apply IH. apply MoreRevocation.keeps_run_ext. exact Ht.
Qed.

Module RegexFacts.
Import Regex.

(** The language of a regular expression. *)
Inductive lang : re -> string -> Prop :=
| LEps : lang REps ""
| LCls (f : ascii -> bool) (a : ascii) : f a = true -> lang (RCls f) (String a "")
| LCat (r s : re) (x y : string) : lang r x -> lang s y -> lang (RCat r s) (x ++ y)
| LAltL (r s : re) (x : string) : lang r x -> lang (RAlt r s) x
| LAltR (r s : re) (x : string) : lang s x -> lang (RAlt r s) x
| LStar0 (r : re) : lang (RStar r) ""
| LStarS (r : re) (x y : string) : lang r x -> lang (RStar r) y -> lang (RStar r) (x ++ y).

Lemma lang_cat (r1 r2 : re) (w : string) :
  lang (RCat r1 r2) w <-> exists x y, w = x ++ y /\ lang r1 x /\ lang r2 y.
Proof.
  split.
  - intros H. inversion H; subst. eauto.
  - intros [x [y [-> [H1 H2]]]]. constructor; auto.
Qed.

Lemma lang_cls (f : ascii -> bool) (w : string) :
  lang (RCls f) w <-> exists a, w = String a "" /\ f a = true.
Proof.
  split.
  - intros H. inversion H; subst. eauto.
  - intros [a [-> H]]. constructor. exact H.
Qed.

Lemma app_nil (x y : string) : x ++ y = "" -> x = "" /\ y = "".
Proof. destruct x; simpl; [auto|discriminate]. Qed.

Lemma app_String (x y : string) (a : ascii) (s : string) :
  x ++ y = String a s -> (x = "" /\ y = String a s) \/ exists x', x = String a x' /\ x' ++ y = s.
Proof.
  destruct x as [|b x]; simpl; intros H; [left; auto|].
  injection H as -> <-. right. eexists; eauto.
Qed.

Lemma nullable_sound (r : re) : nullable r = true -> lang r "".
Proof.
  induction r; simpl; intros H; try discriminate.
  - constructor.
  - apply andb_prop in H as [H1 H2]. change "" with ("" ++ ""). constructor; auto.
  - apply orb_prop in H as [H1|H2]; [apply LAltL|apply LAltR]; auto.
  - constructor.
Qed.

Lemma nullable_complete (r : re) : lang r "" -> nullable r = true.
Proof.
  intros H. remember "" as e eqn:Ee. induction H; simpl; try discriminate; auto.
  - apply app_nil in Ee as [-> ->]. rewrite IHlang1, IHlang2 by reflexivity. reflexivity.
  - rewrite IHlang by exact Ee. reflexivity.
  - rewrite IHlang by exact Ee. apply orb_true_r.
Qed.

Lemma deriv_sound (r : re) (a : ascii) (s : string) : lang (deriv a r) s -> lang r (String a s).
Proof.
  revert s. induction r as [| |f|r1 IH1 r2 IH2|r1 IH1 r2 IH2|r IH]; intros s H; simpl in H.
  - inversion H.
  - inversion H.
  - destruct (f a) eqn:E; inversion H; subst. constructor. exact E.
  - destruct (nullable r1) eqn:N.
    + inversion H; subst.
      * inversion H3; subst. change (String a (x ++ y)) with (String a x ++ y).
        constructor; auto.
      * change (String a s) with ("" ++ String a s). constructor; auto.
        apply nullable_sound. exact N.
    + inversion H; subst. change (String a (x ++ y)) with (String a x ++ y).
      constructor; auto.
  - inversion H; subst; [apply LAltL|apply LAltR]; auto.
  - inversion H; subst. change (String a (x ++ y)) with (String a x ++ y).
    constructor; auto.
Qed.

Lemma deriv_complete (r : re) (a : ascii) (s : string) : lang r (String a s) -> lang (deriv a r) s.
Proof.
  revert s. induction r as [| |f|r1 IH1 r2 IH2|r1 IH1 r2 IH2|r IH]; intros s H; simpl.
  - inversion H.
  - inversion H.
  - apply lang_cls in H as [b [Hb Hf]]. injection Hb as -> ->. rewrite Hf. constructor.
  - apply lang_cat in H as [x [y [Hxy [Hx Hy]]]].
    apply eq_sym, app_String in Hxy as [[-> ->]|[x' [-> <-]]].
    + rewrite (nullable_complete _ Hx). apply LAltR. auto.
    + destruct (nullable r1); [apply LAltL|]; constructor; auto.
  - inversion H; subst; [apply LAltL|apply LAltR]; auto.
  - assert (G : forall w, lang (RStar r) w -> forall q, w = String a q ->
                lang (RCat (deriv a r) (RStar r)) q).
    { clear H. intros w Hw. remember (RStar r) as R eqn:ER.
      induction Hw; intros q Hs; try discriminate.
      injection ER as ->.
      apply app_String in Hs as [[-> ->]|[x' [-> <-]]].
      - exact (IHHw2 eq_refl q eq_refl).
      - constructor; auto. }
    exact (G _ H s eq_refl).
Qed.

Lemma matches_lang (r : re) (s : string) : matches r s = true <-> lang r s.
Proof.
  revert r. induction s as [|a s IH]; intros r; simpl.
  - split; [apply nullable_sound|apply nullable_complete].
  - rewrite IH. split; [apply deriv_sound|apply deriv_complete].
Qed.

Lemma lang_star_cls (f : ascii -> bool) (w : string) :
  lang (RStar (RCls f)) w <-> forallb f (list_ascii_of_string w) = true.
Proof.
  split.
  - intros H. remember (RStar (RCls f)) as R eqn:ER.
    induction H; try discriminate; [reflexivity|].
    injection ER as ->. apply lang_cls in H as [a [-> Ha]].
    simpl. rewrite Ha. apply IHlang2. reflexivity.
  - induction w as [|a w IH]; simpl; intros H; [constructor|].
    apply andb_prop in H as [Ha Hw].
    change (String a w) with (String a "" ++ w). constructor; [constructor; exact Ha|auto].
Qed.

Lemma lang_plus_cls (f : ascii -> bool) (w : string) :
  lang (RPlus (RCls f)) w <-> w <> "" /\ forallb f (list_ascii_of_string w) = true.
Proof.
  unfold RPlus. rewrite lang_cat. split.
  - intros [x [y [-> [Hx Hy]]]]. apply lang_cls in Hx as [a [-> Ha]].
    apply lang_star_cls in Hy. simpl. split; [discriminate|]. rewrite Ha. exact Hy.
  - intros [Hne H]. destruct w as [|a w]; [congruence|].
    simpl in H. apply andb_prop in H as [Ha Hw].
    exists (String a ""), w. split; [reflexivity|]. split.
    + constructor. exact Ha.
    + apply lang_star_cls. exact Hw.
Qed.

Lemma lang_char (c : ascii) (w : string) :
  lang (RCls (Ascii.eqb c)) w <-> w = String c "".
Proof.
  rewrite lang_cls. split.
  - intros [a [-> Ha]]. apply Ascii.eqb_eq in Ha. subst. reflexivity.
  - intros ->. exists c. split; [reflexivity|]. apply Ascii.eqb_refl.
Qed.

End RegexFacts.

(** X18: a string passes the email test [/^[^\s@]+@[^\s@]+\.[^\s@]+$/]
    exactly when it is [a@b.c] with [a], [b] and [c] non-empty and free of
    whitespace and of [@]. *)
Theorem email_regex_language (s : string) :
  Regex.matches Regex.emailRegex s = true <->
  exists a b c, s = a ++ "@" ++ b ++ "." ++ c /\
    a <> "" /\ b <> "" /\ c <> "" /\
    forallb Regex.email_char (list_ascii_of_string a) = true /\
    forallb Regex.email_char (list_ascii_of_string b) = true /\
    forallb Regex.email_char (list_ascii_of_string c) = true.
Proof.
  rewrite RegexFacts.matches_lang. unfold Regex.emailRegex. split.
  - intros H.
    apply RegexFacts.lang_cat in H as [a [r1 [-> [Ha H]]]].
    apply RegexFacts.lang_cat in H as [x1 [r2 [-> [H1 H]]]].
    apply RegexFacts.lang_cat in H as [b [r3 [-> [Hb H]]]].
    apply RegexFacts.lang_cat in H as [x2 [c [-> [H2 Hc]]]].
    apply RegexFacts.lang_char in H1, H2. subst.
    apply RegexFacts.lang_plus_cls in Ha as [Ha1 Ha2].
    apply RegexFacts.lang_plus_cls in Hb as [Hb1 Hb2].
    apply RegexFacts.lang_plus_cls in Hc as [Hc1 Hc2].
    exists a, b, c. repeat split; assumption.
  - intros [a [b [c [-> [Ha1 [Hb1 [Hc1 [Ha2 [Hb2 Hc2]]]]]]]]].
    constructor; [apply RegexFacts.lang_plus_cls; auto|].
    constructor; [apply RegexFacts.lang_char; reflexivity|].
    constructor; [apply RegexFacts.lang_plus_cls; auto|].
    constructor; [apply RegexFacts.lang_char; reflexivity|].
    apply RegexFacts.lang_plus_cls; auto.
Qed.

(** X19: the registration body is accepted exactly when email, username,
    password, first and last name are non-empty strings, the phone is
    falsy or a string (it is passed on unchanged, so a falsy non-string
    such as [0] or [false] gets through), and the email passes the email
    test. *)
Theorem validate_registration_iff (body : Js.Obj) (e un pw fn ln : string) (ph : Js.JsVal) :
  UserController.validateRegistrationData body =
    Ok (UserController.mkRegistrationInput e un pw fn ln ph) <->
  Js.get body "email" = Js.JStr e /\ e <> "" /\
  Js.get body "username" = Js.JStr un /\ un <> "" /\
  Js.get body "password" = Js.JStr pw /\ pw <> "" /\
  Js.get body "firstName" = Js.JStr fn /\ fn <> "" /\
  Js.get body "lastName" = Js.JStr ln /\ ln <> "" /\
  ph = Js.get body "phone" /\ (Js.truthy ph = false \/ exists p, ph = Js.JStr p) /\
  Regex.matches Regex.emailRegex e = true.
Proof.
  unfold UserController.validateRegistrationData. split.
  - destruct (UserController.required_string (Js.get body "email")) as [e'|] eqn:E1; [|discriminate].
    destruct (UserController.required_string (Js.get body "username")) as [un'|] eqn:E2; [|discriminate].
    destruct (UserController.required_string (Js.get body "password")) as [pw'|] eqn:E3; [|discriminate].
    destruct (UserController.required_string (Js.get body "firstName")) as [fn'|] eqn:E4; [|discriminate].
    destruct (UserController.required_string (Js.get body "lastName")) as [ln'|] eqn:E5; [|discriminate].
    cbv zeta.
    destruct (Js.truthy (Js.get body "phone") && negb (String.eqb (Js.typeof (Js.get body "phone")) "string"))
      eqn:T; [discriminate|].
    destruct (Regex.matches Regex.emailRegex e') eqn:R; [|discriminate].
    cbn [negb]. intros H. injection H as <- <- <- <- <- <-.
    apply ControllerFacts.required_string_Some in E1 as [G1 N1], E2 as [G2 N2], E3 as [G3 N3],
      E4 as [G4 N4], E5 as [G5 N5].
    repeat (split; [assumption|]). split; [reflexivity|]. split; [|exact R].
    destruct (Js.get body "phone") as [| |b|n|p|xs|fs]; cbn in T |- *;
      try (left; reflexivity); try (right; eexists; reflexivity);
      left; rewrite ?andb_true_r in T; try exact T; discriminate T.
  - intros [G1 [N1 [G2 [N2 [G3 [N3 [G4 [N4 [G5 [N5 [-> [Hph R]]]]]]]]]]]].
    rewrite (proj2 (ControllerFacts.required_string_Some _ _) (conj G1 N1)),
      (proj2 (ControllerFacts.required_string_Some _ _) (conj G2 N2)),
      (proj2 (ControllerFacts.required_string_Some _ _) (conj G3 N3)),
      (proj2 (ControllerFacts.required_string_Some _ _) (conj G4 N4)),
      (proj2 (ControllerFacts.required_string_Some _ _) (conj G5 N5)).
    destruct Hph as [Tf|[p Ep]].
    + rewrite Tf. cbn [andb negb]. rewrite R. reflexivity.
    + rewrite Ep. cbn [Js.typeof]. rewrite andb_false_r. cbn [negb]. rewrite R. reflexivity.
Qed.

Module ObjFacts.
Import Js.

Lemma get_obj_set (o : Obj) (k k' : string) (v : JsVal) :
  get (obj_set k v o) k' = if String.eqb k' k then v else get o k'.
Proof.
  induction o as [|[k0 v0] o IH]; cbn [obj_set get]; [reflexivity|].
  destruct (String.eqb_spec k k0) as [->|N]; cbn [get].
  - destruct (String.eqb k' k0); reflexivity.
  - rewrite IH. destruct (String.eqb_spec k' k0) as [->|N']; [|reflexivity].
    destruct (String.eqb_spec k0 k) as [->|_]; [congruence|reflexivity].
Qed.

Lemma spread_cons (a : Obj) (k : string) (v : JsVal) (b : Obj) :
  spread a ((k, v) :: b) = spread (obj_set k v a) b.
Proof. reflexivity. Qed.

Lemma optional_string_cases (body acc acc' : Obj) (k msg : string) :
  UserController.optional_string body k msg acc = Ok acc' ->
  (get body k = JUndefined /\ acc' = acc) \/
  (exists s, get body k = JStr s /\ acc' = obj_set k (JStr s) acc).
Proof.
  unfold UserController.optional_string.
  destruct (get body k) as [| |b|n|s|xs|fs]; cbn; intros H; try discriminate.
  - injection H as <-. left; auto.
  - injection H as <-. right. eauto.
Qed.

Lemma optional_string_ok (body acc : Obj) (k msg : string) :
  (get body k = JUndefined \/ exists s, get body k = JStr s) ->
  exists acc', UserController.optional_string body k msg acc = Ok acc'.
Proof.
  unfold UserController.optional_string. intros [G|[s G]]; rewrite G; eexists; reflexivity.
Qed.

Lemma optional_typed_get (body acc acc' : Obj) (k ty msg k' : string) :
  AdminController.optional_typed body k ty msg acc = Ok acc' ->
  get acc' k' =
  if String.eqb k' k then match get body k with JUndefined => get acc k | v => v end
  else get acc k'.
Proof.
  unfold AdminController.optional_typed.
  destruct (get body k) eqn:G;
    [intros H; injection H as <-; destruct (String.eqb k' k) eqn:E;
       [apply String.eqb_eq in E; subst; reflexivity|reflexivity]|..];
    (destruct (negb _); [discriminate|]); intros H; injection H as <-;
    rewrite get_obj_set; reflexivity.
Qed.

End ObjFacts.

(** X20: the profile update body is accepted exactly when each of
    [firstName], [lastName], [phone] and [avatar] is absent or a string;
    the merged profile then takes each of these four that the body
    carries (an empty string included) and keeps every other property,
    so anything else in the body (an email, roles, ...) never reaches the
    profile. *)
Theorem profile_update_merge (body : Js.Obj) :
  let fields := ["firstName"; "lastName"; "phone"; "avatar"] in
  ((exists pd, UserController.validateProfileUpdateData body = Ok pd) <->
   forall k, In k fields -> Js.get body k = Js.JUndefined \/ exists s, Js.get body k = Js.JStr s) /\
  forall pd, UserController.validateProfileUpdateData body = Ok pd ->
  forall (profile : Js.Obj) (k : string),
    Js.get (UserRepositoryOps.updated_profile profile pd) k =
    if existsb (String.eqb k) fields
    then match Js.get body k with Js.JUndefined => Js.get profile k | v => v end
    else Js.get profile k.
Proof.
  cbv zeta. unfold UserController.validateProfileUpdateData, UserController.rbind. split; [split|].
  - intros [pd H].
    destruct (UserController.optional_string body "firstName" _ []) as [d1|] eqn:E1; [|discriminate].
    destruct (UserController.optional_string body "lastName" _ d1) as [d2|] eqn:E2; [|discriminate].
    destruct (UserController.optional_string body "phone" _ d2) as [d3|] eqn:E3; [|discriminate].
    apply ObjFacts.optional_string_cases in E1, E2, E3, H.
    intros k [<-|[<-|[<-|[<-|[]]]]];
      [destruct E1 as [[G _]|[s [G _]]]|destruct E2 as [[G _]|[s [G _]]]
      |destruct E3 as [[G _]|[s [G _]]]|destruct H as [[G _]|[s [G _]]]]; eauto.
  - intros H.
    destruct (ObjFacts.optional_string_ok body [] "firstName" "First name must be a string"
      (H "firstName" ltac:(simpl; tauto))) as [d1 E1]. rewrite E1.
    destruct (ObjFacts.optional_string_ok body d1 "lastName" "Last name must be a string"
      (H "lastName" ltac:(simpl; tauto))) as [d2 E2]. rewrite E2.
    destruct (ObjFacts.optional_string_ok body d2 "phone" "Phone must be a string"
      (H "phone" ltac:(simpl; tauto))) as [d3 E3]. rewrite E3.
    exact (ObjFacts.optional_string_ok body d3 "avatar" "Avatar must be a string"
      (H "avatar" ltac:(simpl; tauto))).
  - intros pd H profile k.
    destruct (UserController.optional_string body "firstName" _ []) as [d1|] eqn:E1; [|discriminate].
    destruct (UserController.optional_string body "lastName" _ d1) as [d2|] eqn:E2; [|discriminate].
    destruct (UserController.optional_string body "phone" _ d2) as [d3|] eqn:E3; [|discriminate].
    apply ObjFacts.optional_string_cases in E1, E2, E3, H.
    unfold UserRepositoryOps.updated_profile.
    destruct E1 as [[G1 ->]|[s1 [G1 ->]]]; destruct E2 as [[G2 ->]|[s2 [G2 ->]]];
    destruct E3 as [[G3 ->]|[s3 [G3 ->]]]; destruct H as [[G4 ->]|[s4 [G4 ->]]];
    cbn [Js.obj_set String.eqb Ascii.eqb Bool.eqb]; cbv beta iota;
    rewrite ?ObjFacts.spread_cons; cbv [Js.spread fold_left];
    rewrite ?ObjFacts.get_obj_set; cbn [existsb];
    (destruct (String.eqb_spec k "firstName") as [->|N1]; [rewrite ?G1; reflexivity|]);
    (destruct (String.eqb_spec k "lastName") as [->|N2]; [rewrite ?G2; reflexivity|]);
    (destruct (String.eqb_spec k "phone") as [->|N3]; [rewrite ?G3; reflexivity|]);
    (destruct (String.eqb_spec k "avatar") as [->|N4]; [rewrite ?G4; reflexivity|]);
    reflexivity.
Qed.

(** X21: in the admin update, profile fields are written only when one of
    [firstName], [lastName], [phone] in the body is truthy; then all three
    are written as the body has them, so a field left out of the body is
    overwritten with [undefined], while every other profile property (and
    the body's email or username) is left alone. *)
Theorem admin_update_profile (body ud : Js.Obj) :
  AdminController.validateUpdateUserRequest body = Ok ud ->
  let fields := ["firstName"; "lastName"; "phone"] in
  (AdminController.updateUser_profileData ud = None <->
   forall k, In k fields -> Js.truthy (Js.get body k) = false) /\
  forall pd, AdminController.updateUser_profileData ud = Some pd ->
  forall (profile : Js.Obj) (k : string),
    Js.get (UserRepositoryOps.updated_profile profile pd) k =
    if existsb (String.eqb k) fields then Js.get body k else Js.get profile k.
Proof.
  intros H. cbv zeta.
  assert (G : forall k, In k ["firstName"; "lastName"; "phone"] -> Js.get ud k = Js.get body k).
  { unfold AdminController.validateUpdateUserRequest, UserController.rbind in H. cbv zeta in H.
    intros k Hk.
    assert (D1 : forall d1, (d1 = [] \/ exists s, d1 = Js.obj_set "email" (Js.JStr s) []) ->
              Js.get d1 k = Js.JUndefined).
    { intros d1 [->|[s ->]]; [reflexivity|].
      destruct Hk as [<-|[<-|[<-|[]]]]; reflexivity. }
    assert (exists d1, (d1 = [] \/ exists s, d1 = Js.obj_set "email" (Js.JStr s) []) /\
      UserController.rbind (AdminController.optional_typed body "username" "string" "Username must be a string" d1)
      (fun d2 => UserController.rbind (AdminController.optional_typed body "firstName" "string" "First name must be a string" d2)
      (fun d3 => UserController.rbind (AdminController.optional_typed body "lastName" "string" "Last name must be a string" d3)
      (fun d4 => UserController.rbind (AdminController.optional_typed body "phone" "string" "Phone must be a string" d4)
      (fun d5 => AdminController.optional_typed body "isActive" "boolean" "isActive must be a boolean" d5)))) = Ok ud)
      as [d1 [Hd1 H']].
    { destruct (Js.get body "email"); try discriminate.
      - exists []. auto.
      - destruct (negb _); [discriminate|]. eexists. split; [right; eauto|exact H]. }
    clear H. unfold UserController.rbind in H'.
    pose proof (D1 d1 Hd1) as Dk.
    destruct (AdminController.optional_typed body "username" _ _ d1) as [d2|] eqn:E2; [|discriminate].
    destruct (AdminController.optional_typed body "firstName" _ _ d2) as [d3|] eqn:E3; [|discriminate].
    destruct (AdminController.optional_typed body "lastName" _ _ d3) as [d4|] eqn:E4; [|discriminate].
    destruct (AdminController.optional_typed body "phone" _ _ d4) as [d5|] eqn:E5; [|discriminate].
    destruct Hk as [<-|[<-|[<-|[]]]];
    repeat first [ rewrite (ObjFacts.optional_typed_get _ _ _ _ _ _ _ H')
                 | rewrite (ObjFacts.optional_typed_get _ _ _ _ _ _ _ E5)
                 | rewrite (ObjFacts.optional_typed_get _ _ _ _ _ _ _ E4)
                 | rewrite (ObjFacts.optional_typed_get _ _ _ _ _ _ _ E3)
                 | rewrite (ObjFacts.optional_typed_get _ _ _ _ _ _ _ E2) ];
    cbn [String.eqb Ascii.eqb Bool.eqb]; cbv iota;
    rewrite ?Dk; destruct (Js.get body _); reflexivity. }
  unfold AdminController.updateUser_profileData.
  rewrite (G "firstName"), (G "lastName"), (G "phone") by (simpl; tauto).
  split.
  - split.
    + destruct (Js.truthy (Js.get body "firstName")) eqn:T1; [discriminate|].
      destruct (Js.truthy (Js.get body "lastName")) eqn:T2; [discriminate|].
      destruct (Js.truthy (Js.get body "phone")) eqn:T3; [discriminate|].
      intros _ k [<-|[<-|[<-|[]]]]; assumption.
    + intros T. rewrite (T "firstName"), (T "lastName"), (T "phone") by (simpl; tauto).
      reflexivity.
  - intros pd Hpd profile k.
    destruct (_ || _ || _); [|discriminate]. injection Hpd as <-.
    unfold UserRepositoryOps.updated_profile, Js.spread. cbn [fold_left fst snd].
    rewrite !ObjFacts.get_obj_set. cbn [existsb].
    destruct (String.eqb_spec k "phone") as [->|N3]; [reflexivity|].
    destruct (String.eqb_spec k "lastName") as [->|N2]; [reflexivity|].
    destruct (String.eqb_spec k "firstName") as [->|N1]; [reflexivity|].
    apply String.eqb_neq in N1, N2, N3. rewrite ?N1, ?N2, ?N3. reflexivity.
Qed.

Module AdminCreateFacts.
Import UserRepository.
Section WithPrimitives.
Context {P : Primitives}.

Lemma catch_success_admin {A} (m : M (Http.Reply A)) (c : Z) (d : A) (w w' : World) :
  catch m (fun e => ret (AdminController.handleError e)) w = (Ok (Http.Success c d), w') ->
  m w = (Ok (Http.Success c d), w').
Proof.
  unfold catch, ret. destruct (m w) as [[a|e] w1]; intros H; [exact H|].
  unfold AdminController.handleError in H. destruct (String.eqb _ _); discriminate.
Qed.

Lemma assignRoles_present (uid : string) (rs : list string) (w : World) (u : User) :
  map_get uid (users w) = Some u -> AdminController.assignRoles uid rs w = (Ok tt, w).
Proof.
  intros G. induction rs as [|r rs IH]; [reflexivity|]. cbn [AdminController.assignRoles].
  unfold UserRepositoryOps.assignRole, findById, bind at 1, bind at 1, gets, ret.
  rewrite G. exact IH.
Qed.

End WithPrimitives.
End AdminCreateFacts.

(** X22: when the admin creation answers with a success, the status is
    201 and the answer is the new stored user, with the next id, no roles
    and the active status, whatever role ids the request listed; its
    email and username were free in the store before. *)
Theorem admin_create_success {P : Primitives} (d : UserRegistrationData) (roleIds : list string)
    (w w' : World) (c : Z) (ur : UserResponse) :
  AdminController.createUser_checked d roleIds w = (Ok (Http.Success c ur), w') ->
  exists u, c = 201%Z /\ ur = AuthService.toUserResponse u /\ r_roles ur = [] /\
    UserRepository.map_get (id u) (users w') = Some u /\
    id u = JsString.nat_to_string (nextId w) /\ roles u = [] /\ isActive u = true /\
    email u = reg_email d /\ username u = reg_username d /\
    UserRepository.find_value (fun v => String.eqb (email v) (reg_email d)) (users w) = None /\
    UserRepository.find_value (fun v => String.eqb (username v) (reg_username d)) (users w) = None.
Proof.
  intros H. unfold AdminController.createUser_checked in H.
  apply AdminCreateFacts.catch_success_admin in H.
  unfold bind at 1, UserRepository.findByEmail, gets at 1 in H.
  destruct (UserRepository.find_value (fun v => String.eqb (email v) (reg_email d)) (users w))
    as [u0|] eqn:FE; [discriminate|].
  unfold bind at 1, UserRepository.findByUsername, gets at 1 in H.
  destruct (UserRepository.find_value (fun v => String.eqb (username v) (reg_username d)) (users w))
    as [u0|] eqn:FN; [discriminate|].
  destruct (PasswordService.isValid _) eqn:Iv; cbn [negb] in H; [|discriminate].
  unfold bind at 1 in H.
  destruct (PasswordService.hashPassword (reg_password d) w) as [[h|e] w1] eqn:Hh; [|discriminate].
  unfold bind at 1 in H.
  destruct (UserRepository.create d h w1) as [[u|e] w2] eqn:Hc; [|discriminate].
  assert (G : UserRepository.map_get (id u) (users w2) = Some u).
  { unfold UserRepository.create, bind, gets, modify, now_ms, ret in Hc. cbn in Hc.
    injection Hc as <- <-. cbn. apply MapFacts.map_get_set_eq. }
  unfold bind at 1 in H. rewrite (AdminCreateFacts.assignRoles_present _ roleIds _ _ G) in H.
  unfold ret in H. injection H as <- <- <-.
  assert (Hu : id u = JsString.nat_to_string (nextId w1) /\ roles u = [] /\ isActive u = true /\
               email u = reg_email d /\ username u = reg_username d).
  { unfold UserRepository.create, bind, gets, modify, now_ms, ret in Hc. cbn in Hc.
    injection Hc as <- _. repeat split. }
  assert (Hn : nextId w1 = nextId w).
  { unfold PasswordService.hashPassword, PasswordService.validatePasswordInput, bind,
      random_hex16, ret, throw in Hh.
    destruct (String.eqb _ _); cbn in Hh; injection Hh as _ <-; reflexivity. }
  destruct Hu as [Hid [Hr [Ha [He Hun]]]].
  exists u. split; [reflexivity|]. split; [reflexivity|]. split; [cbn; exact Hr|].
  split; [exact G|]. split; [rewrite Hid, Hn; reflexivity|].
  repeat split; assumption.
Qed.

(** X23: the admin creation refuses, without touching the world, an
    email already in the store (409), then a username already in the
    store (409), then a password that fails the strength rules (400 with
    the list of violations). *)
Theorem admin_create_refusals {P : Primitives} (d : UserRegistrationData) (roleIds : list string)
    (w : World) :
  let byEmail := UserRepository.find_value (fun v => String.eqb (email v) (reg_email d)) (users w) in
  let byName := UserRepository.find_value (fun v => String.eqb (username v) (reg_username d)) (users w) in
  let v := PasswordService.validatePasswordStrength (reg_password d) in
  (forall u, byEmail = Some u ->
     AdminController.createUser_checked d roleIds w =
       (Ok (Http.Failure 409%Z "User with this email already exists" None), w)) /\
  (forall u, byEmail = None -> byName = Some u ->
     AdminController.createUser_checked d roleIds w =
       (Ok (Http.Failure 409%Z "User with this username already exists" None), w)) /\
  (byEmail = None -> byName = None -> PasswordService.isValid v = false ->
     AdminController.createUser_checked d roleIds w =
       (Ok (Http.Failure 400%Z "Password validation failed" (Some (PasswordService.errors v))), w)).
Proof.
  cbv zeta. unfold AdminController.createUser_checked, catch, bind, UserRepository.findByEmail,
    UserRepository.findByUsername, gets, ret. cbv beta.
  split; [|split].
  - intros u FE. rewrite FE. reflexivity.
  - intros u FE FN. rewrite FE, FN. reflexivity.
  - intros FE FN Iv. rewrite FE, FN, Iv. reflexivity.
Qed.

(** X24: [verifyPassword] reads only the first two [:]-separated fields of
    the stored record, so anything after a second [:] is ignored, and it
    compares decoded bytes, so two non-empty hash fields that decode to the
    same bytes (upper-case digits, or trailing non-hex characters) are
    accepted or rejected alike. *)
Theorem verify_tolerance {P : Primitives} (pw salt hash hash' rest : string) :
  JsString.free_of ":" salt = true -> JsString.free_of ":" hash = true ->
  PasswordService.verifyPassword pw (salt ++ ":" ++ hash ++ ":" ++ rest) =
    PasswordService.verifyPassword pw (salt ++ ":" ++ hash) /\
  (JsString.free_of ":" hash' = true -> hash <> "" -> hash' <> "" ->
   PasswordService.hex_decode hash' = PasswordService.hex_decode hash ->
   PasswordService.verifyPassword pw (salt ++ ":" ++ hash') =
     PasswordService.verifyPassword pw (salt ++ ":" ++ hash)).
Proof.
  intros Fs Fh. unfold PasswordService.verifyPassword. cbn [append].
  rewrite !StringFacts.split_app by assumption.
  rewrite (StringFacts.split_free _ hash Fh).
  split; [reflexivity|].
  intros Fh' N N' E. rewrite (StringFacts.split_free _ hash' Fh').
  destruct (String.eqb_spec hash "") as [->|_]; [contradiction|].
  destruct (String.eqb_spec hash' "") as [->|_]; [contradiction|].
  rewrite E. reflexivity.
Qed.

(** X25: [verifyPassword] answers [false] for a malformed record: one
    without [:], one with an empty salt, one with an empty hash field, and
    (for a hex SHA-256 digest) one whose hash field does not decode to 32
    bytes, where [timingSafeEqual] throws. *)
Theorem verify_malformed {P : Primitives} (pw : string) :
  (forall h, JsString.free_of ":" h = true -> PasswordService.verifyPassword pw h = false) /\
  (forall rest, PasswordService.verifyPassword pw (":" ++ rest) = false) /\
  (forall salt rest, JsString.free_of ":" salt = true ->
     PasswordService.verifyPassword pw (salt ++ ":") = false /\
     PasswordService.verifyPassword pw (salt ++ "::" ++ rest) = false) /\
  (Sha256HexOK P -> forall salt hash, JsString.free_of ":" salt = true ->
     JsString.free_of ":" hash = true ->
     length (PasswordService.hex_decode hash) <> 32 ->
     PasswordService.verifyPassword pw (salt ++ ":" ++ hash) = false).
Proof.
  unfold PasswordService.verifyPassword. split; [|split; [|split]].
  - intros h F. rewrite (StringFacts.split_free _ h F). reflexivity.
  - intros rest. cbn [append].
    change (String ":" rest) with ("" ++ String ":" rest).
    rewrite (StringFacts.split_app ":" "" rest eq_refl).
    destruct (JsString.split ":" rest); reflexivity.
  - intros salt rest F. cbn [append].
    rewrite !StringFacts.split_app by (assumption || reflexivity).
    cbn [JsString.split]. rewrite ?Ascii.eqb_refl. cbv iota.
    rewrite !String.eqb_refl, !orb_true_r. split; reflexivity.
  - intros HS salt hash Fs Fh L. cbn [append].
    rewrite StringFacts.split_app by assumption.
    rewrite (StringFacts.split_free _ hash Fh).
    destruct (_ || _); [reflexivity|].
    destruct (HS (pw ++ salt)) as [Ld Hd].
    unfold PasswordService.timingSafeEqual.
    rewrite (HexFacts.hex_decode_length 32 (sha256_hex _)) by (assumption || lia).
    destruct (Nat.eqb_spec (length (PasswordService.hex_decode hash)) 32); [contradiction|].
    reflexivity.
Qed.

Module ToyStore.
Import ToyUsers.

Lemma empty_wf : Store.store_wf empty_world.
Proof. split; [constructor|]. intros k u []. Qed.

Lemma alice_wf : Store.store_wf alice_world.
Proof.
  split; [repeat constructor; simpl; tauto|].
  intros k u [H|[]]. injection H as <- <-. split; [reflexivity|].
  exists 0. split; [cbv; lia|reflexivity].
Qed.

End ToyStore.

Lemma store_invariant_reachable_witness :
  let os := [EBase (ORegister (mkRegistration "a@b.c" "al" "Ab1!cdef" "A" "L" None));
             EAdminCreate (mkRegistration "a@b.c" "bo" "Ab1!cdef" "B" "O" None) ["admin"]] in
  users ToyUsers.empty_world = [] /\
  NoDup (map (fun kv => email (snd kv)) (users (run_exts (P := Toy.prims) os ToyUsers.empty_world))).
Proof.
  cbv zeta. split; [reflexivity|].
  exact (proj1 (proj2 (proj2 (store_invariant_reachable (P := Toy.prims) _ ToyUsers.empty_world eq_refl)))).
Defined.


Lemma create_then_find_witness :
  let d := mkRegistration "b@c.d" "bo" "Ab1!cdef" "B" "O" None in
  let r := UserRepository.create d "h" ToyUsers.alice_world in
  match r with
  | (Ok u, w') => fst (UserRepository.findById (id u) w') = Ok (Some u)
  | _ => False
  end.
Proof.
  cbv zeta.
  destruct (UserRepository.create (mkRegistration "b@c.d" "bo" "Ab1!cdef" "B" "O" None)
              "h" ToyUsers.alice_world) as [[u|e] w'] eqn:E.
  - exact (proj1 (proj2 (proj2 (proj2 (proj2 (create_then_find (P := Toy.prims) _ _ _ _ _ ToyStore.alice_wf E)))))).
  - vm_compute in E. discriminate.
Defined.

Lemma repository_missing_user_witness :
  UserRepositoryOps.setActive "7" false ToyUsers.alice_world =
    (Err (Error "User not found"), ToyUsers.alice_world).
Proof.
  exact (proj1 (proj2 (repository_missing_user (P := Toy.prims) "7" "h" "r" false
                         ToyUsers.alice_world eq_refl))).
Defined.

Lemma repository_update_present_witness :
  fst (UserRepositoryOps.setActive "0" false ToyUsers.alice_world) = Ok tt.
Proof.
  exact (proj1 (proj1 (proj2 (repository_update_present (P := Toy.prims) "0" "h" "r" false
                         ToyUsers.alice_world ToyUsers.alice eq_refl)))).
Defined.

Lemma delete_then_find_witness :
  UserRepository.map_get "0"
    (users (snd (UserRepositoryOps.delete "0" ToyUsers.alice_world))) = None.
Proof. exact (proj1 (delete_then_find (P := Toy.prims) "0" _ ToyStore.alice_wf)). Defined.

Lemma findAll_slices_witness :
  fst (UserRepositoryOps.findAll (Some 1%Z) (Some 0%Z) ToyUsers.alice_world) =
    Ok [ToyUsers.alice].
Proof.
  exact (proj1 (proj2 (proj2 (findAll_slices (P := Toy.prims) ToyUsers.alice_world))) 1%Z 0%Z
           ltac:(lia) ltac:(lia)).
Defined.

Lemma extractToken_iff_witness : AuthMiddleware.extractToken (Some "Bearer abc") = Some "abc".
Proof. exact (proj2 (extractToken_iff "Bearer abc" "abc") (conj eq_refl eq_refl)). Defined.

Lemma refresh_same_instant_witness :
  let tok := TokenService.createToken (P := Toy.prims) "k3y"
               (mkPayload "0" 1005 (1005 + TokenService.ttl_ms)%Z) in
  match AuthService.refreshToken (P := Toy.prims) tok ToyUsers.alice_world with
  | (Ok r, _) => token r = tok
  | _ => False
  end.
Proof.
  cbv zeta.
  destruct (AuthService.refreshToken (P := Toy.prims)
              (TokenService.createToken "k3y" (mkPayload "0" 1005 (1005 + TokenService.ttl_ms)%Z))
              ToyUsers.alice_world) as [[r|e] w'] eqn:E.
  - exact (refresh_same_instant ToyFacts.prims_ok ToyUsers.alice_world w' "0" 1005 r
             ToyStore.alice_wf eq_refl E).
  - vm_compute in E. discriminate.
Defined.

Lemma admin_delete_user_witness :
  fst (AdminController.deleteUser "0" ToyUsers.alice_world) =
    Ok (Http.Success 200%Z "User deleted successfully").
Proof.
  exact (proj1 (proj2 (admin_delete_user (P := Toy.prims) "0" _ ToyStore.alice_wf)
                  ToyUsers.alice eq_refl)).
Defined.

Lemma login_endpoint_witness :
  UserController.login (P := Toy.prims) [("email", Js.JStr "a@b.c")] ToyUsers.alice_world =
    (Ok (Http.Failure 400%Z "Valid password is required" None), ToyUsers.alice_world).
Proof.
  exact (proj1 (proj2 (login_endpoint (P := Toy.prims) [("email", Js.JStr "a@b.c")] ToyUsers.alice_world)) "a@b.c" eq_refl eq_refl).
Defined.

Lemma refresh_endpoint_witness :
  UserController.refreshToken (P := Toy.prims) [] ToyUsers.alice_world =
    (Ok (Http.Failure 400%Z "Token is required" None), ToyUsers.alice_world).
Proof. exact (proj1 (refresh_endpoint (P := Toy.prims) [] ToyUsers.alice_world) eq_refl). Defined.

Lemma logout_endpoint_witness :
  fst (TokenService.validateToken (P := Toy.prims) "abc"
         (snd (UserController.logout [("token", Js.JStr "abc")]
                 ToyUsers.alice_world))) = Err TokenService.revoked_error.
Proof.
  exact (proj2 (proj2 (proj2 (logout_endpoint (P := Toy.prims) [("token", Js.JStr "abc")] ToyUsers.alice_world) "abc" eq_refl))).
Defined.

Lemma change_password_keeps_sessions_witness :
  secret (snd (UserController.updatePassword (P := Toy.prims) None [] ToyUsers.alice_world)) = "k3y".
Proof.
  exact (proj1 (proj2 (change_password_keeps_sessions ToyFacts.prims_ok None [] ToyUsers.alice_world
    ToyUsers.alice_world (Ok (Http.Failure 401%Z "Authentication required" None)) eq_refl))).
Defined.

Lemma change_password_success_witness :
  let body := [("currentPassword", Js.JStr "abc"); ("newPassword", Js.JStr "Ab1!cdef")] in
  let ru := AuthService.toUserResponse ToyUsers.alice in
  exists w', UserController.updatePassword (P := Toy.prims) (Some ru) body ToyUsers.alice_world =
      (Ok (Http.Success 200%Z "Password updated successfully"), w') /\
    exists u', UserRepository.map_get "0" (users w') = Some u' /\
      PasswordService.verifyPassword (P := Toy.prims) "Ab1!cdef" (hashedPassword u') = true.
Proof.
  cbv zeta.
  destruct (UserController.updatePassword (P := Toy.prims) (Some (AuthService.toUserResponse ToyUsers.alice))
              [("currentPassword", Js.JStr "abc"); ("newPassword", Js.JStr "Ab1!cdef")]
              ToyUsers.alice_world) as [r w'] eqn:E.
  assert (Er : r = Ok (Http.Success 200%Z "Password updated successfully")).
  { vm_compute in E. injection E as <- _. reflexivity. }
  subst r. exists w'. split; [reflexivity|].
  destruct (change_password_success ToyFacts.sha_ok _ _ ToyUsers.alice_world w' eq_refl ltac:(discriminate) E)
    as [pd [u [u' [V [_ [_ [_ [G [_ [Hv _]]]]]]]]]].
  vm_compute in V. injection V as <-.
  exists u'. split; [exact G|exact Hv].
Defined.

Lemma change_password_failures_witness :
  UserController.updatePassword (P := Toy.prims) (Some (AuthService.toUserResponse ToyUsers.alice)) []
    ToyUsers.alice_world =
    (Ok (Http.Failure 400%Z "Current password is required" None), ToyUsers.alice_world).
Proof.
  exact (proj1 (proj2 (change_password_failures (P := Toy.prims) [] ToyUsers.alice_world)
                  (AuthService.toUserResponse ToyUsers.alice)) _ eq_refl).
Defined.

Lemma secret_and_revocations_persist_witness :
  In "t" (revokedTokens (run_exts (P := Toy.prims) [EBase (OLogout "x"); EAdminDelete "0"]
                           (Toy.world 1000 5 [] ["t"]))).
Proof.
  exact (proj2 (secret_and_revocations_persist (P := Toy.prims) [EBase (OLogout "x"); EAdminDelete "0"]
                  (Toy.world 1000 5 [] ["t"])) "t" (or_introl eq_refl)).
Defined.

Lemma email_regex_language_witness :
  Regex.matches Regex.emailRegex "a.b@c.d.e" = true /\
  exists a b c, "a.b@c.d.e" = a ++ "@" ++ b ++ "." ++ c.
Proof.
  split; [reflexivity|].
  destruct (proj1 (email_regex_language "a.b@c.d.e") eq_refl) as [a [b [c [E _]]]].
  exists a, b, c. exact E.
Defined.

Lemma validate_registration_iff_witness :
  UserController.validateRegistrationData
    [("email", Js.JStr "a@b.c"); ("username", Js.JStr "al"); ("password", Js.JStr "pw");
     ("firstName", Js.JStr "A"); ("lastName", Js.JStr "L"); ("phone", Js.JNum 0)] =
  Ok (UserController.mkRegistrationInput "a@b.c" "al" "pw" "A" "L" (Js.JNum 0)).
Proof.
  apply (proj2 (validate_registration_iff _ _ _ _ _ _ _)).
  repeat split; try discriminate. left. reflexivity.
Defined.

Lemma profile_update_merge_witness :
  let body := [("firstName", Js.JStr ""); ("email", Js.JStr "x@y.z")] in
  let profile := [("firstName", Js.JStr "A"); ("avatar", Js.JStr "p.png")] in
  UserController.validateProfileUpdateData body = Ok [("firstName", Js.JStr "")] /\
  Js.get (UserRepositoryOps.updated_profile profile [("firstName", Js.JStr "")]) "firstName" = Js.JStr "" /\
  Js.get (UserRepositoryOps.updated_profile profile [("firstName", Js.JStr "")]) "avatar" = Js.JStr "p.png".
Proof.
  cbv zeta.
  pose proof (proj2 (profile_update_merge [("firstName", Js.JStr ""); ("email", Js.JStr "x@y.z")])
                [("firstName", Js.JStr "")] eq_refl [("firstName", Js.JStr "A"); ("avatar", Js.JStr "p.png")])
    as H.
  split; [reflexivity|]. rewrite !H. split; reflexivity.
Defined.

Lemma admin_update_profile_witness :
  AdminController.validateUpdateUserRequest [("lastName", Js.JStr "L2")] = Ok [("lastName", Js.JStr "L2")] /\
  Js.get (UserRepositoryOps.updated_profile [("firstName", Js.JStr "A")]
     [("firstName", Js.JUndefined); ("lastName", Js.JStr "L2"); ("phone", Js.JUndefined)]) "firstName" =
    Js.JUndefined.
Proof.
  split; [reflexivity|].
  rewrite (proj2 (admin_update_profile [("lastName", Js.JStr "L2")] _ eq_refl) _ eq_refl).
  reflexivity.
Defined.

Lemma admin_create_success_witness :
  let d := mkRegistration "b@c.d" "bo" "Ab1!cdef" "B" "O" None in
  match AdminController.createUser_checked (P := Toy.prims) d ["admin"] ToyUsers.alice_world with
  | (Ok (Http.Success c ur), _) => c = 201%Z /\ r_roles ur = []
  | _ => False
  end.
Proof.
  cbv zeta.
  destruct (AdminController.createUser_checked (P := Toy.prims)
              (mkRegistration "b@c.d" "bo" "Ab1!cdef" "B" "O" None) ["admin"] ToyUsers.alice_world)
    as [[[c e dt|c ur]|e] w'] eqn:E; try (vm_compute in E; discriminate).
  destruct (admin_create_success _ _ _ _ _ _ E) as [u [Hc [_ [Hr _]]]].
  split; assumption.
Defined.

Lemma admin_create_refusals_witness :
  AdminController.createUser_checked (P := Toy.prims) (mkRegistration "a@b.c" "bo" "Ab1!cdef" "B" "O" None)
    [] ToyUsers.alice_world =
    (Ok (Http.Failure 409%Z "User with this email already exists" None), ToyUsers.alice_world).
Proof.
  exact (proj1 (admin_create_refusals (P := Toy.prims) (mkRegistration "a@b.c" "bo" "Ab1!cdef" "B" "O" None)
                  [] ToyUsers.alice_world) ToyUsers.alice eq_refl).
Defined.

Lemma verify_tolerance_witness :
  PasswordService.verifyPassword (P := Toy.prims) "abc"
    ("00112233445566778899aabbccddeeff" ++ ":" ++ Toy.zeros64 ++ ":" ++ "legacy") = true.
Proof.
  rewrite (proj1 (verify_tolerance (P := Toy.prims) "abc" "00112233445566778899aabbccddeeff" Toy.zeros64
                    "" "legacy" eq_refl eq_refl)).
  reflexivity.
Defined.

Lemma verify_malformed_witness :
  PasswordService.verifyPassword (P := Toy.prims) "abc" Toy.zeros64 = false.
Proof. exact (proj1 (verify_malformed (P := Toy.prims) "abc") Toy.zeros64 eq_refl). Defined.
